(** * HHProject: listing pipeline and zone classifier

    A shallow embedding of the Python sources
    - [src/src/main.py]  (normalizers, scrapers, record store) and
    - [src/wb_check_coordinates.py], [src/src/utils.py], [src/settings.py]
      (zone classifier),
    together with the properties of the specification that concern them.

    Conventions.
    - A Python [str] is a sequence of Unicode code points: [list N].
      Literals are written as UTF-8 text and decoded by [u8].
    - Code that can raise is written in the error monad [exc]; a Python
      [try ... except Exception] is [try_except].
    - Python dictionaries are finite maps ([gmap]); Python sets are [gset].
    - Python floats are IEEE binary64 values ([PrimFloat.float]).
    - The built-ins [float(...)] and [round(..., 2)] are modelled in
      [PyFloat]; [repr] of a float, the HTML parser, the network and the
      geocoding service are section variables. *)

From Stdlib Require Import String Ascii List ZArith NArith Bool Lia DecimalString.
From Stdlib Require DecimalZ DecimalPos.
From Stdlib Require Import Floats.PrimFloat Floats.SpecFloat Floats.FloatOps.
From stdpp Require Import gmap strings list fin_maps.
Import ListNotations.

#[local] Set Warnings "-register-all".

(* ===================================================================== *)
(** * Python values: strings, exceptions, JSON                            *)
(* ===================================================================== *)

Module PyStr.

(** Code point of an ASCII character; [ch "/"] is the literal written by
    the notation below. *)
Definition code_point (a : ascii) : N := N_of_ascii a.

Notation "'ch' c" :=
  (ltac:(let v := eval vm_compute in (code_point c%char) in exact v))
  (at level 10, c at level 9, only parsing).

(** UTF-8 decoding of a literal. [need] counts the continuation bytes still
    expected and [acc] holds the bits read so far. *)
Fixpoint u8_go (need : nat) (acc : N) (s : string) : list N :=
  match s with
  | EmptyString => []
  | String a s' =>
      let b := N_of_ascii a in
      match need with
      | O => if (b <? 128)%N then b :: u8_go 0 0%N s'
             else if (b <? 224)%N then u8_go 1 (b - 192)%N s'
             else if (b <? 240)%N then u8_go 2 (b - 224)%N s'
             else u8_go 3 (b - 240)%N s'
      | S O => (acc * 64 + (b - 128))%N :: u8_go 0 0%N s'
      | S k => u8_go k (acc * 64 + (b - 128))%N s'
      end
  end.

Definition utf8 (s : string) : list N := u8_go 0 0%N s.

(** A string literal: [u8 "..."] stands for the list of code points of the
    text, computed where it is written. *)
Notation "'u8' s" :=
  (ltac:(let v := eval vm_compute in (utf8 s%string) in exact v))
  (at level 10, s at level 9, only parsing).

(** [a == b] on strings. *)
Fixpoint str_eqb (a b : list N) : bool :=
  match a, b with
  | [], [] => true
  | x :: a', y :: b' => (x =? y)%N && str_eqb a' b'
  | _, _ => false
  end.

(** [s.startswith(p)]. *)
Fixpoint startswith (p s : list N) : bool :=
  match p, s with
  | [], _ => true
  | _ :: _, [] => false
  | x :: p', y :: s' => (x =? y)%N && startswith p' s'
  end.

(** [sub in s]. *)
Fixpoint contains (sub s : list N) : bool :=
  startswith sub s ||
  match s with
  | [] => false
  | _ :: s' => contains sub s'
  end.

(** [c in s] for a single character. *)
Definition has_char (c : N) (s : list N) : bool := existsb (N.eqb c) s.

(** [s.partition(sep)] when [sep] occurs: the text before the first
    occurrence and the text after it. *)
Fixpoint cut (sep s : list N) : option (list N * list N) :=
  if startswith sep s then Some ([], drop (length sep) s)
  else match s with
       | [] => None
       | c :: s' =>
           match cut sep s' with
           | Some (b, a) => Some (c :: b, a)
           | None => None
           end
       end.

(** [s.split(sep, 1)]. *)
Definition split1 (sep s : list N) : list (list N) :=
  match cut sep s with
  | Some (b, a) => [b; a]
  | None => [s]
  end.

(** [s.split(sep)] for a non-empty separator: occurrences are found from the
    left and do not overlap.  Every cut consumes a character, so
    [length s] rounds are enough. *)
Fixpoint split_fuel (n : nat) (sep s : list N) : list (list N) :=
  match cut sep s with
  | None => [s]
  | Some (b, a) =>
      match n with
      | O => [s]
      | S n' => b :: split_fuel n' sep a
      end
  end.

Definition split (sep s : list N) : list (list N) :=
  split_fuel (length s) sep s.

(** [sep.join(parts)]. *)
Fixpoint join (sep : list N) (parts : list (list N)) : list N :=
  match parts with
  | [] => []
  | [p] => p
  | p :: rest => p ++ sep ++ join sep rest
  end.

(** [s.replace(old, new)] for non-empty [old]. *)
Definition replace (old new s : list N) : list N := join new (split old s).

(** [parts[0]] and [parts[-1]] of a non-empty list of strings. *)
Definition first_piece (parts : list (list N)) : list N := hd [] parts.
Definition last_piece (parts : list (list N)) : list N := List.last parts [].

(** [s.lstrip(chars)], [s.rstrip(chars)], [s.strip(chars)], with the set of
    characters given as a predicate. *)
Fixpoint lstrip_by (p : N -> bool) (s : list N) : list N :=
  match s with
  | [] => []
  | c :: s' => if p c then lstrip_by p s' else s
  end.

Fixpoint rstrip_by (p : N -> bool) (s : list N) : list N :=
  match s with
  | [] => []
  | c :: s' =>
      match rstrip_by p s' with
      | [] => if p c then [] else [c]
      | r => c :: r
      end
  end.

Definition strip_by (p : N -> bool) (s : list N) : list N :=
  rstrip_by p (lstrip_by p s).

(** Unicode white space, as [str.isspace] and the pattern [\s] see it. *)
Definition is_space (c : N) : bool :=
  ((9 <=? c) && (c <=? 13) || (28 <=? c) && (c <=? 32)
   || (c =? 133) || (c =? 160) || (c =? 5760)
   || (8192 <=? c) && (c <=? 8202)
   || (c =? 8232) || (c =? 8233) || (c =? 8239) || (c =? 8287)
   || (c =? 12288))%N.

(** [s.strip()]. *)
Definition strip (s : list N) : list N := strip_by is_space s.

(** [s.lower()], character by character.  The case mapping is given for
    ASCII, Latin-1 and the Cyrillic block, the alphabets of the addresses and
    hosts the program handles; other code points are left as they are. *)
Definition lower_cp (c : N) : N :=
  if ((65 <=? c) && (c <=? 90))%N then (c + 32)%N
  else if ((192 <=? c) && (c <=? 222) && negb (c =? 215))%N then (c + 32)%N
  else if ((1024 <=? c) && (c <=? 1039))%N then (c + 80)%N
  else if ((1040 <=? c) && (c <=? 1071))%N then (c + 32)%N
  else c.

Definition lower (s : list N) : list N := map lower_cp s.

(** Truthiness of a string. *)
Definition nonempty (s : list N) : bool :=
  match s with [] => false | _ => true end.

End PyStr.
Export PyStr.

(** Exceptions and the error monad. *)
Inductive exn :=
| ValueError | TypeError | AttributeError | KeyError
| ZeroDivisionError | OverflowError | RequestError.

Inductive exc (A : Type) :=
| Ok (a : A)
| Raise (e : exn).
Arguments Ok {A} a.
Arguments Raise {A} e.

#[global] Instance exc_ret : MRet exc := fun A a => Ok a.
#[global] Instance exc_bind : MBind exc := fun A B k m =>
  match m with
  | Ok a => k a
  | Raise e => Raise e
  end.

(** [try: m  except Exception: h]. *)
Definition try_except {A} (m : exc A) (h : exc A) : exc A :=
  match m with
  | Ok a => Ok a
  | Raise _ => h
  end.

(** Scalar values as they occur in table cells and function arguments. *)
Inductive pyval :=
| PNone
| PStr (s : list N)
| PInt (z : Z)
| PFloat (f : float)
| PBool (b : bool).

(** JSON documents as [json.loads] and [Response.json] return them; a JSON
    object is a Python [dict]. *)
Inductive json :=
| JNull
| JBool (b : bool)
| JInt (z : Z)
| JFloat (f : float)
| JStr (s : list N)
| JList (l : list json)
| JDict (d : gmap (list N) json).

Module PyVal.

(** Truthiness of a float: [0.0] and [-0.0] are false, everything else
    (NaN included) is true. *)
Definition float_truthy (x : float) : bool := negb (PrimFloat.eqb x 0%float).

Definition json_truthy (v : json) : bool :=
  match v with
  | JNull => false
  | JBool b => b
  | JInt z => negb (z =? 0)%Z
  | JFloat f => float_truthy f
  | JStr s => nonempty s
  | JList l => match l with [] => false | _ => true end
  | JDict d => negb (bool_decide (d = ∅))
  end.

(** [v.get(key)]: only a [dict] has the method; a missing key gives [None]. *)
Definition json_get (v : json) (key : list N) : exc json :=
  match v with
  | JDict d => Ok (default JNull (d !! key))
  | _ => Raise AttributeError
  end.

(** [v.get(key, {})]. *)
Definition json_get_or_empty (v : json) (key : list N) : exc json :=
  match v with
  | JDict d => Ok (default (JDict ∅) (d !! key))
  | _ => Raise AttributeError
  end.

(** [v == s] for a string literal [s]. *)
Definition json_is_str (v : json) (s : list N) : bool :=
  match v with
  | JStr t => str_eqb t s
  | _ => false
  end.

(** Decimal rendering of an integer, [str(z)]. *)
Definition str_of_Z (z : Z) : list N :=
  map N_of_ascii
    (list_ascii_of_string (DecimalString.NilZero.string_of_int (Z.to_int z))).

End PyVal.
Export PyVal.

(** The built-ins [float(x)] and [round(x, 2)] of CPython, on binary64. *)
Module PyFloat.

(** The float nearest to [n / d] (ties to even), negated when [neg];
    [0 <= n], [0 < d].  The quotient is computed with more than 60 bits and a
    sticky bit, then rounded to the format. *)
Definition nearest_quot (neg : bool) (n d : Z) : float :=
  if (n =? 0)%Z then (if neg then neg_zero else zero)
  else
    let sh := Z.max 0 (64 + Z.log2 d - Z.log2 n) in
    let q := (n * 2 ^ sh / d)%Z in
    let sticky := if ((n * 2 ^ sh) mod d =? 0)%Z then 0%Z else 1%Z in
    let m := (2 * q + sticky)%Z in
    SF2Prim (binary_normalize prec emax (if neg then (- m)%Z else m)
                              (- sh - 1) false).

(** The integer nearest to [n / d] (ties to even), [0 <= n], [0 < d]. *)
Definition nearest_int (n d : Z) : Z :=
  let q := (n / d)%Z in
  let r := (n mod d)%Z in
  if (d <? 2 * r)%Z then (q + 1)%Z
  else if (2 * r =? d)%Z then (if Z.even q then q else (q + 1)%Z)
  else q.

(** [round(x, 2)]: the decimal with two places nearest to the exact value of
    [x], converted back to the nearest float. *)
Definition py_round2 (x : float) : float :=
  match Prim2SF x with
  | S754_finite s m e =>
      let n :=
        if (0 <=? e)%Z then (Z.pos m * 2 ^ e * 100)%Z
        else nearest_int (Z.pos m * 100) (2 ^ (- e)) in
      nearest_quot s n 100
  | _ => x
  end.

Definition is_digit (c : N) : bool := ((48 <=? c) && (c <=? 57))%N.

(** A group of digits, with single underscores between digits. *)
Fixpoint digit_run (s : list N) : list N * list N :=
  match s with
  | c :: s' =>
      if is_digit c then
        match s' with
        | u :: ((d :: _) as s'') =>
            if (u =? ch "_")%N && is_digit d
            then let '(ds, r) := digit_run s'' in (c :: ds, r)
            else let '(ds, r) := digit_run s' in (c :: ds, r)
        | _ => let '(ds, r) := digit_run s' in (c :: ds, r)
        end
      else ([], s)
  | [] => ([], [])
  end.

Definition digits_value (ds : list N) : Z :=
  fold_left (fun acc c => (acc * 10 + Z.of_N (c - 48))%Z) ds 0%Z.

(** An optional sign: whether it is a minus, and the rest. *)
Definition take_sign (s : list N) : bool * list N :=
  match s with
  | c :: s' =>
      if (c =? ch "-")%N then (true, s')
      else if (c =? ch "+")%N then (false, s')
      else (false, s)
  | [] => (false, [])
  end.

(** The exponent part [e[+-]digits], or nothing. *)
Definition take_exponent (s : list N) : option Z :=
  match s with
  | [] => Some 0%Z
  | c :: s' =>
      if ((c =? ch "e") || (c =? ch "E"))%N then
        let '(neg, s'') := take_sign s' in
        match digit_run s'' with
        | ((_ :: _) as ds, []) =>
            Some (if neg then (- digits_value ds)%Z else digits_value ds)
        | _ => None
        end
      else None
  end.

(** [float(s)] for a string: white space around, a sign, then [inf],
    [infinity], [nan] in any case or a decimal number.  Digits other than
    ASCII ones are not accepted here. *)
Definition float_of_str (s : list N) : exc float :=
  let '(neg, body) := take_sign (strip s) in
  let word := lower body in
  if str_eqb word (u8 "inf") || str_eqb word (u8 "infinity")
  then Ok (if neg then neg_infinity else infinity)
  else if str_eqb word (u8 "nan") then Ok nan
  else
    let '(int_ds, r1) := digit_run body in
    let '(frac_ds, r2) :=
      match r1 with
      | c :: r =>
          if (c =? ch ".")%N then digit_run r else ([], r1)
      | [] => ([], [])
      end in
    match int_ds ++ frac_ds, take_exponent r2 with
    | (_ :: _) as ds, Some e =>
        let k := (e - Z.of_nat (length frac_ds))%Z in
        Ok (if (0 <=? k)%Z
            then nearest_quot neg (digits_value ds * 10 ^ k) 1
            else nearest_quot neg (digits_value ds) (10 ^ (- k)))
    | _, _ => Raise ValueError
    end.

(** [float(v)] for a value decoded from JSON. *)
Definition py_float (v : json) : exc float :=
  match v with
  | JFloat f => Ok f
  | JInt z =>
      let f := nearest_quot (z <? 0)%Z (Z.abs z) 1 in
      if is_infinity f then Raise OverflowError else Ok f
  | JBool b => Ok (if b then one else zero)
  | JStr s => float_of_str s
  | _ => Raise TypeError
  end.

End PyFloat.
Export PyFloat.

(* ===================================================================== *)
(** * urllib.parse                                                        *)
(* ===================================================================== *)

(** [normalize_url] calls [urlparse] and [urlunparse] of Python's standard
    library.  They are not part of the repository; this module follows
    CPython 3.11 ([Lib/urllib/parse.py]) for [str] arguments.  Two checks
    of [urlsplit] are left out: the IPv6 syntax check of a bracketed host
    and the NFKC check of a non-ASCII host. The theorems below only concern
    hosts without brackets, written in ASCII. *)
Module Urllib.

Definition scheme_char (c : N) : bool :=
  ((97 <=? c) && (c <=? 122) || (65 <=? c) && (c <=? 90)
   || (48 <=? c) && (c <=? 57)
   || (c =? ch "+") || (c =? ch "-") || (c =? ch "."))%N.

Definition ascii_alpha (c : N) : bool :=
  ((97 <=? c) && (c <=? 122) || (65 <=? c) && (c <=? 90))%N.

(** [_WHATWG_C0_CONTROL_OR_SPACE] and [_UNSAFE_URL_BYTES_TO_REMOVE]. *)
Definition c0_or_space (c : N) : bool := (c <=? 32)%N.
Definition unsafe_byte (c : N) : bool :=
  ((c =? 9) || (c =? 13) || (c =? 10))%N.

Definition uses_netloc : list (list N) :=
  Eval vm_compute in
  map utf8 [""; "ftp"; "http"; "gopher"; "nntp"; "telnet"; "imap"; "wais";
            "file"; "mms"; "https"; "shttp"; "snews"; "prospero"; "rtsp";
            "rtspu"; "rsync"; "svn"; "svn+ssh"; "sftp"; "nfs"; "git";
            "git+ssh"; "ws"; "wss"]%string.

Definition uses_params : list (list N) :=
  Eval vm_compute in
  map utf8 [""; "ftp"; "hdl"; "prospero"; "http"; "imap"; "https"; "shttp";
            "rtsp"; "rtspu"; "sip"; "sips"; "mms"; "sftp"; "tel"]%string.

Definition str_in (s : list N) (l : list (list N)) : bool :=
  existsb (str_eqb s) l.

(** The longest prefix without a character of [p], and the rest. *)
Fixpoint span_until (p : N -> bool) (s : list N) : list N * list N :=
  match s with
  | [] => ([], [])
  | c :: s' =>
      if p c then ([], s)
      else let '(a, b) := span_until p s' in (c :: a, b)
  end.

Definition netloc_delim (c : N) : bool :=
  ((c =? ch "/") || (c =? ch "?") || (c =? ch "#"))%N.

Record SplitResult := {
  sr_scheme : list N;
  sr_netloc : list N;
  sr_path : list N;
  sr_query : list N;
  sr_fragment : list N
}.

Record ParseResult := {
  scheme : list N;
  netloc : list N;
  path : list N;
  params : list N;
  query : list N;
  fragment : list N
}.

(** The scheme of [url] and what follows its colon, when [url] has one:
    [i = url.find(':')], [i > 0], the first character is an ASCII letter and
    [url[:i]] only has scheme characters. *)
Definition split_scheme (url : list N) : list N * list N :=
  match cut [ch ":"] url with
  | Some (c :: pre, rest) =>
      if ascii_alpha c && forallb scheme_char (c :: pre)
      then (lower (c :: pre), rest)
      else ([], url)
  | _ => ([], url)
  end.

(** [urlsplit(url)]. *)
Definition urlsplit (url0 : list N) : exc SplitResult :=
  let url := lstrip_by c0_or_space url0 in
  let url := List.filter (fun c => negb (unsafe_byte c)) url in
  let '(scheme, url) := split_scheme url in
  '(netloc, url) ←
    (if startswith (u8 "//") url then
       let '(netloc, rest) := span_until netloc_delim (drop 2 url) in
       if has_char (ch "[") netloc && negb (has_char (ch "]") netloc)
          || has_char (ch "]") netloc && negb (has_char (ch "[") netloc)
       then Raise ValueError
       else Ok (netloc, rest)
     else Ok ([], url));
  let '(url, fragment) :=
    match cut [ch "#"] url with
    | Some (b, a) => (b, a)
    | None => (url, [])
    end in
  let '(url, query) :=
    match cut [ch "?"] url with
    | Some (b, a) => (b, a)
    | None => (url, [])
    end in
  Ok {| sr_scheme := scheme; sr_netloc := netloc; sr_path := url;
        sr_query := query; sr_fragment := fragment |}.

(** [_splitparams(url)]: the parameters start at the first [;] of the last
    path segment. *)
Definition splitparams (url : list N) : list N * list N :=
  let '(seg_rev, head_rev) := span_until (N.eqb (ch "/")) (rev url) in
  match head_rev with
  | [] =>
      (* no slash in url *)
      match cut [ch ";"] url with
      | Some (b, a) => (b, a)
      | None => (url, [])   (* unreachable: the caller checked [';' in url] *)
      end
  | _ :: head_rev' =>
      (* the search starts at the last slash *)
      match cut [ch ";"] (ch "/" :: rev seg_rev) with
      | Some (b, a) => (rev head_rev' ++ b, a)
      | None => (url, [])
      end
  end.

(** [urlparse(url)]. *)
Definition urlparse (url : list N) : exc ParseResult :=
  r ← urlsplit url;
  let '(url, params) :=
    if str_in (sr_scheme r) uses_params && has_char (ch ";") (sr_path r)
    then splitparams (sr_path r)
    else (sr_path r, []) in
  Ok {| scheme := sr_scheme r; netloc := sr_netloc r; path := url;
        params := params; query := sr_query r; fragment := sr_fragment r |}.

(** [urlunsplit((scheme, netloc, url, query, fragment))]. *)
Definition urlunsplit (scheme netloc url query fragment : list N) : list N :=
  let url :=
    if nonempty netloc
       || nonempty scheme && str_in scheme uses_netloc
          && negb (startswith (u8 "//") url)
    then
      let url := if nonempty url && negb (startswith (u8 "/") url)
                 then ch "/" :: url else url in
      u8 "//" ++ netloc ++ url
    else url in
  let url := if nonempty scheme then scheme ++ ch ":" :: url else url in
  let url := if nonempty query then url ++ ch "?" :: query else url in
  let url := if nonempty fragment then url ++ ch "#" :: fragment else url in
  url.

(** [urlunparse((scheme, netloc, url, params, query, fragment))]. *)
Definition urlunparse (scheme netloc url params query fragment : list N)
  : list N :=
  let url := if nonempty params then url ++ ch ";" :: params else url in
  urlunsplit scheme netloc url query fragment.

End Urllib.

(* ===================================================================== *)
(** * src/src/main.py: the two normalizers                                *)
(* ===================================================================== *)

Module Main.

(** [s.rstrip('/')]. *)
Definition rstrip_slash (s : list N) : list N := rstrip_by (N.eqb (ch "/")) s.

(** [netloc[4:]] when [netloc.startswith('www.')]. *)
Definition strip_www (netloc : list N) : list N :=
  if startswith (u8 "www.") netloc then drop 4 netloc else netloc.

(** The string manipulation of the [except] branch of [normalize_url]
    (lines 133-138). *)
Definition normalize_url_fallback (url : list N) : list N :=
  let s := url in
  let s := rstrip_slash
             (first_piece (split1 [ch "?"] (first_piece (split1 [ch "#"] s)))) in
  let s := replace (u8 "http://") (u8 "https://") s in
  let s := replace (u8 "https://www.") (u8 "https://") s in
  s.

(** [normalize_url(url)] (lines 119-140). *)
Definition normalize_url (url : list N) : list N :=
  let attempt : exc (list N) :=
    let s := strip url in
    p ← Urllib.urlparse s;
    let scheme :=
      if nonempty (Urllib.scheme p) then Urllib.scheme p else u8 "https" in
    let netloc := lower (Urllib.netloc p) in
    let netloc := strip_www netloc in
    let path := rstrip_slash (Urllib.path p) in
    let norm := Urllib.urlunparse scheme netloc path [] [] [] in
    Ok norm in
  match attempt with
  | Ok norm => norm
  | Raise _ => normalize_url_fallback url
  end.

(** [re.sub(r"\s*\([^\)]*\)", "", a)] (line 111).  [match_paren s] is the
    text after a match of the pattern at the head of [s]. *)
Definition match_paren (s : list N) : option (list N) :=
  match lstrip_by is_space s with
  | c :: rest =>
      if (c =? ch "(")%N then
        match cut [ch ")"] rest with
        | Some (_, after) => Some after
        | None => None
        end
      else None
  | [] => None
  end.

Fixpoint sub_parens_fuel (n : nat) (s : list N) : list N :=
  match n with
  | O => s
  | S n' =>
      match match_paren s with
      | Some after => sub_parens_fuel n' after
      | None =>
          match s with
          | [] => []
          | c :: s' => c :: sub_parens_fuel n' s'
          end
      end
  end.

Definition sub_parens (s : list N) : list N := sub_parens_fuel (S (length s)) s.

(** [tokens_to_drop] (lines 107-110). *)
Definition tokens_to_drop : list (list N) :=
  Eval vm_compute in
  map utf8 ["р-н"; "район"; "АО"; "округ"; "адм. округ"; "АДМ Округ";
            "ЦАО"; "САО"; "СВАО"; "ЮВАО"; "ЮАО"; "ЮЗАО"; "ЗАО"; "СЗАО";
            "НАО"; "ТАО"; "НАО (Новомосковский)"; "ТАО (Троицкий)"]%string.

(** Truthiness of an optional string ([None] and [''] are false). *)
Definition opt_truthy (o : option (list N)) : bool :=
  match o with
  | Some s => nonempty s
  | None => false
  end.

(** The cleaned address [a] of lines 106 and 111. *)
Definition clean_address (address : list N) : list N :=
  let a := strip_by (fun c => (c =? ch " ") || (c =? ch ","))%N
                    (replace (u8 "На карте") [] address) in
  sub_parens a.

(** [parts] (line 112) and [filtered] (line 113) before the city is added. *)
Definition address_parts (a : list N) : list (list N) :=
  map strip (List.filter (fun p => nonempty (strip p)) (split [ch ","] a)).

Definition drop_district_parts (parts : list (list N)) : list (list N) :=
  List.filter
    (fun p => negb (existsb (fun tok => contains (lower tok) (lower p))
                                 tokens_to_drop)) parts.

Section Builtins.

(** [repr] of a float, a Python built-in. *)
Variable repr_float : float -> list N.

(** [str(v)]. *)
Definition py_str (v : pyval) : list N :=
  match v with
  | PNone => u8 "None"
  | PStr s => s
  | PInt z => str_of_Z z
  | PFloat f => repr_float f
  | PBool true => u8 "True"
  | PBool false => u8 "False"
  end.

(** Lines 106-116 of [normalize_address_for_geocoding]: the address is a
    string. *)
Definition normalize_address_text (address : list N) (city : option (list N))
  : list N :=
  let a := clean_address address in
  let parts := address_parts a in
  let filtered := drop_district_parts parts in
  let filtered :=
    match city with
    | Some c =>
        if nonempty c
           && forallb (fun p => negb (contains (lower c) (lower p))) filtered
        then c :: filtered
        else filtered
    | None => filtered
    end in
  match filtered with
  | _ :: _ => join (u8 ", ") filtered
  | [] =>
      match city with
      | Some c => if nonempty c then c ++ u8 ", " ++ a else a
      | None => a
      end
  end.

(** [normalize_address_for_geocoding(address, city)] (lines 102-116). *)
Definition normalize_address_for_geocoding
    (address : pyval) (city : option (list N)) : list N :=
  match address with
  | PStr address => normalize_address_text address city
  | other => py_str other
  end.

(** ** Records (rows of the table) *)

(** [settings.AREA_MIN], [settings.AREA_MAX], [ITEM_RETRIES]. *)
Definition AREA_MIN : float := 45%float.
Definition AREA_MAX : float := 200%float.
Definition ITEM_RETRIES : nat := 3.

(** One row under [settings.COLUMN_ORDER].  The columns that no code path
    ever fills (district, metro, walk_metro_min, floor, description,
    seller_type, seller_name, published_at) stay [None] and are left out. *)
Record row := {
  source : option (list N);
  external_id : option (list N);
  url : list N;
  title : option (list N);
  address_raw : option (list N);
  address_formatted : option (list N);
  city : option (list N);
  lat : option float;
  lng : option float;
  area_m2 : option float;
  price_total : option float;
  price_per_m2 : option float;
  last_seen_at : option (list N);
  status : option (list N);
  notes : option (list N)
}.

(** Truthiness of an optional float ([None] and zero are false). *)
Definition optf_truthy (o : option float) : bool :=
  match o with
  | Some x => float_truthy x
  | None => false
  end.

(** [x / y] on floats. *)
Definition py_truediv (x y : float) : exc float :=
  if float_truthy y then Ok (x / y)%float else Raise ZeroDivisionError.

(** [round(price_total/area_m2, 2) if price_total and area_m2 else None]
    (lines 329 and 494). *)
Definition compute_price_per_m2 (price_total area_m2 : option float)
  : exc (option float) :=
  match price_total, area_m2 with
  | Some p, Some a =>
      if float_truthy p && float_truthy a
      then q ← py_truediv p a; Ok (Some (py_round2 q))
      else Ok None
  | _, _ => Ok None
  end.

(** [(area_m2 is not None) and (AREA_MIN <= area_m2 <= AREA_MAX)]. *)
Definition area_in_bounds (area_m2 : option float) : bool :=
  match area_m2 with
  | Some a => (AREA_MIN <=? a)%float && (a <=? AREA_MAX)%float
  | None => false
  end.

(** [re.sub(r'\D', '', link) or None]. *)
Definition digits_or_none (link : list N) : option (list N) :=
  match List.filter is_digit link with
  | [] => None
  | d => Some d
  end.

(** ** Coordinate resolution on a Cian detail page (lines 266-283) *)

(** One round of the loop over the JSON-LD scripts: the body of the [try]
    with its [except Exception: continue].  [script] is the outcome of
    [json.loads(script.string or "{}")].  The result says whether the loop
    was left by [break] and gives [lat] and [lng] afterwards; an exception
    raised between the two assignments leaves [lat] assigned. *)
Definition jsonld_step (script : exc json) (lat lng : option float)
  : bool * (option float * option float) :=
  match script with
  | Raise _ => (false, (lat, lng))
  | Ok jd =>
      match json_get jd (u8 "geo") with
      | Raise _ => (false, (lat, lng))
      | Ok g =>
          let geo := if json_truthy g then g else JDict ∅ in
          match geo with
          | JDict d =>
              let la := default JNull (d !! u8 "latitude") in
              let lo := default JNull (d !! u8 "longitude") in
              if json_truthy la && json_truthy lo then
                match py_float la with
                | Raise _ => (false, (lat, lng))
                | Ok x =>
                    match py_float lo with
                    | Raise _ => (false, (Some x, lng))
                    | Ok y => (true, (Some x, Some y))
                    end
                end
              else (false, (lat, lng))
          | _ => (false, (lat, lng))
          end
      end
  end.

Fixpoint scan_jsonld (scripts : list (exc json)) (lat lng : option float)
  : option float * option float :=
  match scripts with
  | [] => (lat, lng)
  | script :: rest =>
      match jsonld_step script lat lng with
      | (true, r) => r
      | (false, (lat', lng')) => scan_jsonld rest lat' lng'
      end
  end.

(** The pattern ["latitude"\s*:\s*([0-9.]+).*?"longitude"\s*:\s*([0-9.]+)]
    with [re.S].  [match_key_number key s] matches [key\s*:\s*([0-9.]+)] at
    the head of [s] and gives the group and the text after it. *)
Definition num_char (c : N) : bool := (is_digit c || (c =? ch "."))%N.

Definition match_key_number (key s : list N) : option (list N * list N) :=
  if startswith key s then
    match lstrip_by is_space (drop (length key) s) with
    | c :: s2 =>
        if (c =? ch ":")%N then
          let '(g, rest) :=
            Urllib.span_until (fun c => negb (num_char c))
                              (lstrip_by is_space s2) in
          if nonempty g then Some (g, rest) else None
        else None
    | [] => None
    end
  else None.

Fixpoint search_key_number (key s : list N) : option (list N * list N) :=
  match match_key_number key s with
  | Some r => Some r
  | None =>
      match s with
      | [] => None
      | _ :: s' => search_key_number key s'
      end
  end.

(** A word between double quotes (code point 34). *)
Definition quoted (s : list N) : list N := 34%N :: s ++ [34%N].

Definition KEY_LATITUDE : list N := quoted (u8 "latitude").
Definition KEY_LONGITUDE : list N := quoted (u8 "longitude").

(** [re.search(pattern, text, re.S)]: the groups of the leftmost match. *)
Fixpoint search_lat_lng (text : list N) : option (list N * list N) :=
  let here :=
    match match_key_number KEY_LATITUDE text with
    | Some (g1, rest) =>
        match search_key_number KEY_LONGITUDE rest with
        | Some (g2, _) => Some (g1, g2)
        | None => None
        end
    | None => None
    end in
  match here with
  | Some r => Some r
  | None =>
      match text with
      | [] => None
      | _ :: text' => search_lat_lng text'
      end
  end.

(** Lines 266-283: JSON-LD first, then the pattern in the page text.  The
    two [float(...)] of the fallback are not inside a [try] of their own. *)
Definition cian_coords (scripts : list (exc json)) (text : list N)
  : exc (option float * option float) :=
  let '(lat, lng) := scan_jsonld scripts None None in
  if bool_decide (lat = None) || bool_decide (lng = None) then
    match search_lat_lng text with
    | Some (g1, g2) =>
        x ← py_float (JStr g1);
        y ← py_float (JStr g2);
        Ok (Some x, Some y)
    | None => Ok (lat, lng)
    end
  else Ok (lat, lng).

(** ** The two scrapers (lines 179-340 and 343-503) *)

(** The network as the scrapers see it.  A request is answered by the
    world according to how many requests the run has sent before. *)
Inductive site_name := Cian | Avito.

Inductive request :=
| SearchPage (site : site_name) (p : nat)
| Detail (link : list N).

Inductive response :=
| ConnError                               (* [session.get] raised *)
| Status (code : nat) (body : list N).

Inductive event :=
| EvGet (r : request)
| EvDelay                                 (* [_sleep()] *)
| EvBackoff (base : nat)                  (* [time.sleep(base + random.random())] *)
| EvGeocode (query : list N).

Record run := { sent : nat; log : list event }.

Definition emit (e : event) (st : run) : run :=
  {| sent := sent st; log := log st ++ [e] |}.

Variable http : nat -> request -> response.

Definition do_get (r : request) (st : run) : run * response :=
  ({| sent := S (sent st); log := log st ++ [EvGet r] |}, http (sent st) r).

(** [status_code in (403, 429)] and the test of [raise_for_status]. *)
Definition blocked (code : nat) : bool := (code =? 403) || (code =? 429).
Definition http_error (code : nat) : bool := (400 <=? code) && (code <? 600).

(** [list(dict.fromkeys(links))]. *)
Fixpoint fromkeys_go (seen : gset (list N)) (links : list (list N))
  : list (list N) :=
  match links with
  | [] => []
  | x :: rest =>
      if decide (x ∈ seen) then fromkeys_go seen rest
      else x :: fromkeys_go ({[x]} ∪ seen) rest
  end.

Definition fromkeys (links : list (list N)) : list (list N) :=
  fromkeys_go ∅ links.

(** What the HTML parser and the field extractors find on a detail page. *)
Record item_dom := {
  dom_jsonld : list (exc json);           (* [json.loads] of each ld+json script *)
  dom_map_ll : option (float * float);    (* Avito: (lng, lat) of [data-map-state] *)
  dom_title : option (list N);
  dom_address : option (list N);
  dom_area_m2 : option float;             (* [parse_area_m2_from_soup] *)
  dom_price_total : option float
}.

(** The parts of the program that parse HTML (BeautifulSoup selections, the
    field extractors), the geocoding service, and the clock. *)
Variable cian_links : list N -> exc (list (list N)).
Variable avito_links : list N -> exc (list (list N)).
Variable cian_dom : list N -> exc item_dom.
Variable avito_dom : list N -> exc item_dom.
Variable geocode_address : list N -> option (list N) -> option (float * float).
Variable now_iso : nat -> list N.

Definition as_pyval (o : option (list N)) : pyval :=
  match o with
  | Some s => PStr s
  | None => PNone
  end.

(** Lines 307-314 / 472-479: geocoding as the last resort. *)
Definition geocode_last_resort (city_name : list N) (address : option (list N))
    (lat lng : option float) (st : run) : run * (option float * option float) :=
  if bool_decide (lat = None) || bool_decide (lng = None) then
    match address with
    | Some addr =>
        if nonempty addr then
          let search_addr :=
            if nonempty city_name
               && negb (contains (lower city_name) (lower addr))
            then city_name ++ u8 ", " ++ addr
            else addr in
          let st := emit (EvGeocode search_addr) st in
          match geocode_address search_addr None with
          | Some (la, lo) => (st, (Some la, Some lo))
          | None => (st, (lat, lng))
          end
        else (st, (lat, lng))
    | None => (st, (lat, lng))
    end
  else (st, (lat, lng)).

(** Lines 306-333 / 471-498: the record of a detail page, when the area is
    within bounds. *)
Definition assemble_row (src city_name link : list N) (dom : item_dom)
    (lat lng : option float) (st : run) : run * exc (option row) :=
  if area_in_bounds (dom_area_m2 dom) then
    let '(st, (lat, lng)) :=
      geocode_last_resort city_name (dom_address dom) lat lng st in
    match compute_price_per_m2 (dom_price_total dom) (dom_area_m2 dom) with
    | Raise e => (st, Raise e)
    | Ok ppm =>
        (st, Ok (Some
          {| source := Some src;
             external_id := digits_or_none link;
             url := normalize_url link;
             title := dom_title dom;
             address_raw := dom_address dom;
             address_formatted :=
               Some (normalize_address_for_geocoding
                       (as_pyval (dom_address dom)) (Some city_name));
             city := Some city_name;
             lat := lat;
             lng := lng;
             area_m2 := dom_area_m2 dom;
             price_total := dom_price_total dom;
             price_per_m2 := ppm;
             last_seen_at := Some (now_iso (sent st));
             status := Some (u8 "active");
             notes := None |}))
    end
  else (st, Ok None).

(** Lines 264-335: a fetched Cian page. *)
Definition cian_item (city_name link body : list N) (st : run)
  : run * exc (option row) :=
  match cian_dom body with
  | Raise e => (st, Raise e)
  | Ok dom =>
      match cian_coords (dom_jsonld dom) body with
      | Raise e => (st, Raise e)
      | Ok (lat, lng) => assemble_row (u8 "cian") city_name link dom lat lng st
      end
  end.

(** Lines 430-498: a fetched Avito page. *)
Definition avito_item (city_name link body : list N) (st : run)
  : run * exc (option row) :=
  match avito_dom body with
  | Raise e => (st, Raise e)
  | Ok dom =>
      let '(lat, lng) :=
        match dom_map_ll dom with
        | Some (lo, la) => (Some la, Some lo)
        | None => (None, None)
        end in
      assemble_row (u8 "avito") city_name link dom lat lng st
  end.

(** [min(2 ** attempt, 8)]. *)
Definition backoff_base (attempt : nat) : nat := Nat.min (2 ^ attempt) 8.

(** Lines 248-263: the attempts on one Cian link.  [Ok None] is
    [resp_ok = None] after the loop. *)
Fixpoint cian_fetch (link : list N) (attempts : list nat) (st : run)
  : run * exc (option (list N)) :=
  match attempts with
  | [] => (st, Ok None)
  | attempt :: rest =>
      let '(st, r) := do_get (Detail link) st in
      match r with
      | ConnError => (st, Raise RequestError)
      | Status code body =>
          if blocked code then
            cian_fetch link rest (emit (EvBackoff (backoff_base attempt)) st)
          else if http_error code then
            cian_fetch link rest (emit (EvBackoff (backoff_base attempt)) st)
          else (st, Ok (Some body))
      end
  end.

(** Lines 245-337: [for link in links[:40]]. *)
Fixpoint cian_links_loop (city_name : list N) (links : list (list N))
    (records : list row) (st : run) : list row * run :=
  match links with
  | [] => (records, st)
  | link :: rest =>
      let st := emit EvDelay st in
      let '(st, fetched) := cian_fetch link (seq 1 ITEM_RETRIES) st in
      match fetched with
      | Ok (Some body) =>
          match cian_item city_name link body st with
          | (st, Ok (Some r)) => cian_links_loop city_name rest (records ++ [r]) st
          | (st, _) => cian_links_loop city_name rest records st
          end
      | _ => cian_links_loop city_name rest records st
      end
  end.

(** Lines 191-339: [for p in range(1, pages + 1)]. *)
Fixpoint cian_pages (city_name : list N) (ps : list nat) (empty_pages : nat)
    (records : list row) (st : run) : list row * run :=
  match ps with
  | [] => (records, st)
  | p :: rest =>
      let '(st, resp) := do_get (SearchPage Cian p) st in
      match resp with
      | ConnError => (records, st)
      | Status code html =>
          if blocked code then (records, st)
          else if http_error code then (records, st)
          else
            match cian_links html with
            | Raise _ => (records, st)
            | Ok links =>
                match fromkeys links with
                | [] =>
                    let empty_pages := S empty_pages in
                    if 3 <=? empty_pages then (records, st)
                    else cian_pages city_name rest empty_pages records st
                | links =>
                    let '(records, st) :=
                      cian_links_loop city_name (take 40 links) records st in
                    cian_pages city_name rest 0 records st
                end
            end
      end
  end.

Definition scrape_cian (city_name : list N) (pages : nat) (st : run)
  : list row * run :=
  cian_pages city_name (seq 1 pages) 0 [] st.

(** Lines 414-429. *)
Fixpoint avito_fetch (link : list N) (attempts : list nat) (st : run)
  : run * exc (option (list N)) :=
  match attempts with
  | [] => (st, Ok None)
  | attempt :: rest =>
      let '(st, r) := do_get (Detail link) st in
      match r with
      | ConnError => (st, Raise RequestError)
      | Status code body =>
          if blocked code then
            avito_fetch link rest (emit (EvBackoff (backoff_base attempt)) st)
          else if http_error code then
            avito_fetch link rest (emit (EvBackoff (backoff_base attempt)) st)
          else (st, Ok (Some body))
      end
  end.

(** Lines 411-500. *)
Fixpoint avito_links_loop (city_name : list N) (links : list (list N))
    (records : list row) (st : run) : list row * run :=
  match links with
  | [] => (records, st)
  | link :: rest =>
      let st := emit EvDelay st in
      let '(st, fetched) := avito_fetch link (seq 1 ITEM_RETRIES) st in
      match fetched with
      | Ok (Some body) =>
          match avito_item city_name link body st with
          | (st, Ok (Some r)) => avito_links_loop city_name rest (records ++ [r]) st
          | (st, _) => avito_links_loop city_name rest records st
          end
      | _ => avito_links_loop city_name rest records st
      end
  end.

(** Lines 355-502. *)
Fixpoint avito_pages (city_name : list N) (ps : list nat) (empty_pages : nat)
    (records : list row) (st : run) : list row * run :=
  match ps with
  | [] => (records, st)
  | p :: rest =>
      let '(st, resp) := do_get (SearchPage Avito p) st in
      match resp with
      | ConnError => (records, st)
      | Status code html =>
          if blocked code then (records, st)
          else if http_error code then (records, st)
          else
            match avito_links html with
            | Raise _ => (records, st)
            | Ok links =>
                match fromkeys links with
                | [] =>
                    let empty_pages := S empty_pages in
                    if 3 <=? empty_pages then (records, st)
                    else avito_pages city_name rest empty_pages records st
                | links =>
                    let '(records, st) :=
                      avito_links_loop city_name (take 40 links) records st in
                    avito_pages city_name rest 0 records st
                end
            end
      end
  end.

Definition scrape_avito (city_name : list N) (pages : nat) (st : run)
  : list row * run :=
  avito_pages city_name (seq 1 pages) 0 [] st.

(** ** Record store: deduplication (lines 540-566) *)

(** [r.get(kname)] for the columns used as keys. *)
Definition row_get (r : row) (kname : list N) : option (list N) :=
  if str_eqb kname (u8 "source") then source r
  else if str_eqb kname (u8 "external_id") then external_id r
  else if str_eqb kname (u8 "url") then Some (url r)
  else None.

(** [keys] (lines 547-551): both column groups are present in the frame. *)
Definition KEYS : list (list (list N)) :=
  [[u8 "source"; u8 "external_id"]; [u8 "url"]].

(** [dedup_key] (lines 555-558): a tuple with one tuple of
    [(kname, value)] pairs per group of [keys]. *)
Definition dedup_key (r : row) : list (list (list N * option (list N))) :=
  map (fun k => map (fun kname => (kname, row_get r kname)) k) KEYS.

(** Lines 552-562. *)
Fixpoint dedup_loop (rows : list row)
    (seen : gset (list (list (list N * option (list N)))))
    (keep_rows : list row) : list row :=
  match rows with
  | [] => keep_rows
  | r :: rest =>
      if decide (dedup_key r ∈ seen) then dedup_loop rest seen keep_rows
      else dedup_loop rest ({[dedup_key r]} ∪ seen) (keep_rows ++ [r])
  end.

Definition with_url (u : list N) (r : row) : row :=
  {| source := source r; external_id := external_id r; url := u;
     title := title r; address_raw := address_raw r;
     address_formatted := address_formatted r; city := city r;
     lat := lat r; lng := lng r; area_m2 := area_m2 r;
     price_total := price_total r; price_per_m2 := price_per_m2 r;
     last_seen_at := last_seen_at r; status := status r; notes := notes r |}.

(** [df['url'] = df['url'].map(normalize_url)] followed by the loop. *)
Definition deduplicate (records : list row) : list row :=
  dedup_loop (map (fun r => with_url (normalize_url (url r)) r) records) ∅ [].

(** ** Record store: coordinates and notes (lines 506-533) *)

(** The note read by the zone classifier: [f"lat = {lat}, lng = {lng}"]
    for the renderings [L] and [U] of the two floats. *)
Definition legacy_note (L U : list N) : list N :=
  u8 "lat = " ++ L ++ u8 ", lng = " ++ U.

(** [pd.notna(x)]. *)
Definition notna (x : option float) : bool :=
  match x with
  | Some f => negb (PrimFloat.is_nan f)
  | None => false
  end.

(** [a or b] on optional strings. *)
Definition py_or (a b : option (list N)) : option (list N) :=
  if opt_truthy a then a else b.

Definition with_coords (la lo : float) (note : list N) (r : row) : row :=
  {| source := source r; external_id := external_id r; url := url r;
     title := title r; address_raw := address_raw r;
     address_formatted := address_formatted r; city := city r;
     lat := Some la; lng := Some lo; area_m2 := area_m2 r;
     price_total := price_total r; price_per_m2 := price_per_m2 r;
     last_seen_at := last_seen_at r; status := status r;
     notes := Some note |}.

Definition with_notes (note : list N) (r : row) : row :=
  {| source := source r; external_id := external_id r; url := url r;
     title := title r; address_raw := address_raw r;
     address_formatted := address_formatted r; city := city r;
     lat := lat r; lng := lng r; area_m2 := area_m2 r;
     price_total := price_total r; price_per_m2 := price_per_m2 r;
     last_seen_at := last_seen_at r; status := status r;
     notes := Some note |}.

(** Lines 514-519: a row that has both coordinates gets the note unless a
    note with ['lat ='] is already there. *)
Definition ensure_note (r : row) : row :=
  match lat r, lng r with
  | Some la, Some lo =>
      let legacy := legacy_note (repr_float la) (repr_float lo) in
      match notes r with
      | Some note =>
          if contains (u8 "lat =") note then r else with_notes legacy r
      | None => with_notes legacy r
      end
  | _, _ => r
  end.

(** Lines 520-532: a row without coordinates. *)
Definition ensure_missing (geocode_limit : option nat) (r : row) (updated : nat)
    (st : run) : row * nat * run :=
  if match geocode_limit with
     | Some limit => limit <=? updated
     | None => false
     end
  then (r, updated, st)
  else
    let address :=
      normalize_address_for_geocoding
        (as_pyval (py_or (address_raw r) (title r))) (city r) in
    if negb (nonempty address) then (r, updated, st)
    else
      let st := emit (EvGeocode address) st in
      match geocode_address address (city r) with
      | None => (r, updated, st)
      | Some (la, lo) =>
          (with_coords la lo (legacy_note (repr_float la) (repr_float lo)) r,
           S updated, emit EvDelay st)
      end.

Fixpoint ensure_loop (geocode_limit : option nat) (rows : list row)
    (updated : nat) (st : run) : list row * nat * run :=
  match rows with
  | [] => ([], updated, st)
  | r :: rest =>
      let '(r', updated, st) :=
        if notna (lat r) && notna (lng r)
        then (ensure_note r, updated, st)
        else ensure_missing geocode_limit r updated st in
      let '(rest', updated, st) := ensure_loop geocode_limit rest updated st in
      (r' :: rest', updated, st)
  end.

(** [_ensure_coords_and_notes(df, geocode_limit)]: the frame afterwards and
    the returned count. *)
Definition _ensure_coords_and_notes (df : list row) (geocode_limit : option nat)
    (st : run) : list row * nat * run :=
  ensure_loop geocode_limit df 0 st.

End Builtins.

End Main.

(* ===================================================================== *)
(** * src/wb_check_coordinates.py and src/src/utils.py: zone classifier   *)
(* ===================================================================== *)

Module Wb.

(** [settings.py]. *)
Definition AREA : Z := 40.
Definition COLUMN_COORDINATES : nat := 23.
Definition COLUMN_COLOR : nat := 26.

(** The classification texts. *)
Definition PURPLE : list N := u8 "фиолетовая".
Definition PINK : list N := u8 "розовая".
Definition RED : list N := u8 "красная".
Definition GREEN : list N := u8 "зеленая".
Definition OCCUPIED : list N := u8 "с действующим или открывающимся ПВЗ".
Definition NA : list N := u8 "N/A".
Definition ERROR : list N := u8 "ERROR".

Inductive pattern_fill := PURPLE_FILL | PINK_FILL.

(** A cell of the worksheet: its text ([None] when empty) and the fill the
    classifier gave it, if any. *)
Record cell := { value : option (list N); fill : option pattern_fill }.

Definition empty_cell : cell := {| value := None; fill := None |}.

(** The worksheet is openpyxl's dictionary of cells, keyed by (row, column).
    Reading a cell that is absent gives an empty cell. *)
Definition ws_cell (ws : gmap (nat * nat) cell) (r c : nat) : cell :=
  default empty_cell (ws !! (r, c)).

Definition max_row (ws : gmap (nat * nat) cell) : nat :=
  map_fold (fun k _ acc => Nat.max (fst k) acc) 1 ws.

Definition max_column (ws : gmap (nat * nat) cell) : nat :=
  map_fold (fun k _ acc => Nat.max (snd k) acc) 1 ws.

Definition set_fill (f : pattern_fill) (r c : nat) (ws : gmap (nat * nat) cell)
  : gmap (nat * nat) cell :=
  <[(r, c) := {| value := value (ws_cell ws r c); fill := Some f |}]> ws.

Definition set_value (v : list N) (r c : nat) (ws : gmap (nat * nat) cell)
  : gmap (nat * nat) cell :=
  <[(r, c) := {| value := Some v; fill := fill (ws_cell ws r c) |}]> ws.

(** What the classifier does to the outside world. *)
Inductive wb_event :=
| WbGet (url : list N)                    (* [requests.get(url, ...)] *)
| WbSleep5                                (* [time.sleep(5)] between tries *)
| WbPause                                 (* [time.sleep(random.uniform(...))] *)
| WbSave.                                 (* [wb.save(FN_XLSX)] *)

Record state := {
  ws : gmap (nat * nat) cell;
  requests_sent : nat;
  events : list wb_event;
  is_need_to_pause : bool
}.

Definition log_event (e : wb_event) (st : state) : state :=
  {| ws := ws st; requests_sent := requests_sent st;
     events := events st ++ [e]; is_need_to_pause := is_need_to_pause st |}.

Definition with_ws (w : gmap (nat * nat) cell) (st : state) : state :=
  {| ws := w; requests_sent := requests_sent st;
     events := events st; is_need_to_pause := is_need_to_pause st |}.

Section Service.

(** The zone-lookup service: the outcome of
    [requests.get(url, ...).json()] for the n-th request of the run
    ([Raise] for a failed request or a body that is not JSON). *)
Variable service : nat -> list N -> exc json.

(** [set_status_to_table(wb, ws, row_num, color)] (lines 21-43). *)
Definition set_status_to_table (row_num : nat) (color : list N) (st : state)
  : state :=
  let selected_fill :=
    if str_eqb color PURPLE then Some PURPLE_FILL
    else if str_eqb color PINK then Some PINK_FILL
    else None in
  let max_column := max_column (ws st) in
  let w :=
    match selected_fill with
    | Some f =>
        fold_left (fun w col => set_fill f row_num col w) (seq 1 max_column)
                  (ws st)
    | None => ws st
    end in
  let w := set_value color row_num COLUMN_COLOR w in
  log_event WbSave (with_ws w st).

(** ['По Вашему запросу ничего не найдено' in response]. *)
Definition NOT_FOUND : list N := u8 "По Вашему запросу ничего не найдено".

Definition not_found_in (response : json) : exc bool :=
  match response with
  | JDict d => Ok (bool_decide (is_Some (d !! NOT_FOUND)))
  | JList l => Ok (existsb (fun x => json_is_str x NOT_FOUND) l)
  | JStr s => Ok (contains NOT_FOUND s)
  | _ => Raise TypeError
  end.

(** [fetch_page(url)] of [utils.py]: [tries] is [range(1, 6)]. *)
Fixpoint fetch_tries (url : list N) (tries : list nat) (st : state)
  : state * option json :=
  match tries with
  | [] => (st, None)
  | try_get :: rest =>
      let st := if 1 <? try_get then log_event WbSleep5 st else st in
      let answer := service (requests_sent st) url in
      let st :=
        {| ws := ws st; requests_sent := S (requests_sent st);
           events := events st ++ [WbGet url];
           is_need_to_pause := is_need_to_pause st |} in
      match (response ← answer; nf ← not_found_in response; Ok (response, nf)) with
      | Ok (_, true) => (st, None)
      | Ok (response, false) => (st, Some response)
      | Raise _ => fetch_tries url rest st
      end
  end.

Definition fetch_page (url : list N) (st : state) : state * option json :=
  fetch_tries url (seq 1 5) st.

(** Lines 48-49: the two numbers of the note. *)
Definition parse_lat (coordinates : list N) : list N :=
  first_piece (split [ch ","] (last_piece (split (u8 "lat = ") coordinates))).

Definition parse_lng (coordinates : list N) : list N :=
  last_piece (split (u8 "lng = ") coordinates).

(** Line 59. *)
Definition check_point_url (lat lng : list N) : list N :=
  u8 "https://pvz-map-backend.wildberries.ru/api/v1/map/check-point?point.longitude="
  ++ lng ++ u8 "&point.latitude=" ++ lat ++ u8 "&area=" ++ str_of_Z AREA.

(** The body of the [try] of [check_coordinates] (lines 64-87): [Some c]
    when it returns [c], [None] when it runs to its end. *)
Definition classify_try (response : json) : exc (option (list N)) :=
  description ← json_get response (u8 "description");
  if json_is_str description (u8 "Точка попадает в красную зону")
  then Ok (Some RED)
  else if json_is_str description
            (u8 "Точка попадает в здание с действующим или открывающимся ПВЗ")
  then Ok (Some OCCUPIED)
  else
    point_info ← json_get_or_empty response (u8 "point_info");
    zone_info ← json_get_or_empty point_info (u8 "zone_info");
    general_info ← json_get_or_empty point_info (u8 "general_info");
    priority_zone_info ← json_get_or_empty general_info (u8 "priority_zone_info");
    by_priority ←
      (if json_truthy priority_zone_info then
         text_code ← json_get priority_zone_info (u8 "text_code");
         if json_is_str text_code (u8 "new_build_zones") then Ok (Some PINK)
         else if json_is_str text_code (u8 "load_predict") then Ok (Some PURPLE)
         else Ok None
       else Ok None);
    match by_priority with
    | Some c => Ok (Some c)
    | None =>
        zone_text_code ← json_get zone_info (u8 "text_code");
        if json_is_str zone_text_code (u8 "green_zone") then Ok (Some GREEN)
        else Ok None
    end.

(** Lines 61-90, after the request. *)
Definition classify (response : option json) : list N :=
  match response with
  | None => ERROR
  | Some r =>
      if negb (json_truthy r) then ERROR
      else
        match classify_try r with
        | Ok (Some c) => c
        | Ok None => NA
        | Raise _ => NA
        end
  end.

(** [check_coordinates(coordinates)] (lines 46-90). *)
Definition check_coordinates (coordinates : list N) (st : state)
  : state * list N :=
  let lat := parse_lat coordinates in
  let lng := parse_lng coordinates in
  let '(st, response) := fetch_page (check_point_url lat lng) st in
  (st, classify response).

(** Lines 119-123. *)
Definition color_to_write (color : list N) : list N :=
  if negb (nonempty color)
     || existsb (str_eqb color) [ERROR; u8 "NO_POINT_INFO"]
  then NA else color.

(** The body of the loop of [main] (lines 104-124). *)
Definition main_row (row_num : nat) (st : state) : state :=
  let st := if is_need_to_pause st then log_event WbPause st else st in
  match value (ws_cell (ws st) row_num COLUMN_COORDINATES) with
  | None => st
  | Some coordinates =>
      if negb (nonempty coordinates) then st
      else
        let prev_color := value (ws_cell (ws st) row_num 2) in
        if match prev_color with
           | Some c => nonempty c && existsb (str_eqb c) [PURPLE; PINK]
           | None => false
           end
        then st
        else
          let st :=
            {| ws := ws st; requests_sent := requests_sent st;
               events := events st; is_need_to_pause := true |} in
          let '(st, color) := check_coordinates coordinates st in
          set_status_to_table row_num (color_to_write color) st
  end.

(** [main()] (lines 93-124) on the workbook that [read_xlsx] returned. *)
Definition main_rows (rows : list nat) (st : state) : state :=
  fold_left (fun st row_num => main_row row_num st) rows st.

Definition main (w : gmap (nat * nat) cell) : state :=
  let st := {| ws := w; requests_sent := 0; events := [];
               is_need_to_pause := false |} in
  let row_count := max_row w in
  main_rows (seq 2 (row_count - 1)) st.

End Service.

End Wb.

(* ===================================================================== *)
(** * src/src/utils.py: durations                                         *)
(* ===================================================================== *)

Module Utils.

(** What [seconds_to_hms] is given: an [int] or a [float]. *)
Inductive number :=
| NumInt (z : Z)
| NumFloat (f : float).

(** [int(f)]: the integer part, rounded towards zero. *)
Definition py_int (f : float) : exc Z :=
  match Prim2SF f with
  | S754_zero _ => Ok 0%Z
  | S754_infinity _ => Raise OverflowError
  | S754_nan => Raise ValueError
  | S754_finite s m e =>
      let a := if (0 <=? e)%Z then (Z.pos m * 2 ^ e)%Z
               else (Z.pos m / 2 ^ (- e))%Z in
      Ok (if s then (- a)%Z else a)
  end.

(** [int(seconds)]. *)
Definition to_int (seconds : number) : exc Z :=
  match seconds with
  | NumInt z => Ok z
  | NumFloat f => py_int f
  end.

(** Zero padding to width 2, as the format [02] does it for a rendering
    without sign. *)
Definition zfill2 (s : list N) : list N :=
  if (length s <? 2)%nat then ch "0" :: s else s.

(** [f"{n:02}"] for an integer. *)
Definition pad2 (n : Z) : list N := zfill2 (str_of_Z n).

Section Builtins.

(** [repr] of a float, which the empty presentation type of [format]
    follows. *)
Variable repr_float : float -> list N.

(** [f"{seconds:02}"]. *)
Definition format02 (seconds : number) : list N :=
  match seconds with
  | NumInt z => pad2 z
  | NumFloat f => zfill2 (repr_float f)
  end.

(** [seconds < 60]. *)
Definition below_minute (seconds : number) : bool :=
  match seconds with
  | NumInt z => (z <? 60)%Z
  | NumFloat f => (f <? 60)%float
  end.

(** [seconds_to_hms(seconds)] (lines 25-38). *)
Definition seconds_to_hms (seconds : number) : exc (list N) :=
  if below_minute seconds then Ok (format02 seconds ++ u8 "sec")
  else
    seconds ← to_int seconds;
    let hours := (seconds / 3600)%Z in
    let remainder := (seconds mod 3600)%Z in
    let minutes := (remainder / 60)%Z in
    let secs := (remainder mod 60)%Z in
    if (0 <? hours)%Z then
      Ok (str_of_Z hours ++ u8 "h:" ++ pad2 minutes ++ u8 "m:"
          ++ pad2 secs ++ u8 "sec")
    else
      Ok (str_of_Z minutes ++ u8 "m:" ++ pad2 secs ++ u8 "sec").

End Builtins.

End Utils.

(* ===================================================================== *)
(** * src/src/main.py: the geocoder and its cache (lines 65-99)           *)
(* ===================================================================== *)

Module Geocoder.

(** [settings.CITY_VIEWBOX]: left, top, right, bottom.  The decimal
    literals denote the nearest binary64 values, as in Python. *)
#[local] Set Warnings "-inexact-float".
Definition CITY_VIEWBOX : list (list N * (float * float * float * float)) :=
  [(u8 "Москва", (37.3193, 56.0610, 37.9678, 55.4899));
   (u8 "Moscow", (37.3193, 56.0610, 37.9678, 55.4899));
   (u8 "НАО", (37.05, 55.75, 37.70, 55.30));
   (u8 "НАО (Новомосковский)", (37.05, 55.75, 37.70, 55.30));
   (u8 "ТАО", (36.70, 55.70, 37.60, 55.10));
   (u8 "ТАО (Троицкий)", (36.70, 55.70, 37.60, 55.10))]%float.

(** [CITY_VIEWBOX.get(name)]. *)
Definition viewbox_get (name : list N)
  : option (float * float * float * float) :=
  snd <$> List.find (fun kv => str_eqb (fst kv) name) CITY_VIEWBOX.

(** The key of the cache is the JSON text of the query, the city and the
    viewbox; the text determines the three, which stand for it here. *)
Definition cache_key : Type := list N * option (list N) * option (list N).

(** What the geocoder does to the outside world. *)
Inductive geo_event :=
| GeoGet (q : list N) (viewbox : option (list N))
| GeoBackoff (base : nat).              (* [time.sleep(base + random.random())] *)

Record geo := {
  cache : gmap cache_key (float * float);   (* [_geocode_cache] *)
  asked : nat;                              (* requests sent so far *)
  trace : list geo_event
}.

(** [data[0]] and [x[key]] on a decoded JSON value. *)
Definition json_first (data : json) : exc json :=
  match data with
  | JList (x :: _) => Ok x
  | JList [] => Raise KeyError
  | JStr (c :: _) => Ok (JStr [c])
  | JStr [] => Raise KeyError
  | JDict _ => Raise KeyError
  | _ => Raise TypeError
  end.

Definition json_item (v : json) (key : list N) : exc json :=
  match v with
  | JDict d =>
      match d !! key with
      | Some x => Ok x
      | None => Raise KeyError
      end
  | _ => Raise TypeError
  end.

Section Service.

(** [repr] of a float and [str.capitalize], built-ins; and the geocoding
    service: the outcome of [requests.get], [raise_for_status] and [json()]
    for the n-th request of the run. *)
Variable repr_float : float -> list N.
Variable capitalize : list N -> list N.
Variable nominatim : nat -> list N -> option (list N) -> exc json.

(** [params.get("viewbox")] (lines 72-79). *)
Definition viewbox_of (city : option (list N)) : option (list N) :=
  match city with
  | Some c =>
      if nonempty c then
        let vb :=
          match viewbox_get c with
          | Some vb => Some vb
          | None => viewbox_get (capitalize c)
          end in
        match vb with
        | Some (vleft, vtop, vright, vbottom) =>
            Some (repr_float vleft ++ u8 "," ++ repr_float vtop ++ u8 ","
                  ++ repr_float vright ++ u8 "," ++ repr_float vbottom)
        | None => None
        end
      else None
  | None => None
  end.

(** The body of the [try] after the request (lines 89-93): [None] when the
    answer is empty. *)
Definition read_answer (data : json) : exc (option (float * float)) :=
  if json_truthy data then
    first ← json_first data;
    la ← json_item first (u8 "lat");
    la ← py_float la;
    lo ← json_item first (u8 "lon");
    lo ← py_float lo;
    Ok (Some (la, lo))
  else Ok None.

(** [min(2 ** attempt, 6)]. *)
Definition backoff_base (attempt : nat) : nat := Nat.min (2 ^ attempt) 6.

(** Lines 85-97: [attempts] is [range(1, 4)]. *)
Fixpoint geocode_tries (q : list N) (vb : option (list N)) (key : cache_key)
    (attempts : list nat) (st : geo) : geo * option (float * float) :=
  match attempts with
  | [] => (st, None)
  | attempt :: rest =>
      let answer := nominatim (asked st) q vb in
      let st := {| cache := cache st; asked := S (asked st);
                   trace := trace st ++ [GeoGet q vb] |} in
      match data ← answer; read_answer data with
      | Ok (Some result) =>
          ({| cache := <[key := result]> (cache st); asked := asked st;
              trace := trace st |}, Some result)
      | Ok None => (st, None)
      | Raise _ =>
          geocode_tries q vb key rest
            {| cache := cache st; asked := asked st;
               trace := trace st ++ [GeoBackoff (backoff_base attempt)] |}
      end
  end.

(** [geocode_address(address, city)] (lines 68-99). *)
Definition geocode_address (address : list N) (city : option (list N))
    (st : geo) : geo * option (float * float) :=
  let vb := viewbox_of city in
  let key : cache_key := (address, city, vb) in
  match cache st !! key with
  | Some result => (st, Some result)
  | None => geocode_tries address vb key (seq 1 3) st
  end.

End Service.

End Geocoder.

(* ===================================================================== *)
(** * src/src/main.py: saving the table (lines 536-586)                   *)
(* ===================================================================== *)

Module Store.
Import Main.

Section Builtins.

Variable repr_float : float -> list N.
Variable geocode_address : list N -> option (list N) -> option (float * float).

Definition with_address_formatted (a : list N) (r : row) : row :=
  {| source := source r; external_id := external_id r; url := url r;
     title := title r; address_raw := address_raw r;
     address_formatted := Some a; city := city r;
     lat := lat r; lng := lng r; area_m2 := area_m2 r;
     price_total := price_total r; price_per_m2 := price_per_m2 r;
     last_seen_at := last_seen_at r; status := status r; notes := notes r |}.

(** Lines 568-572: the column [address_formatted] computed anew. *)
Definition format_addresses (df : list row) : list row :=
  map (fun r =>
         with_address_formatted
           (normalize_address_for_geocoding repr_float
              (as_pyval (py_or (address_raw r) (title r))) (city r)) r) df.

(** [save_and_check(records, geocode_limit=...)] up to [df.to_excel]: the
    frame that is written, and the run afterwards.  The zone classifier is
    then started on the file. *)
Definition save_and_check (records : list row) (geocode_limit : option nat)
    (st : run) : list row * run :=
  let df :=
    match records with
    | [] => []
    | _ => deduplicate records
    end in
  let '(df, geocoded, st) :=
    _ensure_coords_and_notes repr_float geocode_address df geocode_limit st in
  (format_addresses df, st).

End Builtins.

End Store.

(* ===================================================================== *)
(** * Properties                                                          *)
(* ===================================================================== *)

(** ** Address normalizer *)

Section AddressProps.
Import Main.

Variable repr_float : float -> list N.

(** On a string the normalizer is the text normalizer, whatever renders
    floats. *)
Lemma normalize_address_str (address : list N) (city : option (list N)) :
  normalize_address_for_geocoding repr_float (PStr address) city
  = normalize_address_text address city.
Proof. reflexivity. Qed.

(** C4 (as amended): when the district filter removes every segment of the
    cleaned address, the normalizer returns the city alone if a non-empty
    city is given, and otherwise the cleaned address (marker, surrounding
    spaces and commas, and parenthesized parts removed). *)
Theorem normalize_address_all_filtered
    (address : list N) (city : option (list N)) :
  drop_district_parts (address_parts (clean_address address)) = [] ->
  normalize_address_for_geocoding repr_float (PStr address) city
  = if opt_truthy city then default [] city else clean_address address.
Proof.
  intros Hnone.
  rewrite normalize_address_str.
  unfold normalize_address_text.
  rewrite Hnone.
  destruct city as [c|]; simpl.
  - destruct (nonempty c) eqn:Hc; simpl.
    + reflexivity.
    + reflexivity.
  - reflexivity.
Qed.

End AddressProps.

(** C4, witness: the address ["ЦАО"] with the city ["Москва"]. *)
Lemma normalize_address_all_filtered_witness :
  Main.drop_district_parts
    (Main.address_parts (Main.clean_address (u8 "ЦАО"))) = []
  /\ Main.normalize_address_for_geocoding (fun _ => [])
       (PStr (u8 "ЦАО")) (Some (u8 "Москва")) = u8 "Москва".
Proof.
  split.
  - vm_compute. reflexivity.
  - rewrite (normalize_address_all_filtered (fun _ => []) (u8 "ЦАО")
               (Some (u8 "Москва"))).
    + vm_compute. reflexivity.
    + vm_compute. reflexivity.
Defined.

(** C4, counterexample to the claim as stated: every segment of ["ЦАО"] is
    filtered away and a city is supplied, yet the result is not
    ["Москва, ЦАО"]; and without a city the result for ["ЦАО (центр)"] is not
    the original address. *)
Lemma normalize_address_fallback_counterexample :
  Main.drop_district_parts
    (Main.address_parts (Main.clean_address (u8 "ЦАО"))) = []
  /\ Main.normalize_address_text (u8 "ЦАО") (Some (u8 "Москва"))
     <> u8 "Москва" ++ u8 ", " ++ u8 "ЦАО"
  /\ Main.drop_district_parts
       (Main.address_parts (Main.clean_address (u8 "ЦАО (центр)"))) = []
  /\ Main.normalize_address_text (u8 "ЦАО (центр)") None <> u8 "ЦАО (центр)".
Proof.
  repeat split; try (vm_compute; reflexivity);
    vm_compute; intros H; discriminate H.
Qed.

(** ** Address normalizer on inputs that are not strings *)

Section NonStringProps.
Import Main.

Variable repr_float : float -> list N.
Variable geocode_address : list N -> option (list N) -> option (float * float).

(** A row without coordinates always extends the log. *)
Lemma ensure_missing_log (limit : option nat) (r : row) (updated : nat)
    (st : run) :
  exists tail,
    log (snd (ensure_missing repr_float geocode_address limit r updated st))
    = log st ++ tail.
Proof.
  unfold ensure_missing.
  destruct (match limit with Some l => l <=? updated | None => false end).
  - exists []. simpl. now rewrite app_nil_r.
  - destruct (negb (nonempty _)).
    + exists []. simpl. now rewrite app_nil_r.
    + destruct (geocode_address _ _) as [[la lo]|]; simpl.
      * eexists. rewrite <- app_assoc. reflexivity.
      * eexists. reflexivity.
Qed.

Lemma ensure_loop_log (limit : option nat) (rows : list row) :
  forall (updated : nat) (st : run),
  exists tail,
    log (snd (ensure_loop repr_float geocode_address limit rows updated st))
    = log st ++ tail.
Proof.
  induction rows as [|r rest IH]; intros updated st; simpl.
  - exists []. now rewrite app_nil_r.
  - destruct (notna (lat r) && notna (lng r)).
    + destruct (IH updated st) as [tail Htail].
      destruct (ensure_loop _ _ _ rest updated st) as [[rest' n] st'].
      exists tail. exact Htail.
    + destruct (ensure_missing_log limit r updated st) as [t1 Ht1].
      destruct (ensure_missing _ _ limit r updated st) as [[r' n] st1].
      simpl in Ht1.
      destruct (IH n st1) as [t2 Ht2].
      destruct (ensure_loop _ _ _ rest n st1) as [[rest' n'] st2].
      simpl in Ht2 |- *.
      exists (t1 ++ t2). rewrite Ht2, Ht1. now rewrite app_assoc.
Qed.

(** C10: on an input that is not a string the address normalizer returns
    [str(input)] (the text "None" for a missing address); hence a row with
    neither [address_raw] nor [title], no coordinates and budget left is not
    skipped by [_ensure_coords_and_notes]: the geocoder is asked for the
    non-empty query "None". *)
Theorem normalize_address_non_string
    (v : pyval) (city_name : option (list N))
    (limit : option nat) (r : row) (rest : list row) (updated : nat)
    (st : run) :
  (forall s, v <> PStr s) ->
  address_raw r = None ->
  title r = None ->
  notna (lat r) && notna (lng r) = false ->
  match limit with Some l => updated < l | None => True end ->
  normalize_address_for_geocoding repr_float v city_name = py_str repr_float v
  /\ normalize_address_for_geocoding repr_float PNone city_name = u8 "None"
  /\ nonempty (normalize_address_for_geocoding repr_float PNone city_name) = true
  /\ In (EvGeocode (u8 "None"))
        (log (snd (ensure_loop repr_float geocode_address limit (r :: rest)
                               updated st))).
Proof.
  intros Hv Haddr Htitle Hcoords Hbudget.
  split; [|split; [|split]].
  - destruct v; try reflexivity. exfalso. apply (Hv s). reflexivity.
  - reflexivity.
  - reflexivity.
  - simpl. rewrite Hcoords.
    assert (Hrow : exists r' n t,
               ensure_missing repr_float geocode_address limit r updated st
               = (r', n, {| sent := sent st;
                            log := log st ++ EvGeocode (u8 "None") :: t |})).
    { unfold ensure_missing.
      assert (Hlim : match limit with
                     | Some l => l <=? updated
                     | None => false
                     end = false).
      { destruct limit as [l|]; [apply Nat.leb_gt; exact Hbudget|reflexivity]. }
      rewrite Hlim, Haddr, Htitle. simpl.
      destruct (geocode_address _ _) as [[la lo]|].
      - eexists _, _, [EvDelay]. unfold emit. simpl.
        rewrite <- app_assoc. reflexivity.
      - eexists _, _, []. reflexivity. }
    destruct Hrow as (r' & n & t & Hrow). rewrite Hrow.
    destruct (ensure_loop_log limit rest n
                {| sent := sent st;
                   log := log st ++ EvGeocode (u8 "None") :: t |})
      as [tail Htail].
    destruct (ensure_loop _ _ _ rest n _) as [[rest' n'] st2].
    simpl in Htail |- *. rewrite Htail.
    apply in_or_app. left. apply in_or_app. right. left. reflexivity.
Qed.

End NonStringProps.

(** A row that only carries a source and a link. *)
Definition bare_row : Main.row :=
  {| Main.source := Some (u8 "cian"); Main.external_id := None;
     Main.url := u8 "https://cian.ru/rent/1"; Main.title := None;
     Main.address_raw := None; Main.address_formatted := None;
     Main.city := Some (u8 "Москва"); Main.lat := None; Main.lng := None;
     Main.area_m2 := Some 50%float; Main.price_total := None;
     Main.price_per_m2 := None; Main.last_seen_at := None;
     Main.status := None; Main.notes := None |}.

(** C10, witness: a missing address in a one-row table with a budget of
    one. *)
Lemma normalize_address_non_string_witness :
  Main.normalize_address_for_geocoding (fun _ => []) PNone None = u8 "None"
  /\ In (Main.EvGeocode (u8 "None"))
        (Main.log (snd (Main.ensure_loop (fun _ => []) (fun _ _ => None)
                          (Some 1) [bare_row] 0
                          {| Main.sent := 0; Main.log := [] |}))).
Proof.
  pose proof (normalize_address_non_string (fun _ => []) (fun _ _ => None)
                PNone None (Some 1) bare_row [] 0
                {| Main.sent := 0; Main.log := [] |}) as H.
  destruct H as (_ & H2 & _ & H4).
  - intros s Hs. discriminate Hs.
  - reflexivity.
  - reflexivity.
  - reflexivity.
  - simpl. lia.
  - split; [exact H2 | exact H4].
Defined.

(** ** Price per square metre *)

Section PriceProps.
Import Main.

Variable repr_float : float -> list N.
Variable geocode_address : list N -> option (list N) -> option (float * float).
Variable now_iso : nat -> list N.

(** The guard keeps the division away from a zero divisor. *)
Lemma compute_price_per_m2_total (p a : option float) :
  exists v, compute_price_per_m2 p a = Ok v.
Proof.
  destruct p as [x|], a as [y|]; simpl; eauto.
  destruct (float_truthy x); simpl; eauto.
  unfold py_truediv.
  destruct (float_truthy y); simpl; eauto.
Qed.

Lemma compute_price_per_m2_value (x y : float) :
  float_truthy x = true ->
  float_truthy y = true ->
  compute_price_per_m2 (Some x) (Some y) = Ok (Some (py_round2 (x / y))).
Proof.
  intros Hx Hy. unfold compute_price_per_m2, py_truediv.
  rewrite Hx, Hy. reflexivity.
Qed.

Lemma compute_price_per_m2_none (p a : option float) :
  compute_price_per_m2 p a = Ok None
  <-> optf_truthy p = false \/ optf_truthy a = false.
Proof.
  destruct p as [x|], a as [y|]; simpl; try (split; auto; fail).
  unfold py_truediv.
  destruct (float_truthy x), (float_truthy y); simpl; split;
    intros H; try discriminate H; auto; destruct H as [H|H]; discriminate H.
Qed.

(** The record of [assemble_row] carries the extracted price and area and the
    price per square metre computed from them. *)
Lemma assemble_row_fields (src city_name link : list N) (dom : item_dom)
    (la lo : option float) (st st' : run) (r : row) :
  assemble_row repr_float geocode_address now_iso src city_name link dom la lo st
    = (st', Ok (Some r)) ->
  price_total r = dom_price_total dom
  /\ area_m2 r = dom_area_m2 dom
  /\ compute_price_per_m2 (dom_price_total dom) (dom_area_m2 dom)
     = Ok (price_per_m2 r).
Proof.
  unfold assemble_row. intros H.
  destruct (area_in_bounds (dom_area_m2 dom)); [|discriminate H].
  destruct (geocode_last_resort _ _ _ _ _ _) as [st1 [la1 lo1]].
  destruct (compute_price_per_m2 _ _) as [ppm|e]; [|discriminate H].
  injection H as _ Hr. subst r. simpl. auto.
Qed.

(** C5 (as amended): in every record assembled by either scraper,
    [price_per_m2] is [round(price_total / area_m2, 2)] when both operands
    are present and non-zero, and it is null exactly when one operand is null
    or zero: a price of 0 gives null, not 0.0. The computation never
    raises. *)
Theorem price_per_m2_assembled (src city_name link : list N) (dom : item_dom)
    (la lo : option float) (st st' : run) (r : row) :
  assemble_row repr_float geocode_address now_iso src city_name link dom la lo st
    = (st', Ok (Some r)) ->
  (price_per_m2 r = None
   <-> optf_truthy (price_total r) = false \/ optf_truthy (area_m2 r) = false)
  /\ (forall x y, price_total r = Some x -> area_m2 r = Some y ->
        float_truthy x = true -> float_truthy y = true ->
        price_per_m2 r = Some (py_round2 (x / y)))
  /\ (forall p a, exists v, compute_price_per_m2 p a = Ok v).
Proof.
  intros Hrow.
  destruct (assemble_row_fields _ _ _ _ _ _ _ _ _ Hrow) as (Hp & Ha & Hc).
  rewrite Hp, Ha.
  split; [|split].
  - rewrite <- compute_price_per_m2_none, Hc.
    split; intros H; [rewrite H; reflexivity | injection H; auto].
  - intros x y Hx Hy Htx Hty.
    rewrite Hx, Hy, (compute_price_per_m2_value x y Htx Hty) in Hc.
    injection Hc as Hc. symmetry. exact Hc.
  - apply compute_price_per_m2_total.
Qed.

End PriceProps.

(** A detail page with an area of 50 and a price of 0. *)
Definition free_offer_dom : Main.item_dom :=
  {| Main.dom_jsonld := []; Main.dom_map_ll := None;
     Main.dom_title := None; Main.dom_address := None;
     Main.dom_area_m2 := Some 50%float;
     Main.dom_price_total := Some 0%float |}.

Definition free_offer_row : Main.run * exc (option Main.row) :=
  Main.assemble_row (fun _ => []) (fun _ _ => None) (fun _ => [])
    (u8 "cian") (u8 "Москва") (u8 "https://www.cian.ru/rent/1") free_offer_dom
    None None {| Main.sent := 0; Main.log := [] |}.

(** The record expected for [free_offer_dom]. *)
Definition free_offer_record : Main.row :=
  {| Main.source := Some (u8 "cian");
     Main.external_id := Some (u8 "1");
     Main.url := u8 "https://cian.ru/rent/1";
     Main.title := None;
     Main.address_raw := None;
     Main.address_formatted := Some (u8 "None");
     Main.city := Some (u8 "Москва");
     Main.lat := None;
     Main.lng := None;
     Main.area_m2 := Some 50%float;
     Main.price_total := Some 0%float;
     Main.price_per_m2 := None;
     Main.last_seen_at := Some [];
     Main.status := Some (u8 "active");
     Main.notes := None |}.

(** C5, witness: the record of [free_offer_dom]. *)
Lemma price_per_m2_assembled_witness :
  free_offer_row = ({| Main.sent := 0; Main.log := [] |}, Ok (Some free_offer_record))
  /\ (Main.price_per_m2 free_offer_record = None
      <-> Main.optf_truthy (Main.price_total free_offer_record) = false
          \/ Main.optf_truthy (Main.area_m2 free_offer_record) = false).
Proof.
  assert (H : free_offer_row
              = ({| Main.sent := 0; Main.log := [] |}, Ok (Some free_offer_record)))
    by (vm_compute; reflexivity).
  split; [exact H|].
  exact (proj1 (price_per_m2_assembled (fun _ => []) (fun _ _ => None)
                  (fun _ => []) (u8 "cian") (u8 "Москва")
                  (u8 "https://www.cian.ru/rent/1") free_offer_dom None None
                  {| Main.sent := 0; Main.log := [] |}
                  {| Main.sent := 0; Main.log := [] |} free_offer_record H)).
Defined.

(** C5, counterexample to the claim as stated: with a price of 0 and an area
    of 50 the record is assembled and its [price_per_m2] is null, not
    [round(0 / 50, 2) = 0.0]. *)
Lemma price_zero_counterexample :
  Main.compute_price_per_m2 (Some 0%float) (Some 50%float) = Ok None
  /\ Main.area_in_bounds (Some 50%float) = true
  /\ py_round2 (0 / 50)%float = 0%float
  /\ free_offer_row
     = ({| Main.sent := 0; Main.log := [] |}, Ok (Some free_offer_record))
  /\ Main.price_total free_offer_record = Some 0%float
  /\ Main.area_m2 free_offer_record = Some 50%float
  /\ Main.price_per_m2 free_offer_record = None.
Proof.
  repeat split; vm_compute; reflexivity.
Qed.

(** ** Zone classifier *)

Section ClassifierProps.
Import Wb.

Variable service : nat -> list N -> exc json.

(** The text written for a response: [check_coordinates] followed by the
    normalization of lines 119-123. *)
Definition zone_text (response : option json) : list N :=
  color_to_write (classify response).

(** The test of line 112 on the value read at line 111. *)
Definition already_processed (prev_color : option (list N)) : bool :=
  match prev_color with
  | Some c => nonempty c && existsb (str_eqb c) [PURPLE; PINK]
  | None => false
  end.

(** The state in which [check_coordinates] is entered: after the pause, with
    the flag raised. *)
Definition entering (st : state) : state :=
  let st := if is_need_to_pause st then log_event WbPause st else st in
  {| ws := ws st; requests_sent := requests_sent st;
     events := events st; is_need_to_pause := true |}.

Lemma ws_log_event (e : wb_event) (st : state) : ws (log_event e st) = ws st.
Proof. reflexivity. Qed.

Lemma ws_paused (st : state) :
  ws (if is_need_to_pause st then log_event WbPause st else st) = ws st.
Proof. destruct (is_need_to_pause st); reflexivity. Qed.

(** [set_status_to_table] puts the text in the classification column of its
    row. *)
Lemma set_status_writes (row_num : nat) (color : list N) (st : state) :
  value (ws_cell (ws (set_status_to_table row_num color st)) row_num COLUMN_COLOR)
  = Some color.
Proof.
  unfold set_status_to_table. rewrite ws_log_event. simpl.
  unfold set_value, ws_cell at 1.
  rewrite lookup_insert_eq. reflexivity.
Qed.

(** A row with a note whose column 2 holds no terminal zone is looked up and
    written. *)
Lemma main_row_lookup (row_num : nat) (st : state) (coordinates : list N) :
  value (ws_cell (ws st) row_num COLUMN_COORDINATES) = Some coordinates ->
  nonempty coordinates = true ->
  already_processed (value (ws_cell (ws st) row_num 2)) = false ->
  main_row service row_num st
  = let '(st1, response) :=
      fetch_page service
        (check_point_url (parse_lat coordinates) (parse_lng coordinates))
        (entering st) in
    set_status_to_table row_num (zone_text response) st1.
Proof.
  intros Hc Hne Hprev.
  unfold main_row, entering, check_coordinates, zone_text.
  rewrite ws_paused, Hc, Hne. simpl negb. cbv iota.
  unfold already_processed in Hprev. rewrite Hprev.
  destruct (fetch_page _ _ _) as [st1 response]. reflexivity.
Qed.

(** Five failed requests make [fetch_page] give up. *)
Lemma fetch_tries_all_fail (url : list N) (tries : list nat) :
  forall st,
    (forall k, k < length tries ->
               exists e, service (requests_sent st + k) url = Raise e) ->
    snd (fetch_tries service url tries st) = None.
Proof.
  induction tries as [|t rest IH]; intros st Hfail.
  - reflexivity.
  - destruct (Hfail 0) as [e He]; [simpl; lia|].
    rewrite Nat.add_0_r in He.
    cbn [fetch_tries]. cbv zeta.
    set (st0 := if 1 <? t then log_event WbSleep5 st else st).
    assert (Hsent : requests_sent st0 = requests_sent st)
      by (subst st0; destruct (1 <? t); reflexivity).
    clearbody st0.
    rewrite Hsent, He. cbn [mbind exc_bind].
    apply IH. intros k Hk. cbn [requests_sent].
    destruct (Hfail (S k)) as [e' He']; [simpl; lia|].
    exists e'. rewrite <- He'. f_equal. lia.
Qed.

(** The decision table of [check_coordinates] on a response that is a
    dictionary. *)
Definition RED_TEXT : list N := u8 "Точка попадает в красную зону".
Definition OCCUPIED_TEXT : list N :=
  u8 "Точка попадает в здание с действующим или открывающимся ПВЗ".

Lemma color_to_write_zone (c : list N) :
  In c [RED; OCCUPIED; PINK; PURPLE; GREEN; NA] -> color_to_write c = c.
Proof.
  simpl. intros [H|[H|[H|[H|[H|[H|[]]]]]]]; subst c; vm_compute; reflexivity.
Qed.

Lemma classify_range (response : option json) :
  In (classify response) [ERROR; RED; OCCUPIED; PINK; PURPLE; GREEN; NA].
Proof.
  unfold classify.
  destruct response as [r|]; [|simpl; auto].
  destruct (negb (json_truthy r)); [simpl; auto|].
  assert (H : forall o, classify_try r = Ok (Some o) ->
                        In o [RED; OCCUPIED; PINK; PURPLE; GREEN]).
  { unfold classify_try. intros o.
    destruct (json_get r _) as [description|]; simpl; [|discriminate].
    destruct (json_is_str description _);
      [intros [= <-]; simpl; auto|].
    destruct (json_is_str description _);
      [intros [= <-]; simpl; auto|].
    destruct (json_get_or_empty r _) as [point_info|]; simpl; [|discriminate].
    destruct (json_get_or_empty point_info (u8 "zone_info")) as [zone_info|];
      simpl; [|discriminate].
    destruct (json_get_or_empty point_info _) as [general_info|];
      simpl; [|discriminate].
    destruct (json_get_or_empty general_info _) as [pz|]; simpl; [|discriminate].
    assert (Hzone : (zone_text_code ← json_get zone_info (u8 "text_code");
                     if json_is_str zone_text_code (u8 "green_zone")
                     then Ok (Some GREEN) else Ok None) = Ok (Some o) ->
                    In o [RED; OCCUPIED; PINK; PURPLE; GREEN]).
    { destruct (json_get zone_info _) as [z|]; simpl; [|discriminate].
      destruct (json_is_str z _); [intros [= <-]; simpl; auto 10|discriminate]. }
    destruct (json_truthy pz); simpl; [|exact Hzone].
    destruct (json_get pz _) as [tc|]; simpl; [|discriminate].
    destruct (json_is_str tc _); simpl; [intros [= <-]; simpl; auto 10|].
    destruct (json_is_str tc _); simpl; [intros [= <-]; simpl; auto 10|].
    exact Hzone. }
  destruct (classify_try r) as [[o|]|e]; [|simpl; auto 10|simpl; auto 10].
  specialize (H o eq_refl). simpl in H |- *.
  intuition.
Qed.

Lemma zone_text_range (response : option json) :
  In (zone_text response) [RED; OCCUPIED; PINK; PURPLE; GREEN; NA].
Proof.
  unfold zone_text.
  destruct (classify_range response) as [H|H].
  - rewrite <- H. vm_compute. auto 10.
  - rewrite color_to_write_zone; exact H.
Qed.


Lemma str_eqb_refl (s : list N) : str_eqb s s = true.
Proof.
  induction s as [|c s IH]; simpl; [reflexivity|].
  rewrite N.eqb_refl. exact IH.
Qed.

Lemma dict_with_key_truthy (d : gmap (list N) json) (k : list N) (v : json) :
  d !! k = Some v -> json_truthy (JDict d) = true.
Proof.
  intros H. simpl. apply negb_true_iff, bool_decide_eq_false.
  intros ->. rewrite lookup_empty in H. discriminate H.
Qed.

(** The red-zone description decides alone. *)
Lemma classify_red (d : gmap (list N) json) :
  d !! u8 "description" = Some (JStr RED_TEXT) ->
  classify (Some (JDict d)) = RED.
Proof.
  intros H. unfold classify.
  rewrite (dict_with_key_truthy _ _ _ H). simpl negb. cbv iota.
  unfold classify_try. simpl. rewrite H. reflexivity.
Qed.

(** So does the description of a building with a pickup point. *)
Lemma classify_occupied (d : gmap (list N) json) :
  d !! u8 "description" = Some (JStr OCCUPIED_TEXT) ->
  classify (Some (JDict d)) = OCCUPIED.
Proof.
  intros H. unfold classify.
  rewrite (dict_with_key_truthy _ _ _ H). simpl negb. cbv iota.
  unfold classify_try. simpl. rewrite H. reflexivity.
Qed.

(** The description is neither of the two texts. *)
Definition plain_description (d : gmap (list N) json) : Prop :=
  json_is_str (default JNull (d !! u8 "description")) RED_TEXT = false
  /\ json_is_str (default JNull (d !! u8 "description")) OCCUPIED_TEXT = false.

(** The priority-zone code [code] is present in the point information. *)
Definition priority_code (pi : gmap (list N) json) (code : list N) : Prop :=
  exists gi pz,
    pi !! u8 "general_info" = Some (JDict gi)
    /\ gi !! u8 "priority_zone_info" = Some (JDict pz)
    /\ pz !! u8 "text_code" = Some (JStr code).

(** No priority-zone code decides: [general_info] is a dictionary or absent,
    and its [priority_zone_info] is absent, empty, or a dictionary whose
    code is none of the two priority codes. *)
Definition no_priority_code (pi : gmap (list N) json) : Prop :=
  exists gi,
    default (JDict ∅) (pi !! u8 "general_info") = JDict gi
    /\ (json_truthy (default (JDict ∅) (gi !! u8 "priority_zone_info")) = false
        \/ exists pz,
             gi !! u8 "priority_zone_info" = Some (JDict pz)
             /\ json_is_str (default JNull (pz !! u8 "text_code"))
                            (u8 "new_build_zones") = false
             /\ json_is_str (default JNull (pz !! u8 "text_code"))
                            (u8 "load_predict") = false).

(** The general zone code of the point information, when [zone_info] is a
    dictionary or absent. *)
Definition zone_code (pi : gmap (list N) json) (code : json) : Prop :=
  exists zi,
    default (JDict ∅) (pi !! u8 "zone_info") = JDict zi
    /\ default JNull (zi !! u8 "text_code") = code.

Lemma classify_structured (d pi : gmap (list N) json) :
  plain_description d ->
  d !! u8 "point_info" = Some (JDict pi) ->
  classify (Some (JDict d))
  = match
      (zone_info ← json_get_or_empty (JDict pi) (u8 "zone_info");
       general_info ← json_get_or_empty (JDict pi) (u8 "general_info");
       priority_zone_info ←
         json_get_or_empty general_info (u8 "priority_zone_info");
       by_priority ←
         (if json_truthy priority_zone_info then
            text_code ← json_get priority_zone_info (u8 "text_code");
            if json_is_str text_code (u8 "new_build_zones") then Ok (Some PINK)
            else if json_is_str text_code (u8 "load_predict")
                 then Ok (Some PURPLE)
                 else Ok None
          else Ok None);
       match by_priority with
       | Some c => Ok (Some c)
       | None =>
           zone_text_code ← json_get zone_info (u8 "text_code");
           if json_is_str zone_text_code (u8 "green_zone") then Ok (Some GREEN)
           else Ok None
       end)
    with
    | Ok (Some c) => c
    | _ => NA
    end.
Proof.
  intros [Hred Hocc] Hpi. unfold classify.
  rewrite (dict_with_key_truthy _ _ _ Hpi). simpl negb. cbv iota.
  unfold classify_try.
  change (json_get (JDict d) (u8 "description"))
    with (Ok (default JNull (d !! u8 "description"))).
  change (json_get_or_empty (JDict d) (u8 "point_info"))
    with (Ok (default (JDict ∅) (d !! u8 "point_info"))).
  rewrite Hpi.
  unfold RED_TEXT, OCCUPIED_TEXT in Hred, Hocc.
  cbn [mbind exc_bind default from_option id].
  rewrite Hred, Hocc.
  cbn [mbind exc_bind].
  match goal with
  | |- match ?X with _ => _ end = _ => destruct X as [[c|]|e]; reflexivity
  end.
Qed.

(** Reading a key of a dictionary. *)
Ltac read_dict :=
  repeat match goal with
    | |- context [json_get_or_empty (JDict ?d) ?k] =>
        change (json_get_or_empty (JDict d) k)
          with (Ok (default (JDict ∅) (d !! k)))
    | |- context [json_get (JDict ?d) ?k] =>
        change (json_get (JDict d) k) with (Ok (default JNull (d !! k)))
    end;
  cbn [mbind exc_bind].

(** Priority codes come before the general zone code. *)
Lemma classify_pink (d pi : gmap (list N) json) :
  plain_description d ->
  d !! u8 "point_info" = Some (JDict pi) ->
  priority_code pi (u8 "new_build_zones") ->
  classify (Some (JDict d)) = PINK.
Proof.
  intros Hd Hpi (gi & pz & Hgi & Hpz & Hcode).
  rewrite (classify_structured d pi Hd Hpi).
  read_dict. rewrite Hgi. cbn [default from_option id].
  read_dict. rewrite Hpz. cbn [default from_option id].
  rewrite (dict_with_key_truthy _ _ _ Hcode).
  read_dict. rewrite Hcode. reflexivity.
Qed.

Lemma classify_purple (d pi : gmap (list N) json) :
  plain_description d ->
  d !! u8 "point_info" = Some (JDict pi) ->
  priority_code pi (u8 "load_predict") ->
  classify (Some (JDict d)) = PURPLE.
Proof.
  intros Hd Hpi (gi & pz & Hgi & Hpz & Hcode).
  rewrite (classify_structured d pi Hd Hpi).
  read_dict. rewrite Hgi. cbn [default from_option id].
  read_dict. rewrite Hpz. cbn [default from_option id].
  rewrite (dict_with_key_truthy _ _ _ Hcode).
  read_dict. rewrite Hcode. reflexivity.
Qed.

(** Without a deciding priority code the general zone code is read. *)
Lemma classify_by_zone (d pi : gmap (list N) json) (code : json) :
  plain_description d ->
  d !! u8 "point_info" = Some (JDict pi) ->
  no_priority_code pi ->
  zone_code pi code ->
  classify (Some (JDict d))
  = if json_is_str code (u8 "green_zone") then GREEN else NA.
Proof.
  intros Hd Hpi (gi & Hgi & Hprio) (zi & Hzi & Hcode).
  rewrite (classify_structured d pi Hd Hpi).
  read_dict. rewrite Hzi, Hgi.
  read_dict. rewrite Hcode.
  destruct Hprio as [Hfalsy | (pz & Hpz & Hn1 & Hn2)].
  - rewrite Hfalsy. cbn [mbind exc_bind].
    destruct (json_is_str code _); reflexivity.
  - rewrite Hpz. cbn [default from_option id].
    destruct (json_truthy (JDict pz)).
    + read_dict. rewrite Hn1, Hn2. cbn [mbind exc_bind].
      destruct (json_is_str code _); reflexivity.
    + cbn [mbind exc_bind]. destruct (json_is_str code _); reflexivity.
Qed.

(** A response that is no dictionary (a list, a string, a number) cannot be
    read. *)
Lemma classify_unreadable (r : json) :
  (forall d, r <> JDict d) ->
  classify (Some r) = ERROR \/ classify (Some r) = NA.
Proof.
  intros Hr. unfold classify.
  destruct (negb (json_truthy r)); [left; reflexivity|right].
  destruct r; try reflexivity. exfalso. apply (Hr d). reflexivity.
Qed.

End ClassifierProps.

Section ClassifierClaims.
Import Wb.

Variable service : nat -> list N -> exc json.

Lemma requests_sent_entering (st : state) :
  requests_sent (entering st) = requests_sent st.
Proof. unfold entering. destruct (is_need_to_pause st); reflexivity. Qed.

(** A row whose column 2 holds a terminal zone is left alone, whatever its
    classification column holds. *)
Lemma main_row_skip (row_num : nat) (st : state) :
  already_processed (value (ws_cell (ws st) row_num 2)) = true ->
  main_row service row_num st
  = if is_need_to_pause st then log_event WbPause st else st.
Proof.
  intros Hprev. unfold main_row. rewrite ws_paused.
  destruct (value (ws_cell (ws st) row_num COLUMN_COORDINATES)) as [c|];
    [|reflexivity].
  destruct (negb (nonempty c)); [reflexivity|].
  unfold already_processed in Hprev. rewrite Hprev. reflexivity.
Qed.

(** C7: for a row that triggers a lookup the text written in the
    classification column is a function of the response ([zone_text]): red
    and pickup-point descriptions map to their texts; otherwise the
    priority-zone code is read before the general zone code
    ([new_build_zones] pink, [load_predict] purple, else [green_zone]
    green); with no recognized signal, an unreadable response, or five
    failed requests the text is "N/A"; and the loop goes on with the next
    row. *)
Theorem zone_classification_written
    (row_num : nat) (st : state) (coordinates : list N) :
  value (ws_cell (ws st) row_num COLUMN_COORDINATES) = Some coordinates ->
  nonempty coordinates = true ->
  already_processed (value (ws_cell (ws st) row_num 2)) = false ->
  let url := check_point_url (parse_lat coordinates) (parse_lng coordinates) in
  let response := snd (fetch_page service url (entering st)) in
  value (ws_cell (ws (main_row service row_num st)) row_num COLUMN_COLOR)
    = Some (zone_text response)
  /\ In (zone_text response) [RED; OCCUPIED; PINK; PURPLE; GREEN; NA]
  /\ (forall d, response = Some (JDict d) ->
        (d !! u8 "description" = Some (JStr RED_TEXT) ->
         zone_text response = RED)
        /\ (d !! u8 "description" = Some (JStr OCCUPIED_TEXT) ->
            zone_text response = OCCUPIED)
        /\ (forall pi,
              plain_description d ->
              d !! u8 "point_info" = Some (JDict pi) ->
              (priority_code pi (u8 "new_build_zones") ->
               zone_text response = PINK)
              /\ (priority_code pi (u8 "load_predict") ->
                  zone_text response = PURPLE)
              /\ (forall code,
                    no_priority_code pi -> zone_code pi code ->
                    zone_text response
                    = if json_is_str code (u8 "green_zone")
                      then GREEN else NA)))
  /\ (forall r, response = Some r -> (forall d, r <> JDict d) ->
        zone_text response = NA)
  /\ (response = None -> zone_text response = NA)
  /\ ((forall k, k < 5 ->
         exists e, service (requests_sent st + k) url = Raise e) ->
      response = None)
  /\ (forall rest,
        main_rows service (row_num :: rest) st
        = main_rows service rest (main_row service row_num st)).
Proof.
  intros Hc Hne Hprev url response.
  repeat match goal with |- _ /\ _ => split end.
  - rewrite (main_row_lookup service row_num st coordinates Hc Hne Hprev).
    fold url. subst response.
    destruct (fetch_page service url (entering st)) as [st1 resp].
    apply set_status_writes.
  - apply zone_text_range.
  - intros d Hd. rewrite Hd. unfold zone_text.
    split; [|split].
    + intros H. rewrite (classify_red d H). vm_compute. reflexivity.
    + intros H. rewrite (classify_occupied d H). vm_compute. reflexivity.
    + intros pi Hplain Hpi. split; [|split].
      * intros H. rewrite (classify_pink d pi Hplain Hpi H).
        vm_compute. reflexivity.
      * intros H. rewrite (classify_purple d pi Hplain Hpi H).
        vm_compute. reflexivity.
      * intros code Hno Hz.
        rewrite (classify_by_zone d pi code Hplain Hpi Hno Hz).
        destruct (json_is_str code _); vm_compute; reflexivity.
  - intros r Hr Hnd. rewrite Hr. unfold zone_text.
    destruct (classify_unreadable r Hnd) as [H|H]; rewrite H;
      vm_compute; reflexivity.
  - intros H. rewrite H. vm_compute. reflexivity.
  - intros Hfail. subst response. unfold fetch_page.
    apply fetch_tries_all_fail. simpl length. intros k Hk.
    rewrite requests_sent_entering. apply Hfail. exact Hk.
  - intros rest. reflexivity.
Qed.

End ClassifierClaims.

(** A sheet with one data row: an external id in column 2, the note in the
    coordinate column, and a classification [color] left by an earlier
    run. *)
Definition text_cell (s : list N) : Wb.cell :=
  {| Wb.value := Some s; Wb.fill := None |}.

Definition classified_sheet (color : list N) : gmap (nat * nat) Wb.cell :=
  <[(2, Wb.COLUMN_COLOR) := text_cell color]>
  (<[(2, Wb.COLUMN_COORDINATES) := text_cell (u8 "lat = 55.7, lng = 37.6")]>
  (<[(2, 2) := text_cell (u8 "12345")]>
  (<[(1, 1) := text_cell (u8 "source")]> ∅))).

(** A service that answers every request with the green zone. *)
Definition green_response : json :=
  JDict {[ u8 "point_info" :=
             JDict {[ u8 "zone_info" :=
                        JDict {[ u8 "text_code" := JStr (u8 "green_zone") ]} ]} ]}.

Definition green_service (n : nat) (url : list N) : exc json := Ok green_response.

Definition fresh_state (w : gmap (nat * nat) Wb.cell) : Wb.state :=
  {| Wb.ws := w; Wb.requests_sent := 0; Wb.events := [];
     Wb.is_need_to_pause := false |}.

(** C7, witness: the data row of a sheet never classified before, answered
    with the green zone. *)
Lemma zone_classification_written_witness :
  Wb.value (Wb.ws_cell
              (Wb.ws (Wb.main_row green_service 2
                        (fresh_state (classified_sheet (u8 "")))))
              2 Wb.COLUMN_COLOR)
  = Some Wb.GREEN.
Proof.
  destruct (zone_classification_written green_service 2
              (fresh_state (classified_sheet (u8 "")))
              (u8 "lat = 55.7, lng = 37.6")) as (Hw & _).
  - vm_compute. reflexivity.
  - reflexivity.
  - vm_compute. reflexivity.
  - rewrite Hw. vm_compute. reflexivity.
Defined.

(** C1, on the failing input: the data row is already classified purple in
    the classification column, yet the next run asks the service about it
    and overwrites the classification.  The test of line 111 reads column 2,
    which holds the external id. *)
Theorem purple_row_is_requeried :
  let sheet := classified_sheet Wb.PURPLE in
  let st := Wb.main green_service sheet in
  Wb.value (Wb.ws_cell sheet 2 Wb.COLUMN_COLOR) = Some Wb.PURPLE
  /\ Wb.events st
     = [Wb.WbGet (Wb.check_point_url (u8 "55.7") (u8 "37.6")); Wb.WbSave]
  /\ Wb.value (Wb.ws_cell (Wb.ws st) 2 Wb.COLUMN_COLOR) = Some Wb.GREEN.
Proof.
  intros sheet st.
  assert (Hrows : Wb.max_row sheet = 2) by (vm_compute; reflexivity).
  split; [|split].
  - vm_compute. reflexivity.
  - subst st. unfold Wb.main. rewrite Hrows. vm_compute. reflexivity.
  - subst st. unfold Wb.main. rewrite Hrows. vm_compute. reflexivity.
Qed.

(** ** Coordinate resolution on a Cian page *)

Section ResolverProps.
Import Main.

(** When the JSON-LD scan yields both coordinates the page text is not
    consulted. *)
Lemma cian_coords_structured_first
    (scripts : list (exc json)) (text : list N) (la lo : float) :
  scan_jsonld scripts None None = (Some la, Some lo) ->
  cian_coords scripts text = Ok (Some la, Some lo).
Proof.
  intros H. unfold cian_coords. rewrite H. reflexivity.
Qed.

(** A script with a usable [geo] block ends the scan. *)
Lemma scan_jsonld_hit
    (jd : gmap (list N) json) (geo : gmap (list N) json) (vla vlo : json)
    (la lo : float) (rest : list (exc json)) (lat0 lng0 : option float) :
  jd !! u8 "geo" = Some (JDict geo) ->
  geo !! u8 "latitude" = Some vla ->
  geo !! u8 "longitude" = Some vlo ->
  json_truthy vla = true ->
  json_truthy vlo = true ->
  py_float vla = Ok la ->
  py_float vlo = Ok lo ->
  scan_jsonld (Ok (JDict jd) :: rest) lat0 lng0 = (Some la, Some lo).
Proof.
  intros Hgeo Hla Hlo Htla Htlo Hfla Hflo.
  cbn [scan_jsonld]. unfold jsonld_step.
  change (json_get (JDict jd) (u8 "geo"))
    with (Ok (default JNull (jd !! u8 "geo"))).
  rewrite Hgeo. cbn [default from_option id]. cbv zeta.
  rewrite (dict_with_key_truthy geo _ _ Hla).
  rewrite Hla, Hlo. cbn [default from_option id].
  rewrite Htla, Htlo, Hfla, Hflo. reflexivity.
Qed.

(** An exception in the coordinate step discards the page: no record. *)
Lemma cian_item_coords_raise
    (repr_float : float -> list N)
    (cian_dom : list N -> exc item_dom)
    (geocode_address : list N -> option (list N) -> option (float * float))
    (now_iso : nat -> list N)
    (city_name link body : list N) (st : run) (dom : item_dom) (e : exn) :
  cian_dom body = Ok dom ->
  cian_coords (dom_jsonld dom) body = Raise e ->
  cian_item repr_float cian_dom geocode_address now_iso city_name link body st
  = (st, Raise e).
Proof.
  intros Hdom Hc. unfold cian_item. rewrite Hdom, Hc. reflexivity.
Qed.

End ResolverProps.

(** A JSON-LD script with the coordinates 55.75, 37.5. *)
Definition geo_script : exc json :=
  Ok (JDict {[ u8 "geo" :=
                 JDict {[ u8 "latitude" := JFloat 55.75%float;
                          u8 "longitude" := JStr (u8 "37.5") ]} ]}).

(** Page text with an inline pattern whose first number is malformed. *)
Definition malformed_inline : list N :=
  Main.quoted (u8 "latitude") ++ u8 ":55.7.1,"
  ++ Main.quoted (u8 "longitude") ++ u8 ":37.6".

(** C6, on the failing input: with no usable JSON-LD block the inline
    pattern matches the groups "55.7.1" and "37.6", [float("55.7.1")] raises
    and nothing catches it in this step; with the JSON-LD block present the
    same text is never looked at. *)
Theorem inline_pattern_raises :
  Main.search_lat_lng malformed_inline = Some (u8 "55.7.1", u8 "37.6")
  /\ Main.cian_coords [] malformed_inline = Raise ValueError
  /\ Main.cian_coords [Raise ValueError; Ok (JList [])] malformed_inline
     = Raise ValueError
  /\ Main.cian_coords [geo_script] malformed_inline
     = Ok (Some 55.75%float, Some 37.5%float).
Proof.
  repeat split; vm_compute; reflexivity.
Qed.

(** ** Deduplication *)

Section DedupProps.
Import Main.

(** Two rows describe the same listing for the record store when they agree
    on source, external id and url. *)
Definition same_listing (r r' : row) : Prop :=
  source r = source r' /\ external_id r = external_id r' /\ url r = url r'.

#[local] Instance same_listing_dec (r r' : row) : Decision (same_listing r r').
Proof. unfold same_listing. apply _. Defined.

(** The amended claim as a function: walking the rows in input order, a row
    is kept exactly when no earlier row is the same listing. *)
Fixpoint keep_first (earlier rows : list row) : list row :=
  match rows with
  | [] => []
  | r :: rest =>
      (if existsb (fun r' => bool_decide (same_listing r r')) earlier
       then [] else [r])
      ++ keep_first (earlier ++ [r]) rest
  end.

(** Step 1 of the record store: every url normalized. *)
Definition normalized (records : list row) : list row :=
  map (fun r => with_url (normalize_url (url r)) r) records.

Lemma dedup_key_same_listing (r r' : row) :
  dedup_key r = dedup_key r' <-> same_listing r r'.
Proof.
  unfold same_listing. cbv [dedup_key KEYS map row_get].
  replace (str_eqb (u8 "source") (u8 "source")) with true
    by (vm_compute; reflexivity).
  replace (str_eqb (u8 "external_id") (u8 "source")) with false
    by (vm_compute; reflexivity).
  replace (str_eqb (u8 "external_id") (u8 "external_id")) with true
    by (vm_compute; reflexivity).
  replace (str_eqb (u8 "url") (u8 "source")) with false
    by (vm_compute; reflexivity).
  replace (str_eqb (u8 "url") (u8 "external_id")) with false
    by (vm_compute; reflexivity).
  replace (str_eqb (u8 "url") (u8 "url")) with true
    by (vm_compute; reflexivity).
  split.
  - intros H. injection H as H1 H2 H3. auto.
  - intros (H1 & H2 & H3). rewrite H1, H2, H3. reflexivity.
Qed.

Lemma existsb_same_listing (r : row) (earlier : list row) :
  existsb (fun r' => bool_decide (same_listing r r')) earlier = true
  <-> exists r', In r' earlier /\ dedup_key r' = dedup_key r.
Proof.
  rewrite existsb_exists. split; intros (r' & Hin & H); exists r'; split;
    try exact Hin.
  - apply bool_decide_eq_true in H. symmetry.
    apply dedup_key_same_listing. exact H.
  - apply bool_decide_eq_true, dedup_key_same_listing. symmetry. exact H.
Qed.

(** The loop with its set of seen keys computes [keep_first]. *)
Lemma dedup_loop_keep_first (rows : list row) :
  forall (earlier : list row)
         (seen : gset (list (list (list N * option (list N)))))
         (keep_rows : list row),
    (forall k, k ∈ seen <-> exists r', In r' earlier /\ dedup_key r' = k) ->
    dedup_loop rows seen keep_rows = keep_rows ++ keep_first earlier rows.
Proof.
  induction rows as [|r rest IH]; intros earlier seen keep_rows Hseen; simpl.
  - now rewrite app_nil_r.
  - destruct (decide (dedup_key r ∈ seen)) as [Hin|Hnin].
    + assert (He : existsb (fun r' => bool_decide (same_listing r r')) earlier
                   = true).
      { apply existsb_same_listing, Hseen. exact Hin. }
      rewrite He. simpl.
      apply IH. intros k. rewrite Hseen. split.
      * intros (r' & Hr' & Hk). exists r'. split; [|exact Hk].
        apply in_or_app. left. exact Hr'.
      * intros (r' & Hr' & Hk). apply in_app_or in Hr'.
        destruct Hr' as [Hr'|[<-|[]]]; [exists r'; auto|].
        apply Hseen. rewrite <- Hk. exact Hin.
    + assert (He : existsb (fun r' => bool_decide (same_listing r r')) earlier
                   = false).
      { apply not_true_is_false. intros He. apply Hnin, Hseen.
        apply existsb_same_listing. exact He. }
      rewrite He. simpl.
      rewrite (IH (earlier ++ [r]) ({[dedup_key r]} ∪ seen) (keep_rows ++ [r])).
      * now rewrite <- app_assoc.
      * intros k. rewrite elem_of_union, elem_of_singleton, Hseen. split.
        -- intros [->|(r' & Hr' & Hk)].
           ++ exists r. split; [apply in_or_app; right; left|]; reflexivity.
           ++ exists r'. split; [apply in_or_app; left; exact Hr'|exact Hk].
        -- intros (r' & Hr' & Hk). apply in_app_or in Hr'.
           destruct Hr' as [Hr'|[<-|[]]]; [right; exists r'; auto|].
           left. symmetry. exact Hk.
Qed.

(** C2 (as amended): deduplication walks the records in input order, urls
    normalized, and keeps a record exactly when no earlier record agrees with
    it on source, external id and normalized url together.  So two records of
    one source with the same id and different normalized urls both survive,
    a record that repeats source, id (possibly absent) and normalized url of
    the one before it is dropped, and the survivors keep their order. *)
Theorem deduplicate_keeps_first (records : list row) :
  deduplicate records = keep_first [] (normalized records)
  /\ sublist (deduplicate records) (normalized records)
  /\ (forall r1 r2,
        normalize_url (url r1) <> normalize_url (url r2) ->
        deduplicate [r1; r2] = normalized [r1; r2])
  /\ (forall r1 r2,
        source r1 = source r2 -> external_id r1 = external_id r2 ->
        normalize_url (url r1) = normalize_url (url r2) ->
        deduplicate [r1; r2] = normalized [r1]).
Proof.
  assert (Heq : forall rs, deduplicate rs = keep_first [] (normalized rs)).
  { intros rs. unfold deduplicate. fold (normalized rs).
    rewrite (dedup_loop_keep_first (normalized rs) [] ∅ []).
    - reflexivity.
    - intros k. split.
      + intros H. exfalso. exact (not_elem_of_empty k H).
      + intros (r' & [] & _). }
  split; [apply Heq|split; [|split]].
  - rewrite Heq. generalize (@nil row) as earlier.
    induction (normalized records) as [|r rest IH]; intros earlier; simpl.
    + constructor.
    + destruct (existsb _ earlier); simpl.
      * apply sublist_cons. apply IH.
      * apply sublist_skip. apply IH.
  - intros r1 r2 Hne. rewrite Heq. simpl.
    rewrite bool_decide_eq_false_2; [reflexivity|].
    intros (_ & _ & Hu). simpl in Hu. apply Hne. symmetry. exact Hu.
  - intros r1 r2 Hs Hi Hu. rewrite Heq. simpl.
    rewrite bool_decide_eq_true_2; [reflexivity|].
    repeat split; simpl; auto.
Qed.

End DedupProps.

(** Two Cian records with the same digits in their links and different
    paths. *)
Definition offer (link : string) : Main.row :=
  {| Main.source := Some (u8 "cian");
     Main.external_id := Main.digits_or_none (utf8 link);
     Main.url := Main.normalize_url (utf8 link); Main.title := None;
     Main.address_raw := None; Main.address_formatted := None;
     Main.city := Some (u8 "Москва"); Main.lat := None; Main.lng := None;
     Main.area_m2 := Some 50%float; Main.price_total := None;
     Main.price_per_m2 := None; Main.last_seen_at := None;
     Main.status := Some (u8 "active"); Main.notes := None |}.

(** C2, counterexample to the claim as stated: both records have source
    "cian" and external id "123", and both survive. *)
Lemma same_id_both_survive_counterexample :
  let r1 := offer "https://www.cian.ru/rent/commercial/123/" in
  let r2 := offer "https://www.cian.ru/rent/office/123/" in
  Main.source r1 = Main.source r2
  /\ Main.external_id r1 = Some (u8 "123")
  /\ Main.external_id r2 = Some (u8 "123")
  /\ Main.deduplicate [r1; r2] = [r1; r2].
Proof.
  intros r1 r2.
  split; [|split; [|split]]; vm_compute; reflexivity.
Qed.

(** ** Strings: cutting and splitting *)

Section StringProps.

Lemma startswith_app (p s : list N) : startswith p (p ++ s) = true.
Proof.
  induction p as [|x p IH]; simpl; [reflexivity|].
  rewrite N.eqb_refl. exact IH.
Qed.

(** A string that starts with [p] is [p] followed by what [drop] leaves. *)
Lemma startswith_drop (p s : list N) :
  startswith p s = true -> s = p ++ drop (length p) s.
Proof.
  revert s. induction p as [|x p IH]; intros s H; simpl.
  - reflexivity.
  - destruct s as [|y s]; simpl in H; [discriminate H|].
    apply andb_true_iff in H. destruct H as [Hxy Hp].
    apply N.eqb_eq in Hxy. subst y. simpl. f_equal. apply IH. exact Hp.
Qed.

(** A character that does not occur in [p] stops every match of [p]. *)
Lemma startswith_app_stop (c : N) (p A B : list N) :
  has_char c p = false ->
  startswith p (A ++ c :: B) = startswith p A.
Proof.
  revert p. induction A as [|a A IH]; intros p Hc.
  - destruct p as [|x p]; simpl; [reflexivity|].
    simpl in Hc. apply orb_false_iff in Hc. destruct Hc as [Hx _].
    rewrite N.eqb_sym, Hx. reflexivity.
  - destruct p as [|x p]; simpl; [reflexivity|].
    simpl in Hc. apply orb_false_iff in Hc. destruct Hc as [_ Hp].
    rewrite (IH p Hp). reflexivity.
Qed.

Lemma startswith_length (p s : list N) :
  startswith p s = true -> length p <= length s.
Proof.
  revert s. induction p as [|x p IH]; intros s H; simpl; [lia|].
  destruct s as [|y s]; simpl in H; [discriminate H|].
  apply andb_true_iff in H. destruct H as [_ Hp].
  specialize (IH s Hp). simpl. lia.
Qed.

(** [cut] splits the string around the separator. *)
Lemma cut_some (sep s b a : list N) :
  cut sep s = Some (b, a) -> s = b ++ sep ++ a.
Proof.
  revert b a. induction s as [|c s IH]; intros b a H.
  - simpl in H. destruct (startswith sep []) eqn:Hs; [|discriminate H].
    injection H as <- <-. simpl. apply (startswith_drop sep []). exact Hs.
  - simpl in H. destruct (startswith sep (c :: s)) eqn:Hs.
    + injection H as <- <-. simpl. apply (startswith_drop sep (c :: s)).
      exact Hs.
    + destruct (cut sep s) as [[b' a']|] eqn:Hcut; [|discriminate H].
      injection H as <- <-. simpl. f_equal. apply IH. reflexivity.
Qed.

(** No occurrence, no cut. *)
Lemma cut_none (sep s : list N) :
  contains sep s = false -> cut sep s = None.
Proof.
  induction s as [|c s IH]; simpl; intros H.
  - apply orb_false_iff in H. destruct H as [H _]. rewrite H. reflexivity.
  - apply orb_false_iff in H. destruct H as [H1 H2].
    rewrite H1, (IH H2). reflexivity.
Qed.

Lemma cut_none_inv (sep s : list N) :
  cut sep s = None -> contains sep s = false.
Proof.
  induction s as [|c s IH]; simpl; intros H.
  - destruct (startswith sep []); [discriminate H|reflexivity].
  - destruct (startswith sep (c :: s)); [discriminate H|]. simpl.
    destruct (cut sep s) as [[b a]|]; [discriminate H|].
    apply IH. reflexivity.
Qed.

(** Cutting at a single character that the prefix does not contain. *)
Lemma cut_char (c : N) (A B : list N) :
  has_char c A = false -> cut [c] (A ++ c :: B) = Some (A, B).
Proof.
  induction A as [|a A IH]; intros H; simpl.
  - rewrite N.eqb_refl. reflexivity.
  - simpl in H. apply orb_false_iff in H. destruct H as [Ha HA].
    rewrite Ha. simpl. rewrite (IH HA). reflexivity.
Qed.

(** A character outside the separator keeps occurrences apart: the first
    occurrence in [A ++ c :: B] is the first one of [A], or else the first
    one of [B]. *)
Lemma cut_app_stop (c : N) (sep A B : list N) :
  has_char c sep = false ->
  sep <> [] ->
  cut sep (A ++ c :: B)
  = match cut sep A with
    | Some (x, y) => Some (x, y ++ c :: B)
    | None =>
        match cut sep B with
        | Some (x, y) => Some (A ++ c :: x, y)
        | None => None
        end
    end.
Proof.
  intros Hc Hsep. induction A as [|a A IH].
  - simpl. destruct sep as [|x sep]; [contradiction Hsep; reflexivity|].
    simpl in Hc. apply orb_false_iff in Hc. destruct Hc as [Hx _].
    simpl. rewrite N.eqb_sym, Hx. simpl.
    destruct (cut (x :: sep) B) as [[u v]|]; reflexivity.
  - change ((a :: A) ++ c :: B) with (a :: (A ++ c :: B)).
    cbn [cut].
    change (a :: (A ++ c :: B)) with ((a :: A) ++ c :: B).
    rewrite (startswith_app_stop c sep (a :: A) B Hc).
    destruct (startswith sep (a :: A)) eqn:Hs.
    + f_equal. f_equal.
      pose proof (startswith_length _ _ Hs) as Hlen.
      rewrite drop_app_le by exact Hlen. reflexivity.
    + rewrite IH.
      destruct (cut sep A) as [[u v]|]; [reflexivity|].
      destruct (cut sep B) as [[u v]|]; reflexivity.
Qed.

(** Enough fuel: [split] unfolds along [cut]. *)
Lemma split_fuel_enough (sep : list N) (n : nat) :
  sep <> [] ->
  forall (m : nat) (s : list N),
    length s <= n -> length s <= m ->
    split_fuel n sep s = split_fuel m sep s.
Proof.
  intros Hsep. induction n as [|n IH]; intros m s Hn Hm.
  - destruct s; [|simpl in Hn; lia].
    destruct sep as [|x sep]; [contradiction Hsep; reflexivity|].
    destruct m; reflexivity.
  - destruct m as [|m].
    + destruct s; [|simpl in Hm; lia].
      destruct sep as [|x sep]; [contradiction Hsep; reflexivity|].
      reflexivity.
    + simpl. destruct (cut sep s) as [[b a]|] eqn:Hcut; [|reflexivity].
      f_equal. apply cut_some in Hcut.
      assert (Hlen : S (length a) <= length s).
      { rewrite Hcut, !length_app.
        destruct sep; [contradiction Hsep; reflexivity|]. simpl. lia. }
      apply IH; lia.
Qed.

Lemma split_cut (sep s b a : list N) :
  sep <> [] ->
  cut sep s = Some (b, a) ->
  split sep s = b :: split sep a.
Proof.
  intros Hsep Hcut. unfold split.
  pose proof (cut_some _ _ _ _ Hcut) as Hs.
  assert (Hlen : S (length a) <= length s).
  { rewrite Hs, !length_app.
    destruct sep; [contradiction Hsep; reflexivity|]. simpl. lia. }
  destruct (length s) as [|n] eqn:Hn; [lia|].
  simpl. rewrite Hcut. f_equal.
  apply split_fuel_enough; [exact Hsep|lia|lia].
Qed.

Lemma split_no_sep (sep s : list N) :
  cut sep s = None -> split sep s = [s].
Proof.
  intros H. unfold split. destruct (length s); simpl; rewrite H; reflexivity.
Qed.

(** A separator whose first character is absent from the string does not
    occur in it. *)
Lemma contains_first_char (x : N) (sep s : list N) :
  has_char x s = false -> contains (x :: sep) s = false.
Proof.
  induction s as [|c s IH]; simpl; intros H; [reflexivity|].
  apply orb_false_iff in H. destruct H as [Hx Hs].
  rewrite Hx. simpl. apply IH. exact Hs.
Qed.

End StringProps.

(** ** The coordinate note: written by the record store, read by the
    classifier *)

Section NoteProps.

Definition LAT_MARK : list N := u8 "lat = ".
Definition LNG_MARK : list N := u8 "lng = ".

(** The text has no comma and neither marker. *)
Definition plain_number (s : list N) : Prop :=
  has_char (ch ",") s = false
  /\ contains LAT_MARK s = false
  /\ contains LNG_MARK s = false.

(** C9: the classifier's parse of the note that the record store writes for
    the renderings [L] and [U] gives back [L] and [U], when they contain no
    comma and neither of the markers "lat = " and "lng = ". *)
Theorem note_round_trip (L U : list N) :
  plain_number L ->
  plain_number U ->
  Wb.parse_lat (Main.legacy_note L U) = L
  /\ Wb.parse_lng (Main.legacy_note L U) = U.
Proof.
  intros (HcL & HlatL & HlngL) (HcU & HlatU & HlngU).
  unfold LAT_MARK in HlatL, HlatU. unfold LNG_MARK in HlngL, HlngU.
  assert (Hne1 : u8 "lat = " <> []) by discriminate.
  assert (Hne2 : u8 "lng = " <> []) by discriminate.
  assert (Hne3 : [ch ","] <> []) by discriminate.
  (* the note, with the comma singled out *)
  set (R := u8 " lng = " ++ U).
  assert (Hnote : Main.legacy_note L U = u8 "lat = " ++ (L ++ ch "," :: R))
    by reflexivity.
  split.
  - unfold Wb.parse_lat. rewrite Hnote.
    (* the first marker is at the start *)
    rewrite (split_cut (u8 "lat = ") _ [] (L ++ ch "," :: R) Hne1)
      by reflexivity.
    (* and there is no other one *)
    assert (Hrest : cut (u8 "lat = ") (L ++ ch "," :: R) = None).
    { rewrite cut_app_stop; [|reflexivity|exact Hne1].
      rewrite (cut_none _ _ HlatL).
      subst R. simpl. rewrite (cut_none _ _ HlatU). reflexivity. }
    rewrite (split_no_sep _ _ Hrest).
    change (last_piece [[]; L ++ ch "," :: R]) with (L ++ ch "," :: R).
    rewrite (split_cut [ch ","] _ L R Hne3 (cut_char _ L R HcL)).
    reflexivity.
  - unfold Wb.parse_lng. rewrite Hnote.
    assert (Hcut : cut (u8 "lng = ") (u8 "lat = " ++ (L ++ ch "," :: R))
                   = Some (u8 "lat = " ++ L ++ u8 ", ", U)).
    { simpl app at 1. cbn [cut startswith N.eqb Pos.eqb andb].
      rewrite cut_app_stop; [|reflexivity|exact Hne2].
      rewrite (cut_none _ _ HlngL).
      subst R. simpl. rewrite drop_0. reflexivity. }
    rewrite (split_cut _ _ _ _ Hne2 Hcut).
    rewrite (split_no_sep _ _ (cut_none _ _ HlngU)).
    reflexivity.
Qed.

End NoteProps.

(** C9, witness: the note for 55.7 and 37.6. *)
Lemma note_round_trip_witness :
  Wb.parse_lat (u8 "lat = 55.7, lng = 37.6") = u8 "55.7"
  /\ Wb.parse_lng (u8 "lat = 55.7, lng = 37.6") = u8 "37.6".
Proof.
  apply (note_round_trip (u8 "55.7") (u8 "37.6")).
  - split; [|split]; vm_compute; reflexivity.
  - split; [|split]; vm_compute; reflexivity.
Defined.

(** ** The control structure shared by the two scrapers *)

Section ScraperProps.
Import Main.

Variable repr_float : float -> list N.
Variable http : nat -> request -> response.
Variable cian_links avito_links : list N -> exc (list (list N)).
Variable cian_dom avito_dom : list N -> exc item_dom.
Variable geocode_address : list N -> option (list N) -> option (float * float).
Variable now_iso : nat -> list N.

(** The control structure as the specification words it, with its
    parameters explicit: [retries] attempts per detail link, back-off
    [min(2^attempt, cap)], [threshold] consecutive pages without links,
    [link_cap] links per page.  What differs between the sources is passed
    in: the site of the search pages, the link extraction and the treatment
    of a fetched detail page. *)
Section Shared.

Variables retries cap threshold link_cap : nat.
Variable site : site_name.
Variable links_of : list N -> exc (list (list N)).
Variable item : list N -> list N -> list N -> run -> run * exc (option row).

(** Up to [remaining] further attempts on a link, the next one numbered
    [attempt]; every response that is blocked or an HTTP error is followed
    by a back-off. *)
Fixpoint shared_fetch (link : list N) (remaining attempt : nat) (st : run)
  : run * exc (option (list N)) :=
  match remaining with
  | O => (st, Ok None)
  | S remaining' =>
      match http (sent st) (Detail link) with
      | ConnError =>
          ({| sent := S (sent st); log := log st ++ [EvGet (Detail link)] |},
           Raise RequestError)
      | Status code body =>
          if blocked code || http_error code then
            shared_fetch link remaining' (S attempt)
              {| sent := S (sent st);
                 log := log st ++ [EvGet (Detail link);
                                   EvBackoff (Nat.min (2 ^ attempt) cap)] |}
          else
            ({| sent := S (sent st); log := log st ++ [EvGet (Detail link)] |},
             Ok (Some body))
      end
  end.

Fixpoint shared_links (city_name : list N) (links : list (list N))
    (records : list row) (st : run) : list row * run :=
  match links with
  | [] => (records, st)
  | link :: rest =>
      let '(st, fetched) := shared_fetch link retries 1 (emit EvDelay st) in
      match fetched with
      | Ok (Some body) =>
          match item city_name link body st with
          | (st, Ok (Some r)) => shared_links city_name rest (records ++ [r]) st
          | (st, _) => shared_links city_name rest records st
          end
      | _ => shared_links city_name rest records st
      end
  end.

(** Pages [p], [p + 1], ... ([count] of them), with [empty_pages] pages
    without links directly before. *)
Fixpoint shared_pages (city_name : list N) (p count empty_pages : nat)
    (records : list row) (st : run) : list row * run :=
  match count with
  | O => (records, st)
  | S count' =>
      let st' := {| sent := S (sent st);
                    log := log st ++ [EvGet (SearchPage site p)] |} in
      match http (sent st) (SearchPage site p) with
      | ConnError => (records, st')
      | Status code html =>
          if blocked code || http_error code then (records, st')
          else
            match links_of html with
            | Raise _ => (records, st')
            | Ok links =>
                match fromkeys links with
                | [] =>
                    if threshold <=? S empty_pages then (records, st')
                    else shared_pages city_name (S p) count' (S empty_pages)
                                      records st'
                | found =>
                    let '(records, st'') :=
                      shared_links city_name (take link_cap found) records st'
                    in
                    shared_pages city_name (S p) count' 0 records st''
                end
            end
      end
  end.

End Shared.

Lemma emit_app (e : event) (st : run) (l : list event) :
  {| sent := sent st; log := log (emit e st) ++ l |}
  = {| sent := sent st; log := log st ++ e :: l |}.
Proof. unfold emit. simpl. rewrite <- app_assoc. reflexivity. Qed.

(** The Cian attempts are the shared ones with 3 retries and cap 8. *)
Lemma cian_fetch_shared (link : list N) (n : nat) :
  forall (a : nat) (st : run),
    cian_fetch http link (seq a n) st = shared_fetch 8 link n a st.
Proof.
  induction n as [|n IH]; intros a st; simpl; [reflexivity|].
  unfold do_get.
  destruct (http (sent st) (Detail link)) as [|code body]; [reflexivity|].
  destruct (blocked code); simpl.
  - rewrite IH. unfold emit, backoff_base. simpl.
    rewrite <- app_assoc. reflexivity.
  - destruct (http_error code); [|reflexivity].
    rewrite IH. unfold emit, backoff_base. simpl.
    rewrite <- app_assoc. reflexivity.
Qed.

Lemma avito_fetch_shared (link : list N) (n : nat) :
  forall (a : nat) (st : run),
    avito_fetch http link (seq a n) st = shared_fetch 8 link n a st.
Proof.
  induction n as [|n IH]; intros a st; simpl; [reflexivity|].
  unfold do_get.
  destruct (http (sent st) (Detail link)) as [|code body]; [reflexivity|].
  destruct (blocked code); simpl.
  - rewrite IH. unfold emit, backoff_base. simpl.
    rewrite <- app_assoc. reflexivity.
  - destruct (http_error code); [|reflexivity].
    rewrite IH. unfold emit, backoff_base. simpl.
    rewrite <- app_assoc. reflexivity.
Qed.

Lemma cian_links_loop_shared (city_name : list N) (links : list (list N)) :
  forall (records : list row) (st : run),
    cian_links_loop repr_float http cian_dom geocode_address now_iso
      city_name links records st
    = shared_links 3 8
        (cian_item repr_float cian_dom geocode_address now_iso)
        city_name links records st.
Proof.
  induction links as [|link rest IH]; intros records st; [reflexivity|].
  cbn [cian_links_loop shared_links]. unfold ITEM_RETRIES.
  rewrite cian_fetch_shared.
  destruct (shared_fetch 8 link 3 1 (emit EvDelay st)) as [st1 fetched].
  destruct fetched as [[body|]|e]; try apply IH.
  destruct (cian_item _ _ _ _ _ _ _ _) as [st2 [[r|]|e]]; apply IH.
Qed.

Lemma avito_links_loop_shared (city_name : list N) (links : list (list N)) :
  forall (records : list row) (st : run),
    avito_links_loop repr_float http avito_dom geocode_address now_iso
      city_name links records st
    = shared_links 3 8
        (avito_item repr_float avito_dom geocode_address now_iso)
        city_name links records st.
Proof.
  induction links as [|link rest IH]; intros records st; [reflexivity|].
  cbn [avito_links_loop shared_links]. unfold ITEM_RETRIES.
  rewrite avito_fetch_shared.
  destruct (shared_fetch 8 link 3 1 (emit EvDelay st)) as [st1 fetched].
  destruct fetched as [[body|]|e]; try apply IH.
  destruct (avito_item _ _ _ _ _ _ _ _) as [st2 [[r|]|e]]; apply IH.
Qed.

Lemma cian_pages_shared (city_name : list N) (count : nat) :
  forall (p empty_pages : nat) (records : list row) (st : run),
    cian_pages repr_float http cian_links cian_dom geocode_address now_iso
      city_name (seq p count) empty_pages records st
    = shared_pages 3 8 3 40 Cian cian_links
        (cian_item repr_float cian_dom geocode_address now_iso)
        city_name p count empty_pages records st.
Proof.
  induction count as [|count IH]; intros p empty_pages records st;
    [reflexivity|].
  cbn [seq cian_pages shared_pages]. unfold do_get.
  destruct (http (sent st) (SearchPage Cian p)) as [|code html];
    [reflexivity|].
  destruct (blocked code); [reflexivity|].
  destruct (http_error code); [reflexivity|]. cbn [orb].
  destruct (cian_links html) as [links|e]; [|reflexivity].
  destruct (fromkeys links) as [|l ls] eqn:Hkeys.
  - destruct (3 <=? S empty_pages); [reflexivity|]. apply IH.
  - rewrite cian_links_loop_shared.
    destruct (shared_links _ _ _ _ _ _ _) as [records' st'']. apply IH.
Qed.

Lemma avito_pages_shared (city_name : list N) (count : nat) :
  forall (p empty_pages : nat) (records : list row) (st : run),
    avito_pages repr_float http avito_links avito_dom geocode_address now_iso
      city_name (seq p count) empty_pages records st
    = shared_pages 3 8 3 40 Avito avito_links
        (avito_item repr_float avito_dom geocode_address now_iso)
        city_name p count empty_pages records st.
Proof.
  induction count as [|count IH]; intros p empty_pages records st;
    [reflexivity|].
  cbn [seq avito_pages shared_pages]. unfold do_get.
  destruct (http (sent st) (SearchPage Avito p)) as [|code html];
    [reflexivity|].
  destruct (blocked code); [reflexivity|].
  destruct (http_error code); [reflexivity|]. cbn [orb].
  destruct (avito_links html) as [links|e]; [|reflexivity].
  destruct (fromkeys links) as [|l ls] eqn:Hkeys.
  - destruct (3 <=? S empty_pages); [reflexivity|]. apply IH.
  - rewrite avito_links_loop_shared.
    destruct (shared_links _ _ _ _ _ _ _) as [records' st'']. apply IH.
Qed.

(** A link costs at most [retries] requests. *)
Lemma shared_fetch_bound (cap : nat) (link : list N) (remaining : nat) :
  forall (attempt : nat) (st : run),
    sent (fst (shared_fetch cap link remaining attempt st))
    <= sent st + remaining.
Proof.
  induction remaining as [|n IH]; intros attempt st; simpl; [lia|].
  destruct (http (sent st) (Detail link)) as [|code body]; simpl; [lia|].
  destruct (blocked code || http_error code); simpl; [|lia].
  specialize (IH (S attempt)
                {| sent := S (sent st);
                   log := log st ++ [EvGet (Detail link);
                                     EvBackoff (Nat.min (2 ^ attempt) cap)] |}).
  simpl in IH. lia.
Qed.

(** The requests and back-offs of a link that is refused every time. *)
Definition refused_log (cap : nat) (link : list N) (attempt n : nat)
  : list event :=
  flat_map (fun k => [EvGet (Detail link);
                      EvBackoff (Nat.min (2 ^ (attempt + k)) cap)])
           (seq 0 n).

Lemma refused_log_S (cap : nat) (link : list N) (attempt n : nat) :
  refused_log cap link attempt (S n)
  = EvGet (Detail link) :: EvBackoff (Nat.min (2 ^ attempt) cap)
    :: refused_log cap link (S attempt) n.
Proof.
  unfold refused_log. cbn [seq flat_map app].
  rewrite Nat.add_0_r. f_equal. f_equal.
  rewrite <- seq_shift, flat_map_concat_map, map_map, <- flat_map_concat_map.
  apply flat_map_ext. intros k. rewrite Nat.add_succ_r. reflexivity.
Qed.

Lemma shared_fetch_refused (cap : nat) (link : list N) (remaining : nat) :
  forall (attempt : nat) (st : run),
    (forall k, k < remaining ->
       exists code body,
         http (sent st + k) (Detail link) = Status code body
         /\ blocked code || http_error code = true) ->
    shared_fetch cap link remaining attempt st
    = ({| sent := sent st + remaining;
          log := log st ++ refused_log cap link attempt remaining |},
       Ok None).
Proof.
  induction remaining as [|n IH]; intros attempt st Hall.
  - simpl. rewrite Nat.add_0_r.
    unfold refused_log. simpl. rewrite app_nil_r. destruct st; reflexivity.
  - destruct (Hall 0) as (code & body & Hget & Hbad); [lia|].
    rewrite Nat.add_0_r in Hget.
    cbn [shared_fetch]. rewrite Hget, Hbad.
    rewrite IH.
    + cbn [sent log]. rewrite refused_log_S, <- app_assoc.
      apply (f_equal (fun r => (r, Ok None))).
      apply (f_equal2 Build_run); [lia|reflexivity].
    + intros k Hk. cbn [sent].
      destruct (Hall (S k)) as (code' & body' & Hget' & Hbad'); [lia|].
      exists code', body'. split; [|exact Hbad'].
      rewrite <- Hget'. f_equal. lia.
Qed.

(** A search page that is blocked ends the run of the scraper. *)
Lemma shared_pages_blocked
    (retries cap threshold link_cap : nat) (site : site_name)
    (links_of : list N -> exc (list (list N)))
    (item : list N -> list N -> list N -> run -> run * exc (option row))
    (city_name : list N) (p count empty_pages : nat) (records : list row)
    (st : run) (code : nat) (html : list N) :
  http (sent st) (SearchPage site p) = Status code html ->
  blocked code = true ->
  shared_pages retries cap threshold link_cap site links_of item
    city_name p (S count) empty_pages records st
  = (records, {| sent := S (sent st);
                 log := log st ++ [EvGet (SearchPage site p)] |}).
Proof.
  intros Hget Hb. cbn [shared_pages]. rewrite Hget, Hb. reflexivity.
Qed.

(** A page answers normally and holds no link. *)
Definition empty_page (site : site_name)
    (links_of : list N -> exc (list (list N))) (n p : nat) : Prop :=
  exists code html links,
    http n (SearchPage site p) = Status code html
    /\ blocked code || http_error code = false
    /\ links_of html = Ok links
    /\ fromkeys links = [].

(** With [empty_pages] empty pages before, [n] further empty pages reach the
    threshold: the scraper stops after exactly these [n] requests, whatever
    pages are left. *)
Lemma shared_pages_empty_stop
    (retries cap threshold link_cap : nat) (site : site_name)
    (links_of : list N -> exc (list (list N)))
    (item : list N -> list N -> list N -> run -> run * exc (option row))
    (city_name : list N) (records : list row) (n : nat) :
  forall (p count empty_pages : nat) (st : run),
    0 < n -> n <= count ->
    empty_pages + n = threshold ->
    (forall k, k < n -> empty_page site links_of (sent st + k) (p + k)) ->
    shared_pages retries cap threshold link_cap site links_of item
      city_name p count empty_pages records st
    = (records,
       {| sent := sent st + n;
          log := log st ++ map (fun k => EvGet (SearchPage site (p + k)))
                               (seq 0 n) |}).
Proof.
  induction n as [|n IH]; intros p count empty_pages st Hpos Hcount Hthr Hall;
    [lia|].
  destruct count as [|count]; [lia|].
  destruct (Hall 0) as (code & html & links & Hget & Hok & Hlinks & Hnone);
    [lia|].
  rewrite !Nat.add_0_r in Hget.
  cbn [shared_pages]. rewrite Hget, Hok, Hlinks, Hnone.
  destruct n as [|n].
  - assert (Hstop : (threshold <=? S empty_pages) = true)
      by (apply Nat.leb_le; lia).
    rewrite Hstop. apply (f_equal (pair records)).
    apply (f_equal2 Build_run); [lia|].
    simpl. rewrite Nat.add_0_r. reflexivity.
  - assert (Hgo : (threshold <=? S empty_pages) = false)
      by (apply Nat.leb_gt; lia).
    rewrite Hgo. rewrite IH; [|lia|lia|lia|].
    + cbn [sent log]. apply (f_equal (pair records)).
      apply (f_equal2 Build_run); [lia|].
      rewrite <- app_assoc. f_equal.
      change (seq 0 (S (S n))) with (0 :: seq 1 (S n)).
      cbn [map app]. rewrite Nat.add_0_r. f_equal.
      rewrite <- seq_shift, map_map. apply map_ext.
      intros k. rewrite Nat.add_succ_r. reflexivity.
    + intros k Hk. cbn [sent].
      replace (S (sent st) + k) with (sent st + S k) by lia.
      replace (S p + k) with (p + S k) by lia.
      apply Hall. lia.
Qed.

(** A page with links: only its first [link_cap] distinct links are
    visited, and the count of empty pages starts again at 0. *)
Lemma shared_pages_links
    (retries cap threshold link_cap : nat) (site : site_name)
    (links_of : list N -> exc (list (list N)))
    (item : list N -> list N -> list N -> run -> run * exc (option row))
    (city_name : list N) (p count empty_pages : nat) (records : list row)
    (st : run) (code : nat) (html : list N) (links : list (list N)) :
  http (sent st) (SearchPage site p) = Status code html ->
  blocked code || http_error code = false ->
  links_of html = Ok links ->
  fromkeys links <> [] ->
  shared_pages retries cap threshold link_cap site links_of item
    city_name p (S count) empty_pages records st
  = let '(records', st') :=
      shared_links retries cap item city_name
        (take link_cap (fromkeys links)) records
        {| sent := S (sent st);
           log := log st ++ [EvGet (SearchPage site p)] |} in
    shared_pages retries cap threshold link_cap site links_of item
      city_name (S p) count 0 records' st'.
Proof.
  intros Hget Hok Hlinks Hsome. cbn [shared_pages].
  rewrite Hget, Hok, Hlinks.
  destruct (fromkeys links) as [|l ls]; [contradiction Hsome; reflexivity|].
  reflexivity.
Qed.

(** C8: both scrapers are the shared control structure with the same four
    parameters: 3 attempts per detail link, back-off [min(2^attempt, 8)]
    (2, 4, 8 for a link refused every time), a stop after exactly 3
    consecutive pages without links (a page with links starts the count
    again), the first 40 distinct links of a page, and the end of the
    pagination on a blocked (403/429) search page. *)
Theorem scrapers_share_control :
  (forall city_name pages st,
     scrape_cian repr_float http cian_links cian_dom geocode_address now_iso
       city_name pages st
     = shared_pages 3 8 3 40 Cian cian_links
         (cian_item repr_float cian_dom geocode_address now_iso)
         city_name 1 pages 0 [] st)
  /\ (forall city_name pages st,
        scrape_avito repr_float http avito_links avito_dom geocode_address
          now_iso city_name pages st
        = shared_pages 3 8 3 40 Avito avito_links
            (avito_item repr_float avito_dom geocode_address now_iso)
            city_name 1 pages 0 [] st)
  /\ (forall link attempt st,
        sent (fst (shared_fetch 8 link 3 attempt st)) <= sent st + 3)
  /\ (forall link st,
        (forall k, k < 3 ->
           exists code body,
             http (sent st + k) (Detail link) = Status code body
             /\ blocked code || http_error code = true) ->
        shared_fetch 8 link 3 1 st
        = ({| sent := sent st + 3;
              log := log st ++ [EvGet (Detail link); EvBackoff 2;
                                EvGet (Detail link); EvBackoff 4;
                                EvGet (Detail link); EvBackoff 8] |},
           Ok None))
  /\ (forall site links_of item city_name p count empty_pages records st
             code html,
        http (sent st) (SearchPage site p) = Status code html ->
        blocked code = true ->
        shared_pages 3 8 3 40 site links_of item
          city_name p (S count) empty_pages records st
        = (records, {| sent := S (sent st);
                       log := log st ++ [EvGet (SearchPage site p)] |}))
  /\ (forall site links_of item city_name p count records st,
        3 <= count ->
        (forall k, k < 3 -> empty_page site links_of (sent st + k) (p + k)) ->
        shared_pages 3 8 3 40 site links_of item
          city_name p count 0 records st
        = (records,
           {| sent := sent st + 3;
              log := log st ++ [EvGet (SearchPage site p);
                                EvGet (SearchPage site (p + 1));
                                EvGet (SearchPage site (p + 2))] |}))
  /\ (forall site links_of item city_name p count empty_pages records st
             code html links,
        http (sent st) (SearchPage site p) = Status code html ->
        blocked code || http_error code = false ->
        links_of html = Ok links ->
        fromkeys links <> [] ->
        shared_pages 3 8 3 40 site links_of item
          city_name p (S count) empty_pages records st
        = let '(records', st') :=
            shared_links 3 8 item city_name (take 40 (fromkeys links)) records
              {| sent := S (sent st);
                 log := log st ++ [EvGet (SearchPage site p)] |} in
          shared_pages 3 8 3 40 site links_of item
            city_name (S p) count 0 records' st').
Proof.
  split; [|split; [|split; [|split; [|split; [|split]]]]].
  - intros city_name pages st. unfold scrape_cian. apply cian_pages_shared.
  - intros city_name pages st. unfold scrape_avito. apply avito_pages_shared.
  - intros link attempt st. apply shared_fetch_bound.
  - intros link st Hall.
    rewrite (shared_fetch_refused 8 link 3 1 st Hall). reflexivity.
  - intros. eapply shared_pages_blocked; eassumption.
  - intros site links_of item city_name p count records st Hcount Hall.
    rewrite (shared_pages_empty_stop 3 8 3 40 site links_of item city_name
               records 3 p count 0 st); [|lia|exact Hcount|reflexivity|exact Hall].
    simpl. rewrite Nat.add_0_r. reflexivity.
  - intros. eapply shared_pages_links; eassumption.
Qed.

End ScraperProps.

(** ** URL normalizer *)

Section UrlProps.
Import Main.

(** Printable ASCII other than the space. *)
Definition visible (c : N) : bool := ((33 <=? c) && (c <=? 126))%N.

(** Decides the comparisons on a code point one after the other, keeping
    only the cases that the hypotheses allow. *)
Ltac code_point_cases :=
  repeat match goal with
    | |- context [(?a <=? ?b)%N] =>
        destruct (N.leb_spec a b); try (exfalso; lia)
    | |- context [(?a <? ?b)%N] =>
        destruct (N.ltb_spec a b); try (exfalso; lia)
    | |- context [(?a =? ?b)%N] =>
        destruct (N.eqb_spec a b); try (exfalso; lia)
    end;
  try reflexivity; try (exfalso; lia).

Lemma visible_bounds (c : N) : visible c = true -> (33 <= c <= 126)%N.
Proof.
  unfold visible. intros H. apply andb_true_iff in H. destruct H as [H1 H2].
  apply N.leb_le in H1. apply N.leb_le in H2. lia.
Qed.

Lemma visible_not_space (c : N) : visible c = true -> is_space c = false.
Proof.
  intros H. apply visible_bounds in H. unfold is_space. code_point_cases.
Qed.

Lemma visible_not_c0 (c : N) :
  visible c = true -> Urllib.c0_or_space c = false.
Proof.
  intros H. apply visible_bounds in H. unfold Urllib.c0_or_space.
  code_point_cases.
Qed.

Lemma visible_not_unsafe (c : N) :
  visible c = true -> negb (Urllib.unsafe_byte c) = true.
Proof.
  intros H. apply visible_bounds in H. unfold Urllib.unsafe_byte.
  code_point_cases.
Qed.

(** Stripping characters that do not occur changes nothing. *)
Lemma rstrip_by_absent (p : N -> bool) (s : list N) :
  forallb (fun c => negb (p c)) s = true -> rstrip_by p s = s.
Proof.
  induction s as [|c s IH]; simpl; intros H; [reflexivity|].
  apply andb_true_iff in H. destruct H as [Hc Hs].
  rewrite (IH Hs). apply negb_true_iff in Hc.
  destruct s; [rewrite Hc|]; reflexivity.
Qed.

Lemma filter_all (p : N -> bool) (s : list N) :
  forallb p s = true -> List.filter p s = s.
Proof.
  induction s as [|c s IH]; simpl; intros H; [reflexivity|].
  apply andb_true_iff in H. destruct H as [Hc Hs].
  rewrite Hc, (IH Hs). reflexivity.
Qed.

Lemma forallb_impl (p q : N -> bool) (s : list N) :
  (forall c, p c = true -> q c = true) ->
  forallb p s = true -> forallb q s = true.
Proof.
  intros Hpq. induction s as [|c s IH]; simpl; intros H; [reflexivity|].
  apply andb_true_iff in H. destruct H as [Hc Hs].
  rewrite (Hpq c Hc), (IH Hs). reflexivity.
Qed.

Lemma has_char_forallb (c : N) (p : N -> bool) (s : list N) :
  p c = false -> forallb p s = true -> has_char c s = false.
Proof.
  intros Hc. induction s as [|x s IH]; simpl; intros H; [reflexivity|].
  apply andb_true_iff in H. destruct H as [Hx Hs].
  rewrite (IH Hs), orb_false_r.
  destruct (N.eqb_spec c x) as [->|]; [congruence|reflexivity].
Qed.

Lemma cut_char_none (c : N) (s : list N) :
  has_char c s = false -> cut [c] s = None.
Proof.
  induction s as [|x s IH]; simpl; intros H; [reflexivity|].
  apply orb_false_iff in H. destruct H as [Hx Hs].
  rewrite Hx. simpl. rewrite (IH Hs). reflexivity.
Qed.

(** [span_until] stops at the first character of the class. *)
Lemma span_until_app (p : N -> bool) (A rest : list N) :
  forallb (fun c => negb (p c)) A = true ->
  match rest with [] => True | c :: _ => p c = true end ->
  Urllib.span_until p (A ++ rest) = (A, rest).
Proof.
  intros HA Hrest. induction A as [|a A IH]; simpl.
  - destruct rest as [|c rest]; [reflexivity|]. simpl. rewrite Hrest.
    reflexivity.
  - simpl in HA. apply andb_true_iff in HA. destruct HA as [Ha HA].
    apply negb_true_iff in Ha. rewrite Ha, (IH HA). reflexivity.
Qed.

(** What [rstrip_by] leaves is empty or starts like the string. *)
Lemma rstrip_by_head (p : N -> bool) (c : N) (s : list N) :
  rstrip_by p (c :: s) = [] \/ exists r, rstrip_by p (c :: s) = c :: r.
Proof.
  simpl. destruct (rstrip_by p s) as [|y r].
  - destruct (p c); [left; reflexivity|right; exists []; reflexivity].
  - right. exists (y :: r). reflexivity.
Qed.

Lemma rstrip_by_forallb (p q : N -> bool) (s : list N) :
  forallb q s = true -> forallb q (rstrip_by p s) = true.
Proof.
  induction s as [|c s IH]; simpl; intros H; [reflexivity|].
  apply andb_true_iff in H. destruct H as [Hc Hs]. specialize (IH Hs).
  destruct (rstrip_by p s) as [|y r].
  - destruct (p c); simpl; [reflexivity|]. rewrite Hc. reflexivity.
  - simpl. rewrite Hc. exact IH.
Qed.

Lemma rstrip_by_idem (p : N -> bool) (s : list N) :
  rstrip_by p (rstrip_by p s) = rstrip_by p s.
Proof.
  induction s as [|c s IH]; simpl; [reflexivity|].
  destruct (rstrip_by p s) as [|y r] eqn:Hr.
  - destruct (p c) eqn:Hc; simpl; [reflexivity|]. rewrite Hc. reflexivity.
  - simpl in IH |- *. rewrite IH. reflexivity.
Qed.

(** The three parts of a URL after its scheme. *)
Definition host_char (c : N) : bool :=
  visible c
  && negb ((c =? ch "/") || (c =? ch "?") || (c =? ch "#")
           || (c =? ch "[") || (c =? ch "]"))%N.

Definition path_char (c : N) : bool :=
  visible c && negb ((c =? ch "?") || (c =? ch "#") || (c =? ch ";"))%N.

Definition host_text (H : list N) : Prop := forallb host_char H = true.

Definition path_text (P : list N) : Prop :=
  forallb path_char P = true
  /\ match P with [] => True | c :: _ => c = ch "/" end.

Definition tail_text (T : list N) : Prop :=
  forallb visible T = true
  /\ match T with [] => True | c :: _ => c = ch "?" \/ c = ch "#" end.

Lemma host_char_visible (c : N) : host_char c = true -> visible c = true.
Proof. unfold host_char. intros H. apply andb_true_iff in H. tauto. Qed.

Lemma path_char_visible (c : N) : path_char c = true -> visible c = true.
Proof. unfold path_char. intros H. apply andb_true_iff in H. tauto. Qed.

Lemma host_char_not_delim (c : N) :
  host_char c = true -> negb (Urllib.netloc_delim c) = true.
Proof.
  unfold host_char, Urllib.netloc_delim. intros H.
  apply andb_true_iff in H. destruct H as [_ H].
  apply negb_true_iff in H. apply negb_true_iff.
  repeat (apply orb_false_iff in H; destruct H as [H ?]).
  repeat (apply orb_false_iff; split); assumption.
Qed.

(** After the host comes the path, the query, the fragment, or nothing. *)
Lemma rest_starts_with_delim (P T : list N) :
  path_text P -> tail_text T ->
  match P ++ T with [] => True | c :: _ => Urllib.netloc_delim c = true end.
Proof.
  intros [_ HP] [_ HT]. destruct P as [|c P]; simpl.
  - destruct T as [|c T]; [exact I|]. destruct HT as [->| ->]; reflexivity.
  - rewrite HP. reflexivity.
Qed.

(** Splitting off fragment and query leaves the path. *)
Lemma path_of_rest (P T : list N) :
  path_text P -> tail_text T ->
  exists q f,
    (let '(url, fragment) :=
       match cut [ch "#"] (P ++ T) with
       | Some (b, a) => (b, a)
       | None => (P ++ T, [])
       end in
     let '(url, query) :=
       match cut [ch "?"] url with
       | Some (b, a) => (b, a)
       | None => (url, [])
       end in
     (url, query, fragment)) = (P, q, f).
Proof.
  intros [HP _] [_ HT].
  assert (Hhash : has_char (ch "#") P = false).
  { apply (has_char_forallb _ path_char); [reflexivity|exact HP]. }
  assert (Hquest : has_char (ch "?") P = false).
  { apply (has_char_forallb _ path_char); [reflexivity|exact HP]. }
  destruct T as [|c T].
  - rewrite app_nil_r, (cut_char_none _ _ Hhash), (cut_char_none _ _ Hquest).
    exists [], []. reflexivity.
  - destruct HT as [->| ->].
    + rewrite (cut_app_stop (ch "?") [ch "#"] P T);
        [|reflexivity|discriminate].
      rewrite (cut_char_none _ _ Hhash).
      destruct (cut [ch "#"] T) as [[x y]|].
      * rewrite (cut_char _ P x Hquest). exists x, y. reflexivity.
      * rewrite (cut_char _ P T Hquest). exists T, []. reflexivity.
    + rewrite (cut_char _ P T Hhash), (cut_char_none _ _ Hquest).
      exists [], T. reflexivity.
Qed.

(** [urlsplit] on a URL of the form https://host/path?query#fragment. *)
Lemma urlsplit_https (H P T : list N) :
  host_text H -> path_text P -> tail_text T ->
  exists q f,
    Urllib.urlsplit (u8 "https://" ++ H ++ P ++ T)
    = Ok {| Urllib.sr_scheme := u8 "https"; Urllib.sr_netloc := H;
            Urllib.sr_path := P; Urllib.sr_query := q;
            Urllib.sr_fragment := f |}.
Proof.
  intros HH HP HT.
  assert (Hvis : forallb visible (H ++ P ++ T) = true).
  { rewrite !forallb_app.
    rewrite (forallb_impl _ _ H host_char_visible HH).
    rewrite (forallb_impl _ _ P path_char_visible (proj1 HP)).
    rewrite (proj1 HT). reflexivity. }
  destruct (path_of_rest P T HP HT) as (q & f & Hrest).
  exists q, f.
  unfold Urllib.urlsplit.
  change (lstrip_by Urllib.c0_or_space (u8 "https://" ++ H ++ P ++ T))
    with (u8 "https://" ++ H ++ P ++ T).
  replace (List.filter (fun c => negb (Urllib.unsafe_byte c))
             (u8 "https://" ++ H ++ P ++ T))
    with (u8 "https://" ++ H ++ P ++ T).
  2:{ symmetry. change (u8 "https://" ++ H ++ P ++ T)
        with (u8 "https://" ++ (H ++ P ++ T)).
      rewrite List.filter_app.
      rewrite (filter_all _ (H ++ P ++ T)); [reflexivity|].
      apply (forallb_impl visible); [|exact Hvis].
      apply visible_not_unsafe. }
  change (Urllib.split_scheme (u8 "https://" ++ H ++ P ++ T))
    with (u8 "https", u8 "//" ++ H ++ P ++ T).
  cbv beta iota.
  change (startswith (u8 "//") (u8 "//" ++ H ++ P ++ T)) with true.
  cbv iota.
  change (drop 2 (u8 "//" ++ H ++ P ++ T)) with (H ++ (P ++ T)).
  rewrite (span_until_app Urllib.netloc_delim H (P ++ T)).
  2:{ apply (forallb_impl host_char); [|exact HH]. apply host_char_not_delim. }
  2:{ apply rest_starts_with_delim; assumption. }
  rewrite (has_char_forallb (ch "[") host_char H eq_refl HH).
  rewrite (has_char_forallb (ch "]") host_char H eq_refl HH).
  cbn [andb orb negb mbind exc_bind].
  revert Hrest.
  destruct (match cut [ch "#"] (P ++ T) with
            | Some (b, a) => (b, a)
            | None => (P ++ T, [])
            end) as [url1 frag].
  destruct (match cut [ch "?"] url1 with
            | Some (b, a) => (b, a)
            | None => (url1, [])
            end) as [url2 qry].
  intros [= -> -> ->]. reflexivity.
Qed.

Lemma strip_https (X : list N) :
  forallb visible X = true ->
  strip (u8 "https://" ++ X) = u8 "https://" ++ X.
Proof.
  intros HX. unfold strip, strip_by.
  change (lstrip_by is_space (u8 "https://" ++ X)) with (u8 "https://" ++ X).
  apply rstrip_by_absent. rewrite forallb_app.
  change (forallb (fun c => negb (is_space c)) (u8 "https://")) with true.
  apply (forallb_impl visible); [|exact HX].
  intros c Hc. rewrite (visible_not_space c Hc). reflexivity.
Qed.

(** The unparsing of a normalized https URL with a host. *)
Lemma urlunparse_https (H' P' : list N) :
  H' <> [] ->
  match P' with [] => True | c :: _ => c = ch "/" end ->
  Urllib.urlunparse (u8 "https") H' P' [] [] [] = u8 "https://" ++ H' ++ P'.
Proof.
  intros HH HP. unfold Urllib.urlunparse, Urllib.urlunsplit.
  cbn [nonempty].
  destruct H' as [|h H']; [contradiction HH; reflexivity|].
  cbn [nonempty orb].
  destruct P' as [|c P']; [reflexivity|]. subst c. reflexivity.
Qed.

(** The value of [normalize_url] on a URL [https://host path tail], where
    the host has no white space, slash, question mark, hash or bracket, the
    path is empty or starts with a slash and has no [?], [#] or [;], and the
    tail is empty or a query and/or fragment, [normalize_url] lower-cases
    the host, strips one leading "www.", removes trailing slashes, query
    and fragment. *)
Lemma normalize_url_https_value (H P T : list N) :
  host_text H -> path_text P -> tail_text T ->
  strip_www (lower H) <> [] ->
  normalize_url (u8 "https://" ++ H ++ P ++ T)
  = u8 "https://" ++ strip_www (lower H) ++ rstrip_slash P.
Proof.
  intros HH HP HT Hhost.
  assert (Hvis : forallb visible (H ++ P ++ T) = true).
  { rewrite !forallb_app.
    rewrite (forallb_impl _ _ H host_char_visible HH).
    rewrite (forallb_impl _ _ P path_char_visible (proj1 HP)).
    rewrite (proj1 HT). reflexivity. }
  destruct (urlsplit_https H P T HH HP HT) as (q & f & Hsplit).
  unfold normalize_url.
  rewrite (strip_https _ Hvis).
  unfold Urllib.urlparse. rewrite Hsplit.
  cbn [mbind exc_bind Urllib.sr_scheme Urllib.sr_netloc Urllib.sr_path
       Urllib.sr_query Urllib.sr_fragment].
  rewrite (has_char_forallb (ch ";") path_char P eq_refl (proj1 HP)).
  rewrite andb_false_r.
  cbn [Urllib.scheme Urllib.netloc Urllib.path nonempty].
  apply urlunparse_https; [exact Hhost|].
  destruct HP as [_ HP]. destruct P as [|c P]; [exact I|]. subst c.
  unfold rstrip_slash.
  destruct (rstrip_by_head (N.eqb (ch "/")) (ch "/") P) as [->|[r ->]];
    [exact I|reflexivity].
Qed.

Lemma lower_cp_host_char (c : N) :
  host_char c = true ->
  host_char (lower_cp c) = true /\ lower_cp (lower_cp c) = lower_cp c.
Proof.
  intros Hc. pose proof (visible_bounds c (host_char_visible c Hc)) as Hb.
  assert (Hall : forallb (fun d => implb (host_char d)
                   (host_char (lower_cp d)
                    && (lower_cp (lower_cp d) =? lower_cp d)%N))
                   (map N.of_nat (seq 33 94)) = true)
    by (vm_compute; reflexivity).
  rewrite forallb_forall in Hall. specialize (Hall c).
  rewrite Hc in Hall. cbn [implb] in Hall.
  assert (Hin : In c (map N.of_nat (seq 33 94))).
  { rewrite <- (N2Nat.id c). apply in_map. apply in_seq. lia. }
  apply Hall in Hin. apply andb_true_iff in Hin. destruct Hin as [H1 H2].
  apply N.eqb_eq in H2. split; assumption.
Qed.

Lemma lower_host_text (H : list N) :
  host_text H -> host_text (lower H) /\ lower (lower H) = lower H.
Proof.
  unfold host_text, lower. induction H as [|c H IH]; simpl; intros Hh.
  - split; reflexivity.
  - apply andb_true_iff in Hh. destruct Hh as [Hc Hh].
    destruct (lower_cp_host_char c Hc) as [Hc1 Hc2].
    destruct (IH Hh) as [IH1 IH2].
    rewrite Hc1, IH1, Hc2, IH2. split; reflexivity.
Qed.

Lemma forallb_drop (p : N -> bool) (n : nat) (s : list N) :
  forallb p s = true -> forallb p (drop n s) = true.
Proof.
  revert s. induction n as [|n IH]; intros s H; [exact H|].
  destruct s as [|c s]; [reflexivity|]. simpl in H |- *.
  apply andb_true_iff in H. apply IH. tauto.
Qed.

Lemma lower_drop (n : nat) (s : list N) : lower (drop n s) = drop n (lower s).
Proof. unfold lower. symmetry. apply skipn_map. Qed.

(** The normalized host is a host again, already in lower case. *)
Lemma strip_www_lower_host (H : list N) :
  host_text H ->
  host_text (strip_www (lower H))
  /\ lower (strip_www (lower H)) = strip_www (lower H).
Proof.
  intros HH. destruct (lower_host_text H HH) as [H1 H2].
  unfold strip_www. destruct (startswith _ (lower H)).
  - split; [apply forallb_drop; exact H1|].
    rewrite lower_drop, H2. reflexivity.
  - split; assumption.
Qed.

Lemma rstrip_slash_path_text (P : list N) :
  path_text P -> path_text (rstrip_slash P).
Proof.
  intros [HP Hhead]. split.
  - apply rstrip_by_forallb. exact HP.
  - destruct P as [|c P]; [exact I|]. subst c. unfold rstrip_slash.
    destruct (rstrip_by_head (N.eqb (ch "/")) (ch "/") P) as [->|[r ->]];
      [exact I|reflexivity].
Qed.

(** C3 (as amended): on a URL [https://host path tail] (host without white
    space, slash, question mark, hash or bracket; path empty or starting with
    a slash, without [?], [#] or [;]; tail empty or a query and/or fragment),
    [normalize_url] lower-cases the host, strips one leading "www." and
    removes trailing slashes, query and fragment; and it is idempotent there
    unless the host begins with a doubled "www.". *)
Theorem normalize_url_https (H P T : list N) :
  host_text H -> path_text P -> tail_text T ->
  strip_www (lower H) <> [] ->
  normalize_url (u8 "https://" ++ H ++ P ++ T)
  = u8 "https://" ++ strip_www (lower H) ++ rstrip_slash P
  /\ (startswith (u8 "www.") (strip_www (lower H)) = false ->
      normalize_url (normalize_url (u8 "https://" ++ H ++ P ++ T))
      = normalize_url (u8 "https://" ++ H ++ P ++ T)).
Proof.
  intros HH HP HT Hhost.
  pose proof (normalize_url_https_value H P T HH HP HT Hhost) as Hval.
  split; [exact Hval|].
  intros Hwww. rewrite Hval.
  destruct (strip_www_lower_host H HH) as [HH' Hlow].
  pose proof (rstrip_slash_path_text P HP) as HP'.
  assert (Hfix : strip_www (lower (strip_www (lower H)))
                 = strip_www (lower H)).
  { rewrite Hlow. unfold strip_www at 1. rewrite Hwww. reflexivity. }
  pose proof (normalize_url_https_value (strip_www (lower H))
                (rstrip_slash P) [] HH' HP') as Hagain.
  rewrite Hfix in Hagain. rewrite app_nil_r in Hagain.
  rewrite Hagain.
  - unfold rstrip_slash. rewrite rstrip_by_idem. reflexivity.
  - split; [reflexivity|exact I].
  - exact Hhost.
Qed.

End UrlProps.

(** C3, witness: the example of the specification with the secure scheme;
    both URLs normalize to the same string. *)
Lemma normalize_url_https_witness :
  Main.normalize_url (u8 "https://WWW.Example.com/a/b/?x=1#y")
  = u8 "https://example.com/a/b"
  /\ Main.normalize_url (u8 "https://example.com/a/b")
     = u8 "https://example.com/a/b"
  /\ Main.normalize_url
       (Main.normalize_url (u8 "https://WWW.Example.com/a/b/?x=1#y"))
     = Main.normalize_url (u8 "https://WWW.Example.com/a/b/?x=1#y").
Proof.
  destruct (normalize_url_https (u8 "WWW.Example.com") (u8 "/a/b/")
              (u8 "?x=1#y")) as [H1 H2].
  - vm_compute. reflexivity.
  - split; [vm_compute; reflexivity|reflexivity].
  - split; [vm_compute; reflexivity|left; reflexivity].
  - vm_compute. discriminate.
  - destruct (normalize_url_https (u8 "example.com") (u8 "/a/b") [])
      as [H3 _].
    + vm_compute. reflexivity.
    + split; [vm_compute; reflexivity|reflexivity].
    + split; [reflexivity|exact I].
    + vm_compute. discriminate.
    + split; [exact H1|split; [exact H3|]].
      apply H2. vm_compute. reflexivity.
Defined.

(** C3, counterexample to the claim as stated: the scheme of the first
    example is kept, so the two examples of the specification normalize to
    different strings; and normalizing "https://www.www.example.com" twice
    differs from normalizing it once. *)
Lemma normalize_url_counterexample :
  Main.normalize_url (u8 "http://WWW.Example.com/a/b/?x=1#y")
  = u8 "http://example.com/a/b"
  /\ Main.normalize_url (u8 "https://example.com/a/b")
     = u8 "https://example.com/a/b"
  /\ Main.normalize_url (u8 "http://WWW.Example.com/a/b/?x=1#y")
     <> Main.normalize_url (u8 "https://example.com/a/b")
  /\ Main.normalize_url (Main.normalize_url (u8 "https://www.www.example.com"))
     <> Main.normalize_url (u8 "https://www.www.example.com").
Proof.
  split; [|split; [|split]].
  - vm_compute. reflexivity.
  - vm_compute. reflexivity.
  - vm_compute. discriminate.
  - vm_compute. discriminate.
Qed.

(* ===================================================================== *)
(** * Further properties of the code                                      *)
(* ===================================================================== *)

(** ** The links of a search page *)

Section LinkProps.
Import Main.

Lemma fromkeys_go_elem (links : list (list N)) :
  forall (seen : gset (list N)) (x : list N),
    x ∈ fromkeys_go seen links <-> x ∈ links /\ x ∉ seen.
Proof.
  induction links as [|y rest IH]; intros seen x; simpl.
  - rewrite elem_of_nil. tauto.
  - destruct (decide (y ∈ seen)) as [Hy|Hy].
    + rewrite IH, elem_of_cons. split.
      * intros [H1 H2]. tauto.
      * intros [[->|H1] H2]; [contradiction|tauto].
    + rewrite !elem_of_cons, IH, elem_of_union, elem_of_singleton. split.
      * intros [->|[H1 H2]]; tauto.
      * intros [[->|H1] H2]; [tauto|].
        destruct (decide (x = y)) as [->|Hne]; [tauto|]. right. tauto.
Qed.

Lemma fromkeys_go_NoDup (links : list (list N)) :
  forall seen : gset (list N), NoDup (fromkeys_go seen links).
Proof.
  induction links as [|y rest IH]; intros seen; simpl.
  - constructor.
  - destruct (decide (y ∈ seen)); [apply IH|].
    apply NoDup_cons. split; [|apply IH].
    rewrite fromkeys_go_elem, elem_of_union, elem_of_singleton. tauto.
Qed.

Lemma fromkeys_go_sublist (links : list (list N)) :
  forall seen : gset (list N), sublist (fromkeys_go seen links) links.
Proof.
  induction links as [|y rest IH]; intros seen; simpl.
  - constructor.
  - destruct (decide (y ∈ seen)).
    + apply sublist_cons, IH.
    + apply sublist_skip, IH.
Qed.

(** A list without repetitions, none of it seen before, is kept as it is. *)
Lemma fromkeys_go_fixed (links : list (list N)) :
  forall seen : gset (list N),
    NoDup links -> (forall x, x ∈ links -> x ∉ seen) ->
    fromkeys_go seen links = links.
Proof.
  induction links as [|y rest IH]; intros seen Hnd Hnew; simpl; [reflexivity|].
  apply NoDup_cons in Hnd. destruct Hnd as [Hy Hnd].
  destruct (decide (y ∈ seen)) as [Hin|_].
  - exfalso. apply (Hnew y); [left|exact Hin].
  - f_equal. apply IH; [exact Hnd|].
    intros x Hx. rewrite elem_of_union, elem_of_singleton.
    intros [->|Hs]; [contradiction|].
    apply (Hnew x); [right; exact Hx|exact Hs].
Qed.

(** [list(dict.fromkeys(links))] keeps one copy of every link, in the order
    in which the links first occur: the result has no repetition, has the
    same members, is a subsequence of the input that starts with the same
    link, and is not changed by a second pass. *)
Theorem fromkeys_first_occurrences (links : list (list N)) :
  NoDup (fromkeys links)
  /\ (forall x, x ∈ fromkeys links <-> x ∈ links)
  /\ sublist (fromkeys links) links
  /\ head (fromkeys links) = head links
  /\ fromkeys (fromkeys links) = fromkeys links.
Proof.
  unfold fromkeys. split; [|split; [|split; [|split]]].
  - apply fromkeys_go_NoDup.
  - intros x. rewrite fromkeys_go_elem. split; [tauto|].
    intros H. split; [exact H|apply not_elem_of_empty].
  - apply fromkeys_go_sublist.
  - destruct links as [|y rest]; [reflexivity|]. simpl.
    destruct (decide (y ∈ (∅ : gset (list N)))) as [Hin|_]; [|reflexivity].
    exfalso. exact (not_elem_of_empty y Hin).
  - apply fromkeys_go_fixed; [apply fromkeys_go_NoDup|].
    intros x _. apply not_elem_of_empty.
Qed.

End LinkProps.

(** ** What the scrapers collect, and at what cost *)

Section CollectedProps.
Import Main.

Variable repr_float : float -> list N.
Variable http : nat -> request -> response.
Variable cian_links avito_links : list N -> exc (list (list N)).
Variable cian_dom avito_dom : list N -> exc item_dom.
Variable geocode_address : list N -> option (list N) -> option (float * float).
Variable now_iso : nat -> list N.

(** A record as a scraper of source [src] assembles it for the city
    [city_name]. *)
Definition collected (src city_name : list N) (r : row) : Prop :=
  source r = Some src
  /\ city r = Some city_name
  /\ status r = Some (u8 "active")
  /\ notes r = None
  /\ area_in_bounds (area_m2 r) = true
  /\ (exists link,
        url r = normalize_url link /\ external_id r = digits_or_none link)
  /\ address_formatted r
     = Some (normalize_address_for_geocoding repr_float
               (as_pyval (address_raw r)) (Some city_name))
  /\ compute_price_per_m2 (price_total r) (area_m2 r) = Ok (price_per_m2 r).

Lemma geocode_last_resort_sent (city_name : list N) (address : option (list N))
    (lat lng : option float) (st : run) :
  sent (fst (geocode_last_resort geocode_address city_name address lat lng st))
  = sent st.
Proof.
  unfold geocode_last_resort.
  destruct (bool_decide (lat = None) || bool_decide (lng = None));
    [|reflexivity].
  destruct address as [addr|]; [|reflexivity].
  destruct (nonempty addr); [|reflexivity].
  destruct (geocode_address _ None) as [[la lo]|]; reflexivity.
Qed.

Lemma assemble_row_sent (src city_name link : list N) (dom : item_dom)
    (lat lng : option float) (st : run) :
  sent (fst (assemble_row repr_float geocode_address now_iso
               src city_name link dom lat lng st)) = sent st.
Proof.
  unfold assemble_row. destruct (area_in_bounds _); [|reflexivity].
  pose proof (geocode_last_resort_sent city_name (dom_address dom) lat lng st)
    as Hs.
  destruct (geocode_last_resort _ _ _ _ _ _) as [st1 [la lo]].
  destruct (compute_price_per_m2 _ _); exact Hs.
Qed.

Lemma assemble_row_collected (src city_name link : list N) (dom : item_dom)
    (lat lng : option float) (st st' : run) (r : row) :
  assemble_row repr_float geocode_address now_iso
    src city_name link dom lat lng st = (st', Ok (Some r)) ->
  collected src city_name r.
Proof.
  unfold assemble_row. destruct (area_in_bounds _) eqn:Harea;
    [|intros H; discriminate H].
  destruct (geocode_last_resort _ _ _ _ _ _) as [st1 [la lo]].
  destruct (compute_price_per_m2 _ _) as [ppm|e] eqn:Hppm;
    [|intros H; discriminate H].
  intros H. injection H as _ <-. unfold collected. cbn [source city status
    notes area_m2 url external_id address_formatted address_raw price_total
    price_per_m2].
  repeat match goal with |- _ /\ _ => split end;
    try reflexivity; try assumption.
  exists link. split; reflexivity.
Qed.

Lemma cian_item_collected (city_name link body : list N) (st st' : run)
    (r : row) :
  cian_item repr_float cian_dom geocode_address now_iso city_name link body st
  = (st', Ok (Some r)) ->
  collected (u8 "cian") city_name r.
Proof.
  unfold cian_item. destruct (cian_dom body) as [dom|e];
    [|intros H; discriminate H].
  destruct (cian_coords _ _) as [[lat lng]|e]; [|intros H; discriminate H].
  apply assemble_row_collected.
Qed.

Lemma avito_item_collected (city_name link body : list N) (st st' : run)
    (r : row) :
  avito_item repr_float avito_dom geocode_address now_iso city_name link body st
  = (st', Ok (Some r)) ->
  collected (u8 "avito") city_name r.
Proof.
  unfold avito_item. destruct (avito_dom body) as [dom|e];
    [|intros H; discriminate H].
  destruct (dom_map_ll dom) as [[lo la]|]; apply assemble_row_collected.
Qed.

Lemma cian_item_sent (city_name link body : list N) (st : run) :
  sent (fst (cian_item repr_float cian_dom geocode_address now_iso
               city_name link body st)) = sent st.
Proof.
  unfold cian_item. destruct (cian_dom body) as [dom|e]; [|reflexivity].
  destruct (cian_coords _ _) as [[lat lng]|e]; [|reflexivity].
  apply assemble_row_sent.
Qed.

Lemma avito_item_sent (city_name link body : list N) (st : run) :
  sent (fst (avito_item repr_float avito_dom geocode_address now_iso
               city_name link body st)) = sent st.
Proof.
  unfold avito_item. destruct (avito_dom body) as [dom|e]; [|reflexivity].
  destruct (dom_map_ll dom) as [[lo la]|]; apply assemble_row_sent.
Qed.

(** The loops over links and pages, for any treatment [item] of a detail
    page that sends nothing itself and only yields records with [P]. *)
Section Loops.

Variables retries cap threshold link_cap : nat.
Variable site : site_name.
Variable links_of : list N -> exc (list (list N)).
Variable item : list N -> list N -> list N -> run -> run * exc (option row).
Variable P : row -> Prop.
Variable city_name : list N.

Hypothesis item_P :
  forall link body st st' r,
    item city_name link body st = (st', Ok (Some r)) -> P r.
Hypothesis item_sent :
  forall link body st, sent (fst (item city_name link body st)) = sent st.

Lemma shared_links_inv (links : list (list N)) :
  forall (records : list row) (st : run),
    Forall P records ->
    Forall P (fst (shared_links http retries cap item
                     city_name links records st))
    /\ sent (snd (shared_links http retries cap item
                    city_name links records st))
       <= sent st + retries * length links
    /\ length (fst (shared_links http retries cap item
                      city_name links records st))
       <= length records + length links.
Proof.
  induction links as [|link rest IH]; intros records st HP.
  - simpl. split; [exact HP|]. lia.
  - cbn [shared_links length].
    pose proof (shared_fetch_bound http cap link retries 1 (emit EvDelay st))
      as Hb.
    destruct (shared_fetch http cap link retries 1 (emit EvDelay st))
      as [st1 fetched].
    cbn [fst sent emit] in Hb.
    assert (Hskip : forall st2, sent st2 <= sent st + retries ->
              Forall P (fst (shared_links http retries cap item
                               city_name rest records st2))
              /\ sent (snd (shared_links http retries cap item
                              city_name rest records st2))
                 <= sent st + retries * S (length rest)
              /\ length (fst (shared_links http retries cap item
                                city_name rest records st2))
                 <= length records + S (length rest)).
    { intros st2 H2. destruct (IH records st2 HP) as (I1 & I2 & I3).
      split; [exact I1|]. rewrite Nat.mul_succ_r. lia. }
    destruct fetched as [[body|]|e]; try (apply Hskip; exact Hb).
    pose proof (item_sent link body st1) as Hs.
    destruct (item city_name link body st1) as [st2 [[r|]|e]] eqn:Hitem;
      cbn [fst] in Hs; try (apply Hskip; lia).
    assert (HP' : Forall P (records ++ [r])).
    { apply Forall_app. split; [exact HP|].
      constructor; [|constructor]. exact (item_P link body st1 st2 r Hitem). }
    destruct (IH (records ++ [r]) st2 HP') as (I1 & I2 & I3).
    split; [exact I1|]. rewrite length_app in I3. simpl in I3.
    rewrite Nat.mul_succ_r. lia.
Qed.

Lemma shared_pages_inv (count : nat) :
  forall (p empty_pages : nat) (records : list row) (st : run),
    Forall P records ->
    Forall P (fst (shared_pages http retries cap threshold link_cap site
                     links_of item city_name p count empty_pages records st))
    /\ sent (snd (shared_pages http retries cap threshold link_cap site
                    links_of item city_name p count empty_pages records st))
       <= sent st + count * (1 + retries * link_cap)
    /\ length (fst (shared_pages http retries cap threshold link_cap site
                      links_of item city_name p count empty_pages records st))
       <= length records + count * link_cap.
Proof.
  induction count as [|count IH]; intros p empty_pages records st HP.
  - simpl. split; [exact HP|]. lia.
  - cbn [shared_pages]. rewrite !Nat.mul_succ_l.
    set (st' := {| sent := S (sent st);
                   log := log st ++ [EvGet (SearchPage site p)] |}).
    assert (Hstop : Forall P (fst (records, st'))
                    /\ sent (snd (records, st'))
                       <= sent st + (count * (1 + retries * link_cap)
                                     + (1 + retries * link_cap))
                    /\ length (fst (records, st'))
                       <= length records + (count * link_cap + link_cap)).
    { cbn [fst snd sent st']. split; [exact HP|]. lia. }
    destruct (http (sent st) (SearchPage site p)) as [|code html];
      [exact Hstop|].
    destruct (blocked code || http_error code); [exact Hstop|].
    destruct (links_of html) as [links|e]; [|exact Hstop].
    destruct (fromkeys links) as [|l ls] eqn:Hkeys.
    + destruct (threshold <=? S empty_pages); [exact Hstop|].
      destruct (IH (S p) (S empty_pages) records st' HP) as (I1 & I2 & I3).
      split; [exact I1|]. cbn [sent st'] in I2. lia.
    + pose proof (shared_links_inv (take link_cap (l :: ls)) records st' HP)
        as (L1 & L2 & L3).
      assert (Hlen : length (take link_cap (l :: ls)) <= link_cap)
        by (rewrite length_take; lia).
      assert (Hmul : retries * length (take link_cap (l :: ls))
                     <= retries * link_cap)
        by (apply Nat.mul_le_mono_l; exact Hlen).
      destruct (shared_links http retries cap item city_name
                  (take link_cap (l :: ls)) records st') as [records' st''].
      cbn [fst snd] in L1, L2, L3. cbn [sent st'] in L2.
      destruct (IH (S p) 0 records' st'' L1) as (I1 & I2 & I3).
      split; [exact I1|]. lia.
Qed.

End Loops.

(** Every record that a scraper returns was assembled by it: it carries the
    scraper's source name, the city of the run and the status "active", has
    no note yet, an area within the bounds of the settings, a normalized url
    and the digits of its link as external id, the normalized address, and
    the price per square metre computed from its own price and area. *)
Theorem scraped_records_collected (city_name : list N) (pages : nat) (st : run) :
  Forall (collected (u8 "cian") city_name)
    (fst (scrape_cian repr_float http cian_links cian_dom geocode_address
            now_iso city_name pages st))
  /\ Forall (collected (u8 "avito") city_name)
       (fst (scrape_avito repr_float http avito_links avito_dom
               geocode_address now_iso city_name pages st)).
Proof.
  split.
  - unfold scrape_cian. rewrite cian_pages_shared.
    apply (shared_pages_inv 3 8 3 40 Cian cian_links
             (cian_item repr_float cian_dom geocode_address now_iso)
             (collected (u8 "cian") city_name) city_name).
    + intros link body s s' r. apply cian_item_collected.
    + intros link body s. apply cian_item_sent.
    + constructor.
  - unfold scrape_avito. rewrite avito_pages_shared.
    apply (shared_pages_inv 3 8 3 40 Avito avito_links
             (avito_item repr_float avito_dom geocode_address now_iso)
             (collected (u8 "avito") city_name) city_name).
    + intros link body s s' r. apply avito_item_collected.
    + intros link body s. apply avito_item_sent.
    + constructor.
Qed.

(** The cost of a run: a scraper sends at most 121 requests per page asked
    for (the search page and 3 attempts on each of 40 links) and returns at
    most 40 records per page. *)
Theorem scrape_budget (city_name : list N) (pages : nat) (st : run) :
  sent (snd (scrape_cian repr_float http cian_links cian_dom geocode_address
               now_iso city_name pages st)) <= sent st + pages * 121
  /\ length (fst (scrape_cian repr_float http cian_links cian_dom
                    geocode_address now_iso city_name pages st))
     <= pages * 40
  /\ sent (snd (scrape_avito repr_float http avito_links avito_dom
                  geocode_address now_iso city_name pages st))
     <= sent st + pages * 121
  /\ length (fst (scrape_avito repr_float http avito_links avito_dom
                    geocode_address now_iso city_name pages st))
     <= pages * 40.
Proof.
  unfold scrape_cian, scrape_avito.
  rewrite cian_pages_shared, avito_pages_shared.
  destruct (shared_pages_inv 3 8 3 40 Cian cian_links
              (cian_item repr_float cian_dom geocode_address now_iso)
              (fun _ => True) city_name
              (fun _ _ _ _ _ _ => I)
              (fun link body s => cian_item_sent city_name link body s)
              pages 1 0 [] st (List.Forall_nil _)) as (_ & C2 & C3).
  destruct (shared_pages_inv 3 8 3 40 Avito avito_links
              (avito_item repr_float avito_dom geocode_address now_iso)
              (fun _ => True) city_name
              (fun _ _ _ _ _ _ => I)
              (fun link body s => avito_item_sent city_name link body s)
              pages 1 0 [] st (List.Forall_nil _)) as (_ & A2 & A3).
  simpl length in C3, A3.
  change (1 + 3 * 40) with 121 in C2, A2.
  split; [exact C2|split; [exact C3|split; [exact A2|exact A3]]].
Qed.

End CollectedProps.

(** ** The record store: coordinates and notes *)

Section EnsureProps.
Import Main.

Variable repr_float : float -> list N.
Variable geocode_address : list N -> option (list N) -> option (float * float).

(** The columns that the pass over the frame never writes. *)
Definition same_offer (r r' : row) : Prop :=
  source r' = source r /\ external_id r' = external_id r /\ url r' = url r
  /\ title r' = title r /\ address_raw r' = address_raw r
  /\ address_formatted r' = address_formatted r /\ city r' = city r
  /\ area_m2 r' = area_m2 r /\ price_total r' = price_total r
  /\ price_per_m2 r' = price_per_m2 r /\ last_seen_at r' = last_seen_at r
  /\ status r' = status r.

Definition has_coords (r : row) : bool := notna (lat r) && notna (lng r).

(** A row of the frame before and after the pass. *)
Definition ensured (r r' : row) : Prop :=
  same_offer r r'
  /\ (has_coords r = true -> lat r' = lat r /\ lng r' = lng r).

(** The note that the zone classifier can read. *)
Definition noted (r : row) : Prop :=
  exists note, notes r = Some note /\ contains (u8 "lat =") note = true.

Lemma same_offer_refl (r : row) : same_offer r r.
Proof. unfold same_offer. repeat split. Qed.

Lemma legacy_note_marked (L U : list N) :
  contains (u8 "lat =") (legacy_note L U) = true.
Proof. reflexivity. Qed.

Lemma ensure_note_ensured (r : row) :
  ensured r (ensure_note repr_float r)
  /\ (has_coords r = true -> noted (ensure_note repr_float r)).
Proof.
  unfold ensure_note, has_coords.
  destruct (lat r) as [la|] eqn:Hla;
    [|split; [split; [apply same_offer_refl|tauto]|discriminate]].
  destruct (lng r) as [lo|] eqn:Hlo;
    [|split; [split; [apply same_offer_refl|tauto]
             |rewrite andb_false_r; discriminate]].
  destruct (notes r) as [note|] eqn:Hn.
  - destruct (contains (u8 "lat =") note) eqn:Hc.
    + split; [split; [apply same_offer_refl|tauto]|].
      intros _. exists note. split; assumption.
    + split; [split; [unfold same_offer; repeat split|]|].
      * intros _. simpl. split; reflexivity.
      * intros _. eexists. split; [reflexivity|apply legacy_note_marked].
  - split; [split; [unfold same_offer; repeat split|]|].
    + intros _. simpl. split; reflexivity.
    + intros _. eexists. split; [reflexivity|apply legacy_note_marked].
Qed.

Lemma ensure_missing_ensured (limit : option nat) (r : row) (updated : nat)
    (st : run) :
  has_coords r = false ->
  ensured r (fst (fst (ensure_missing repr_float geocode_address
                         limit r updated st)))
  /\ (has_coords (fst (fst (ensure_missing repr_float geocode_address
                              limit r updated st))) = true ->
      noted (fst (fst (ensure_missing repr_float geocode_address
                         limit r updated st))))
  /\ updated <= snd (fst (ensure_missing repr_float geocode_address
                            limit r updated st))
     <= S updated
  /\ (forall l, limit = Some l -> updated <= l ->
        snd (fst (ensure_missing repr_float geocode_address
                    limit r updated st)) <= l)
  /\ sent (snd (ensure_missing repr_float geocode_address limit r updated st))
     = sent st.
Proof.
  intros Hno.
  assert (Hsame : ensured r r /\ (has_coords r = true -> noted r)
                  /\ updated <= updated <= S updated
                  /\ (forall l, limit = Some l -> updated <= l -> updated <= l)).
  { split; [split; [apply same_offer_refl|tauto]|].
    split; [rewrite Hno; discriminate|]. split; [lia|tauto]. }
  destruct Hsame as (S1 & S2 & S3 & S4).
  unfold ensure_missing.
  destruct (match limit with Some l => l <=? updated | None => false end)
    eqn:Hlim; [cbn [fst snd]; tauto|].
  destruct (negb (nonempty _)); [cbn [fst snd]; tauto|].
  destruct (geocode_address _ _) as [[la lo]|]; cbn [fst snd];
    [|split; [exact S1|split; [exact S2|split; [exact S3|split;
       [exact S4|reflexivity]]]]].
  split; [split; [unfold same_offer; repeat split|]|].
  - rewrite Hno. discriminate.
  - split; [intros _; eexists; split;
              [reflexivity|apply legacy_note_marked]|].
    split; [lia|]. split; [|reflexivity].
    intros l -> Hl. apply Nat.leb_gt in Hlim. lia.
Qed.

Lemma ensure_loop_inv (limit : option nat) (rows : list row) :
  forall (updated : nat) (st : run),
    Forall2 ensured rows
      (fst (fst (ensure_loop repr_float geocode_address limit rows updated st)))
    /\ Forall (fun r' => has_coords r' = true -> noted r')
         (fst (fst (ensure_loop repr_float geocode_address
                      limit rows updated st)))
    /\ updated
       <= snd (fst (ensure_loop repr_float geocode_address
                      limit rows updated st))
       <= updated + length rows
    /\ (forall l, limit = Some l -> updated <= l ->
          snd (fst (ensure_loop repr_float geocode_address
                      limit rows updated st)) <= l)
    /\ sent (snd (ensure_loop repr_float geocode_address
                    limit rows updated st)) = sent st.
Proof.
  induction rows as [|r rest IH]; intros updated st.
  - simpl. repeat split; try constructor; try lia; try tauto.
  - cbn [ensure_loop length]. fold (has_coords r).
    destruct (has_coords r) eqn:Hc.
    + destruct (IH updated st) as (I1 & I2 & I3 & I4 & I5).
      destruct (ensure_loop _ _ limit rest updated st) as [[rest' n] st'].
      cbn [fst snd] in *.
      destruct (ensure_note_ensured r) as [E1 E2].
      split; [constructor; assumption|].
      split; [constructor; [intros _; apply E2; exact Hc|exact I2]|].
      split; [lia|]. split; assumption.
    + destruct (ensure_missing_ensured limit r updated st Hc)
        as (M1 & M2 & M3 & M4 & M5).
      destruct (ensure_missing _ _ limit r updated st) as [[r' n] st1].
      cbn [fst snd] in M1, M2, M3, M4, M5.
      destruct (IH n st1) as (I1 & I2 & I3 & I4 & I5).
      destruct (ensure_loop _ _ limit rest n st1) as [[rest' n'] st2].
      cbn [fst snd] in *.
      split; [constructor; assumption|].
      split; [constructor; assumption|].
      split; [lia|]. split; [|congruence].
      intros l Hl Hu. apply (I4 l Hl). apply (M4 l Hl Hu).
Qed.

(** The pass over the frame keeps the rows and their order, writes nothing
    but coordinates and notes, leaves the coordinates of a row that has them
    alone, counts at most one geocoded row per row and never more than the
    limit, and sends no request to the listing sites. *)
Theorem ensure_coords_keeps_rows (df : list row) (limit : option nat)
    (st : run) :
  Forall2 ensured df
    (fst (fst (_ensure_coords_and_notes repr_float geocode_address
                 df limit st)))
  /\ snd (fst (_ensure_coords_and_notes repr_float geocode_address
                 df limit st)) <= length df
  /\ (forall l, limit = Some l ->
        snd (fst (_ensure_coords_and_notes repr_float geocode_address
                    df limit st)) <= l)
  /\ sent (snd (_ensure_coords_and_notes repr_float geocode_address
                  df limit st)) = sent st.
Proof.
  unfold _ensure_coords_and_notes.
  destruct (ensure_loop_inv limit df 0 st) as (I1 & _ & I3 & I4 & I5).
  split; [exact I1|]. split; [lia|]. split; [|exact I5].
  intros l Hl. apply (I4 l Hl). lia.
Qed.

(** After the pass every row that has both coordinates carries a note with
    the marker ["lat ="], which the zone classifier reads. *)
Theorem ensure_coords_notes_written (df : list row) (limit : option nat)
    (st : run) :
  Forall (fun r' => has_coords r' = true -> noted r')
    (fst (fst (_ensure_coords_and_notes repr_float geocode_address
                 df limit st))).
Proof.
  unfold _ensure_coords_and_notes.
  destruct (ensure_loop_inv limit df 0 st) as (_ & I2 & _). exact I2.
Qed.

Lemma ensure_note_fixed (r : row) :
  ensure_note repr_float (ensure_note repr_float r) = ensure_note repr_float r.
Proof.
  assert (H : ensure_note repr_float r = r
              \/ exists la lo,
                   lat r = Some la /\ lng r = Some lo
                   /\ ensure_note repr_float r
                      = with_notes
                          (legacy_note (repr_float la) (repr_float lo)) r).
  { unfold ensure_note.
    destruct (lat r) as [la|]; [|left; reflexivity].
    destruct (lng r) as [lo|]; [|left; reflexivity].
    destruct (notes r) as [n|];
      [destruct (contains _ n); [left; reflexivity|]|];
      right; exists la, lo; repeat split; reflexivity. }
  destruct H as [H|(la & lo & Hla & Hlo & H)].
  - rewrite H. exact H.
  - rewrite H. unfold ensure_note. cbn [lat lng notes with_notes].
    rewrite Hla, Hlo, legacy_note_marked. reflexivity.
Qed.

Lemma ensure_note_has_coords (r : row) :
  has_coords (ensure_note repr_float r) = has_coords r.
Proof.
  unfold ensure_note, has_coords.
  destruct (lat r) as [la|] eqn:Hla; [|rewrite Hla; reflexivity].
  destruct (lng r) as [lo|] eqn:Hlo; [|rewrite Hla, Hlo; reflexivity].
  destruct (notes r) as [note|]; [destruct (contains _ note)|];
    cbn [lat lng with_notes]; rewrite ?Hla, ?Hlo; reflexivity.
Qed.

Lemma ensure_loop_complete (limit : option nat) (rows : list row) :
  forall (updated : nat) (st : run),
    Forall (fun r => has_coords r = true) rows ->
    ensure_loop repr_float geocode_address limit rows updated st
    = (map (ensure_note repr_float) rows, updated, st).
Proof.
  induction rows as [|r rest IH]; intros updated st Hall; [reflexivity|].
  apply Forall_cons in Hall. destruct Hall as [Hr Hrest].
  cbn [ensure_loop map]. fold (has_coords r). rewrite Hr.
  rewrite (IH updated st Hrest). reflexivity.
Qed.

(** On a frame in which every row has coordinates the pass asks the geocoder
    nothing, counts no row, and only fills in missing notes; a second pass
    changes nothing. *)
Theorem ensure_coords_complete_frame (df : list row) (limit : option nat)
    (st : run) :
  Forall (fun r => has_coords r = true) df ->
  _ensure_coords_and_notes repr_float geocode_address df limit st
  = (map (ensure_note repr_float) df, 0, st)
  /\ _ensure_coords_and_notes repr_float geocode_address
       (map (ensure_note repr_float) df) limit st
     = (map (ensure_note repr_float) df, 0, st).
Proof.
  intros Hall. unfold _ensure_coords_and_notes. split.
  - apply ensure_loop_complete. exact Hall.
  - rewrite ensure_loop_complete.
    + rewrite map_map. f_equal. f_equal. apply map_ext. intros r.
      apply ensure_note_fixed.
    + apply Forall_map. eapply Forall_impl; [exact Hall|].
      intros r Hr. simpl. rewrite ensure_note_has_coords. exact Hr.
Qed.

End EnsureProps.

(** A row that has its coordinates and no note yet. *)
Definition located_row : Main.row :=
  {| Main.source := Some (u8 "avito"); Main.external_id := Some (u8 "77");
     Main.url := u8 "https://avito.ru/moskva/77"; Main.title := None;
     Main.address_raw := Some (u8 "Тверская улица, 7");
     Main.address_formatted := None;
     Main.city := Some (u8 "Москва");
     Main.lat := Some 55.75%float; Main.lng := Some 37.5%float;
     Main.area_m2 := Some 50%float; Main.price_total := None;
     Main.price_per_m2 := None; Main.last_seen_at := None;
     Main.status := Some (u8 "active"); Main.notes := None |}.

(** The frame with this one row: the pass writes the note, and a second pass
    finds nothing to do. *)
Lemma ensure_coords_complete_frame_witness :
  let repr_float := fun _ : float => u8 "55.75" in
  let geocode := fun (_ : list N) (_ : option (list N)) =>
                   @None (float * float) in
  let st := {| Main.sent := 0; Main.log := [] |} in
  Main._ensure_coords_and_notes repr_float geocode [located_row] (Some 1) st
  = (map (Main.ensure_note repr_float) [located_row], 0, st)
  /\ Main._ensure_coords_and_notes repr_float geocode
       (map (Main.ensure_note repr_float) [located_row]) (Some 1) st
     = (map (Main.ensure_note repr_float) [located_row], 0, st).
Proof.
  intros repr_float geocode st.
  apply (ensure_coords_complete_frame repr_float geocode [located_row]
           (Some 1) st).
  constructor; [vm_compute; reflexivity|constructor].
Defined.

(** ** The record store: distinct keys *)

Section KeyProps.
Import Main.

Lemma same_listing_sym (r r' : row) : same_listing r r' -> same_listing r' r.
Proof. unfold same_listing. intuition congruence. Qed.

Lemma same_listing_trans (r1 r2 r3 : row) :
  same_listing r1 r2 -> same_listing r2 r3 -> same_listing r1 r3.
Proof. unfold same_listing. intuition congruence. Qed.

Lemma same_listing_refl (r : row) : same_listing r r.
Proof. unfold same_listing. auto. Qed.

Lemma existsb_same_listing_false (r : row) (earlier : list row) :
  existsb (fun r' => bool_decide (same_listing r r')) earlier = false ->
  forall r', In r' earlier -> ~ same_listing r r'.
Proof.
  intros He r' Hin Hsame.
  assert (Ht : existsb (fun r' => bool_decide (same_listing r r')) earlier
               = true).
  { apply existsb_exists. exists r'. split; [exact Hin|].
    apply bool_decide_eq_true. exact Hsame. }
  congruence.
Qed.

Lemma keep_first_inv (rows : list row) :
  forall earlier : list row,
    Forall (fun x => forall r', In r' earlier -> ~ same_listing x r')
      (keep_first earlier rows)
    /\ NoDup (map dedup_key (keep_first earlier rows))
    /\ (forall x, In x rows ->
          exists r', In r' (earlier ++ keep_first earlier rows)
                     /\ same_listing x r').
Proof.
  induction rows as [|r rest IH]; intros earlier.
  - simpl. split; [constructor|]. split; [constructor|]. intros x [].
  - cbn [keep_first].
    destruct (IH (earlier ++ [r])) as (A & B & C).
    set (K := keep_first (earlier ++ [r]) rest) in *.
    assert (A' : Forall (fun x => forall r', In r' earlier ->
                                             ~ same_listing x r') K).
    { eapply Forall_impl; [exact A|]. intros x Hx r' Hr'. apply Hx.
      apply in_or_app. left. exact Hr'. }
    destruct (existsb (fun r' => bool_decide (same_listing r r')) earlier)
      eqn:He; cbn [app].
    + split; [exact A'|]. split; [exact B|].
      apply existsb_exists in He. destruct He as (r0 & Hr0 & Hs0).
      apply bool_decide_eq_true in Hs0.
      intros x [<-|Hx].
      * exists r0. split; [apply in_or_app; left; exact Hr0|exact Hs0].
      * destruct (C x Hx) as (r' & Hr' & Hs').
        rewrite <- app_assoc in Hr'. apply in_app_or in Hr'.
        destruct Hr' as [Hr'|[<-|Hr']].
        -- exists r'. split; [apply in_or_app; left; exact Hr'|exact Hs'].
        -- exists r0. split; [apply in_or_app; left; exact Hr0|].
           eapply same_listing_trans; eassumption.
        -- exists r'. split; [apply in_or_app; right; exact Hr'|exact Hs'].
    + split; [|split].
      * constructor; [|exact A'].
        apply existsb_same_listing_false. exact He.
      * cbn [map]. apply NoDup_cons. split; [|exact B].
        rewrite list_elem_of_In, in_map_iff. intros (x & Hkey & Hx).
        rewrite List.Forall_forall in A.
        apply (A x Hx r); [apply in_or_app; right; left; reflexivity|].
        apply dedup_key_same_listing. exact Hkey.
      * intros x [<-|Hx].
        -- exists r. split; [apply in_or_app; right; left; reflexivity|].
           apply same_listing_refl.
        -- destruct (C x Hx) as (r' & Hr' & Hs').
           exists r'. split; [|exact Hs'].
           rewrite <- app_assoc in Hr'. exact Hr'.
Qed.

Lemma deduplicate_keep_first (records : list row) :
  deduplicate records = keep_first [] (normalized records).
Proof.
  unfold deduplicate. fold (normalized records).
  rewrite (dedup_loop_keep_first (normalized records) [] ∅ []);
    [reflexivity|].
  intros k. split.
  - intros H. exfalso. exact (not_elem_of_empty k H).
  - intros (r' & [] & _).
Qed.

(** After deduplication no two rows have the same key, and every record of
    the input is still represented: some kept row agrees with it on source,
    external id and normalized url. *)
Theorem deduplicate_distinct_and_complete (records : list row) :
  NoDup (map dedup_key (deduplicate records))
  /\ (forall r, In r (normalized records) ->
        exists r', In r' (deduplicate records) /\ same_listing r r')
  /\ length (deduplicate records) <= length records.
Proof.
  rewrite deduplicate_keep_first.
  destruct (keep_first_inv (normalized records) []) as (_ & B & C).
  split; [exact B|]. split; [exact C|].
  assert (Hlen : forall rows earlier,
             length (keep_first earlier rows) <= length rows).
  { induction rows as [|r rest IH]; intros earlier; simpl; [lia|].
    specialize (IH (earlier ++ [r])).
    destruct (existsb _ earlier); simpl; lia. }
  specialize (Hlen (normalized records) []).
  unfold normalized in Hlen at 2. rewrite length_map in Hlen. exact Hlen.
Qed.

End KeyProps.

(** ** The zone classifier: what a run touches and what it costs *)

Section SheetProps.
Import Wb.

Variable service : nat -> list N -> exc json.

Lemma set_fill_value (f : pattern_fill) (r c r' c' : nat)
    (w : gmap (nat * nat) cell) :
  value (ws_cell (set_fill f r c w) r' c') = value (ws_cell w r' c').
Proof.
  unfold set_fill, ws_cell at 1.
  destruct (decide ((r, c) = (r', c'))) as [[= <- <-]|Hne].
  - rewrite lookup_insert_eq. reflexivity.
  - rewrite lookup_insert_ne by exact Hne. reflexivity.
Qed.

Lemma fill_row_value (f : pattern_fill) (r r' c' : nat) (cols : list nat) :
  forall w : gmap (nat * nat) cell,
    value (ws_cell (fold_left (fun w col => set_fill f r col w) cols w) r' c')
    = value (ws_cell w r' c').
Proof.
  induction cols as [|col cols IH]; intros w; simpl; [reflexivity|].
  rewrite IH. apply set_fill_value.
Qed.

Lemma set_value_other (v : list N) (r c r' c' : nat)
    (w : gmap (nat * nat) cell) :
  (r, c) <> (r', c') ->
  value (ws_cell (set_value v r c w) r' c') = value (ws_cell w r' c').
Proof.
  intros Hne. unfold set_value, ws_cell at 1.
  rewrite lookup_insert_ne by exact Hne. reflexivity.
Qed.

Lemma set_status_other (row_num : nat) (color : list N) (st : state)
    (r c : nat) :
  (row_num, COLUMN_COLOR) <> (r, c) ->
  value (ws_cell (ws (set_status_to_table row_num color st)) r c)
  = value (ws_cell (ws st) r c).
Proof.
  intros Hne. unfold set_status_to_table. cbn [ws log_event with_ws].
  rewrite set_value_other by exact Hne.
  destruct (str_eqb color PURPLE); [apply fill_row_value|].
  destruct (str_eqb color PINK); [apply fill_row_value|reflexivity].
Qed.

(** The tries of [fetch_page] leave the sheet and the pause flag alone and
    send at most one request each. *)
Lemma fetch_tries_frame (url : list N) (tries : list nat) :
  forall st : state,
    ws (fst (fetch_tries service url tries st)) = ws st
    /\ is_need_to_pause (fst (fetch_tries service url tries st))
       = is_need_to_pause st
    /\ requests_sent (fst (fetch_tries service url tries st))
       <= requests_sent st + length tries.
Proof.
  induction tries as [|t rest IH]; intros st.
  - simpl. repeat split. lia.
  - cbn [fetch_tries length]. cbv zeta.
    set (st0 := if 1 <? t then log_event WbSleep5 st else st).
    assert (H0 : ws st0 = ws st /\ is_need_to_pause st0 = is_need_to_pause st
                 /\ requests_sent st0 = requests_sent st)
      by (subst st0; destruct (1 <? t); repeat split).
    destruct H0 as (W0 & P0 & R0). clearbody st0.
    set (st1 := {| ws := ws st0; requests_sent := S (requests_sent st0);
                   events := events st0 ++ [WbGet url];
                   is_need_to_pause := is_need_to_pause st0 |}).
    destruct (IH st1) as (W1 & P1 & R1). cbn [ws is_need_to_pause
      requests_sent st1] in W1, P1, R1.
    destruct (service (requests_sent st0) url) as [response|e];
      cbn [mbind exc_bind].
    + destruct (not_found_in response) as [[|]|e]; cbn [mbind exc_bind mret
        exc_ret fst]; cbn [ws is_need_to_pause requests_sent st1];
        repeat split; try congruence; lia.
    + repeat split; try congruence; lia.
Qed.

Lemma main_row_frame (row_num : nat) (st : state) :
  (forall r c, (row_num, COLUMN_COLOR) <> (r, c) ->
     value (ws_cell (ws (main_row service row_num st)) r c)
     = value (ws_cell (ws st) r c))
  /\ requests_sent (main_row service row_num st) <= requests_sent st + 5.
Proof.
  unfold main_row.
  set (st0 := if is_need_to_pause st then log_event WbPause st else st).
  assert (H0 : ws st0 = ws st /\ requests_sent st0 = requests_sent st)
    by (subst st0; destruct (is_need_to_pause st); split; reflexivity).
  destruct H0 as (W0 & R0). clearbody st0. rewrite <- W0.
  destruct (value (ws_cell (ws st0) row_num COLUMN_COORDINATES))
    as [coordinates|]; [|split; [reflexivity|lia]].
  destruct (negb (nonempty coordinates)); [split; [reflexivity|lia]|].
  destruct (match value (ws_cell (ws st0) row_num 2) with
            | Some c => nonempty c && existsb (str_eqb c) [PURPLE; PINK]
            | None => false
            end); [split; [reflexivity|lia]|].
  unfold check_coordinates, fetch_page.
  set (st1 := {| ws := ws st0; requests_sent := requests_sent st0;
                 events := events st0; is_need_to_pause := true |}).
  destruct (fetch_tries_frame
              (check_point_url (parse_lat coordinates) (parse_lng coordinates))
              (seq 1 5) st1) as (W1 & _ & R1).
  destruct (fetch_tries service _ (seq 1 5) st1) as [st2 response].
  cbn [fst ws requests_sent st1 length seq] in W1, R1.
  split.
  - intros r c Hne. rewrite set_status_other by exact Hne.
    rewrite W1. reflexivity.
  - unfold set_status_to_table. cbn [requests_sent log_event with_ws]. lia.
Qed.

Lemma main_rows_frame (rows : list nat) :
  forall st : state,
    (forall r c, (c <> COLUMN_COLOR \/ ~ In r rows) ->
       value (ws_cell (ws (main_rows service rows st)) r c)
       = value (ws_cell (ws st) r c))
    /\ requests_sent (main_rows service rows st)
       <= requests_sent st + 5 * length rows.
Proof.
  induction rows as [|row_num rest IH]; intros st.
  - simpl. split; [reflexivity|lia].
  - cbn [main_rows fold_left length].
    change (fold_left (fun st0 row_num0 => main_row service row_num0 st0)
              rest (main_row service row_num st))
      with (main_rows service rest (main_row service row_num st)).
    destruct (IH (main_row service row_num st)) as (I1 & I2).
    destruct (main_row_frame row_num st) as (M1 & M2).
    split; [|lia].
    intros r c Hrc. rewrite I1.
    + apply M1. intros [= Hrow Hcol]. destruct Hrc as [Hc|Hr].
      * apply Hc. symmetry. exact Hcol.
      * apply Hr. left. exact Hrow.
    + destruct Hrc as [Hc|Hr]; [left; exact Hc|].
      right. intros Hin. apply Hr. right. exact Hin.
Qed.

(** A run of the classifier changes no text of the sheet outside the
    classification column of the data rows (the header row, the notes and
    the column read by the skip test stay as they were), and sends at most
    five requests per data row. *)
Theorem classifier_frame (w : gmap (nat * nat) cell) :
  (forall r c, (c <> COLUMN_COLOR \/ r < 2 \/ max_row w < r) ->
     value (ws_cell (ws (main service w)) r c) = value (ws_cell w r c))
  /\ requests_sent (main service w) <= 5 * (max_row w - 1).
Proof.
  unfold main.
  destruct (main_rows_frame (seq 2 (max_row w - 1))
              {| ws := w; requests_sent := 0; events := [];
                 is_need_to_pause := false |}) as (H1 & H2).
  rewrite length_seq in H2. cbn [requests_sent] in H2.
  split; [|exact H2].
  intros r c Hrc. rewrite H1; [reflexivity|].
  destruct Hrc as [Hc|Hr]; [left; exact Hc|].
  right. rewrite in_seq. lia.
Qed.

End SheetProps.

(** ** The zone classifier: the tries of one lookup *)

Section FetchProps.
Import Wb.

Variable service : nat -> list N -> exc json.

(** The outcome of the n-th request of the run: the decoded body and
    whether it holds the not-found text (the [try] of [fetch_page]). *)
Definition attempt (n : nat) (url : list N) : exc (json * bool) :=
  response ← service n url;
  nf ← not_found_in response;
  Ok (response, nf).




(** A run over a sheet whose data rows all lack a note or were found
    processed by the skip test does nothing at all: no request, no pause, no
    save, and the sheet as it was. *)
Theorem classifier_idle_run (w : gmap (nat * nat) cell) :
  (forall r, 2 <= r <= max_row w ->
     match value (ws_cell w r COLUMN_COORDINATES) with
     | Some coordinates =>
         nonempty coordinates = false
         \/ already_processed (value (ws_cell w r 2)) = true
     | None => True
     end) ->
  main service w
  = {| ws := w; requests_sent := 0; events := [];
       is_need_to_pause := false |}.
Proof.
  intros Hrows. unfold main.
  assert (Hall : forall r, In r (seq 2 (max_row w - 1)) ->
                   2 <= r <= max_row w) by (intros r Hr; apply in_seq in Hr; lia).
  induction (seq 2 (max_row w - 1)) as [|r rest IH]; [reflexivity|].
  cbn [main_rows fold_left].
  assert (Hrow : main_row service r
                   {| ws := w; requests_sent := 0; events := [];
                      is_need_to_pause := false |}
                 = {| ws := w; requests_sent := 0; events := [];
                      is_need_to_pause := false |}).
  { specialize (Hrows r (Hall r (or_introl eq_refl))).
    unfold main_row. cbn [is_need_to_pause ws].
    destruct (value (ws_cell w r COLUMN_COORDINATES)) as [coordinates|];
      [|reflexivity].
    destruct Hrows as [Hempty|Hdone].
    - rewrite Hempty. reflexivity.
    - destruct (negb (nonempty coordinates)); [reflexivity|].
      unfold already_processed in Hdone. rewrite Hdone. reflexivity. }
  rewrite Hrow. apply IH. intros r' Hr'. apply Hall. right. exact Hr'.
Qed.

End FetchProps.

(** A sheet whose only data row carries a note and, in column 2, the pink
    zone. *)
Definition processed_sheet : gmap (nat * nat) Wb.cell :=
  <[(2, Wb.COLUMN_COORDINATES) := text_cell (u8 "lat = 55.7, lng = 37.6")]>
  (<[(2, 2) := text_cell Wb.PINK]>
  (<[(1, 1) := text_cell (u8 "source")]> ∅)).

Lemma classifier_idle_run_witness :
  Wb.main green_service processed_sheet = fresh_state processed_sheet.
Proof.
  apply (classifier_idle_run green_service processed_sheet).
  assert (Hrows : Wb.max_row processed_sheet = 2) by (vm_compute; reflexivity).
  rewrite Hrows. intros r Hr.
  assert (Hr2 : r = 2) by lia. subst r.
  vm_compute. right. reflexivity.
Defined.

(** ** The address normalizer on an address made of clean segments *)

Section SegmentProps.
Import Main.

Variable repr_float : float -> list N.

(** A segment of an address: not empty, no white space at its ends, no
    comma. *)
Definition segment (Sg : list N) : Prop :=
  Sg <> []
  /\ is_space (hd 0%N Sg) = false
  /\ is_space (List.last Sg 0%N) = false
  /\ has_char (ch ",") Sg = false.

Lemma lstrip_by_fixed (p : N -> bool) (s : list N) :
  p (hd 0%N s) = false -> lstrip_by p s = s.
Proof. destruct s as [|c s]; simpl; [reflexivity|]. intros ->. reflexivity. Qed.

Lemma rstrip_by_fixed (p : N -> bool) (s : list N) :
  p (List.last s 0%N) = false -> rstrip_by p s = s.
Proof.
  induction s as [|c s IH]; intros H; [reflexivity|].
  destruct s as [|d s].
  - simpl in H |- *. rewrite H. reflexivity.
  - change (rstrip_by p (c :: d :: s))
      with (match rstrip_by p (d :: s) with
            | [] => if p c then [] else [c]
            | r => c :: r
            end).
    rewrite IH by exact H. reflexivity.
Qed.

Lemma has_char_hd (c : N) (s : list N) :
  s <> [] -> has_char c s = false -> (hd 0%N s =? c)%N = false.
Proof.
  destruct s as [|x s]; [intros H; contradiction H; reflexivity|].
  intros _ H. simpl in H |- *. apply orb_false_iff in H.
  rewrite N.eqb_sym. tauto.
Qed.

Lemma has_char_last (c : N) (s : list N) :
  s <> [] -> has_char c s = false -> (List.last s 0%N =? c)%N = false.
Proof.
  induction s as [|x s IH]; [intros H; contradiction H; reflexivity|].
  intros _ H. simpl in H. apply orb_false_iff in H. destruct H as [Hx Hs].
  destruct s as [|y s].
  - simpl. rewrite N.eqb_sym. exact Hx.
  - change (List.last (x :: y :: s) 0%N) with (List.last (y :: s) 0%N).
    apply IH; [discriminate|exact Hs].
Qed.

Lemma not_space_not_blank (x : N) :
  is_space x = false -> (x =? ch " ")%N = false.
Proof.
  intros H. destruct (N.eqb_spec x (ch " ")) as [->|]; [|reflexivity].
  vm_compute in H. discriminate H.
Qed.

Lemma strip_segment (Sg : list N) :
  segment Sg -> strip Sg = Sg /\ strip (ch " " :: Sg) = Sg /\ nonempty Sg = true.
Proof.
  intros (Hne & Hhd & Hlast & _).
  assert (Hs : strip Sg = Sg).
  { unfold strip, strip_by. rewrite lstrip_by_fixed by exact Hhd.
    apply rstrip_by_fixed. exact Hlast. }
  split; [exact Hs|]. split.
  - unfold strip, strip_by. cbn [lstrip_by].
    change (is_space (ch " ")) with true. cbv iota. exact Hs.
  - destruct Sg; [contradiction Hne|]; reflexivity.
Qed.

(** The pieces between the commas of an address with segments [segs]. *)
Definition pieces (segs : list (list N)) : list (list N) :=
  match segs with
  | [] => []
  | Sg :: rest => Sg :: map (cons (ch " ")) rest
  end.

Lemma join_pieces (segs : list (list N)) :
  join (u8 ", ") segs = join [ch ","] (pieces segs).
Proof.
  destruct segs as [|Sg rest]; [reflexivity|]. revert Sg.
  induction rest as [|Tg rest IH]; intros Sg; [reflexivity|].
  change (join (u8 ", ") (Sg :: Tg :: rest))
    with (Sg ++ u8 ", " ++ join (u8 ", ") (Tg :: rest)).
  rewrite (IH Tg).
  destruct rest as [|U rest]; reflexivity.
Qed.

Lemma split_join_pieces (ps : list (list N)) :
  ps <> [] ->
  Forall (fun p => has_char (ch ",") p = false) ps ->
  split [ch ","] (join [ch ","] ps) = ps.
Proof.
  induction ps as [|P ps IH]; [intros H; contradiction H; reflexivity|].
  intros _ Hall. apply Forall_cons in Hall. destruct Hall as [HP Hps].
  destruct ps as [|Q ps].
  - simpl. apply split_no_sep, cut_char_none. exact HP.
  - change (join [ch ","] (P :: Q :: ps))
      with (P ++ ch "," :: join [ch ","] (Q :: ps)).
    rewrite (split_cut [ch ","] _ P (join [ch ","] (Q :: ps)));
      [|discriminate|apply cut_char; exact HP].
    f_equal. apply IH; [discriminate|exact Hps].
Qed.

Lemma pieces_no_comma (segs : list (list N)) :
  Forall segment segs ->
  Forall (fun p => has_char (ch ",") p = false) (pieces segs).
Proof.
  destruct segs as [|Sg rest]; [constructor|].
  intros Hall. apply Forall_cons in Hall. destruct Hall as [HS Hrest].
  constructor; [apply HS|].
  apply Forall_map. eapply Forall_impl; [exact Hrest|].
  intros Tg HT. unfold has_char. cbn [existsb].
  change (ch "," =? ch " ")%N with false. apply HT.
Qed.

Lemma strip_pieces (segs : list (list N)) :
  Forall segment segs ->
  map strip (List.filter (fun p => nonempty (strip p)) (pieces segs)) = segs.
Proof.
  destruct segs as [|Sg rest]; [reflexivity|].
  intros Hall. apply Forall_cons in Hall. destruct Hall as [HS Hrest].
  destruct (strip_segment Sg HS) as (S1 & _ & S3).
  cbn [pieces List.filter]. rewrite S1, S3. cbn [map]. rewrite S1. f_equal.
  induction rest as [|Tg rest IH]; [reflexivity|].
  apply Forall_cons in Hrest. destruct Hrest as [HT Hrest].
  destruct (strip_segment Tg HT) as (_ & T2 & T3).
  cbn [map List.filter]. rewrite T2, T3. cbn [map]. rewrite T2. f_equal.
  apply IH. exact Hrest.
Qed.

Lemma replace_absent (old new s : list N) :
  contains old s = false -> replace old new s = s.
Proof.
  intros H. unfold replace. rewrite split_no_sep by (apply cut_none; exact H).
  reflexivity.
Qed.

Lemma has_char_lstrip (c : N) (p : N -> bool) (s : list N) :
  has_char c s = false -> has_char c (lstrip_by p s) = false.
Proof.
  induction s as [|x s IH]; intros H; [reflexivity|].
  simpl. destruct (p x); [|exact H].
  apply IH. simpl in H. apply orb_false_iff in H. tauto.
Qed.

Lemma sub_parens_fuel_absent (n : nat) :
  forall s : list N,
    has_char (ch "(") s = false -> sub_parens_fuel n s = s.
Proof.
  induction n as [|n IH]; intros s H; [reflexivity|].
  cbn [sub_parens_fuel].
  assert (Hm : match_paren s = None).
  { unfold match_paren.
    pose proof (has_char_lstrip (ch "(") is_space s H) as Hl.
    destruct (lstrip_by is_space s) as [|c rest]; [reflexivity|].
    unfold has_char in Hl. cbn [existsb] in Hl.
    apply orb_false_iff in Hl. destruct Hl as [Hc _].
    rewrite N.eqb_sym, Hc. reflexivity. }
  rewrite Hm. destruct s as [|c s]; [reflexivity|].
  f_equal. apply IH. unfold has_char in H. cbn [existsb] in H.
  apply orb_false_iff in H. apply H.
Qed.

Lemma last_app_nonempty (l1 l2 : list N) (d : N) :
  l2 <> [] -> List.last (l1 ++ l2) d = List.last l2 d.
Proof.
  intros H. induction l1 as [|a l1 IH]; [reflexivity|].
  change ((a :: l1) ++ l2) with (a :: (l1 ++ l2)).
  destruct (l1 ++ l2) as [|b l] eqn:E.
  - destruct l1; [contradiction H; exact E|discriminate E].
  - exact IH.
Qed.

Lemma join_segments_ends (segs : list (list N)) :
  segs <> [] -> Forall segment segs ->
  join (u8 ", ") segs <> []
  /\ hd 0%N (join (u8 ", ") segs) = hd 0%N (hd [] segs)
  /\ List.last (join (u8 ", ") segs) 0%N
     = List.last (List.last segs []) 0%N.
Proof.
  induction segs as [|Sg rest IH]; [intros H; contradiction H; reflexivity|].
  intros _ Hall. apply Forall_cons in Hall. destruct Hall as [HS Hrest].
  destruct HS as (Hne & _).
  destruct rest as [|Tg rest].
  - simpl. repeat split. exact Hne.
  - destruct (IH ltac:(discriminate) Hrest) as (I1 & _ & I3).
    change (join (u8 ", ") (Sg :: Tg :: rest))
      with (Sg ++ u8 ", " ++ join (u8 ", ") (Tg :: rest)).
    split; [|split].
    + destruct Sg; [contradiction Hne; reflexivity|discriminate].
    + destruct Sg; [contradiction Hne; reflexivity|reflexivity].
    + rewrite app_assoc, last_app_nonempty by exact I1. exact I3.
Qed.

(** An address written as clean segments separated by ", ", without the
    on-map marker and without parentheses, is taken apart into exactly these
    segments.  When none of them names an administrative district, the
    result is the address itself, with the city put in front unless a
    segment mentions it (in any letter case). *)
Theorem normalize_address_segments (segs : list (list N)) :
  segs <> [] ->
  Forall segment segs ->
  contains (u8 "На карте") (join (u8 ", ") segs) = false ->
  has_char (ch "(") (join (u8 ", ") segs) = false ->
  address_parts (clean_address (join (u8 ", ") segs)) = segs
  /\ (drop_district_parts segs = segs ->
      normalize_address_for_geocoding repr_float
        (PStr (join (u8 ", ") segs)) None
      = join (u8 ", ") segs)
  /\ (drop_district_parts segs = segs ->
      forall c, c <> [] ->
        normalize_address_for_geocoding repr_float
          (PStr (join (u8 ", ") segs)) (Some c)
        = if forallb (fun p => negb (contains (lower c) (lower p))) segs
          then c ++ u8 ", " ++ join (u8 ", ") segs
          else join (u8 ", ") segs).
Proof.
  intros Hne Hall Hmark Hparen.
  set (A := join (u8 ", ") segs) in *.
  assert (Hclean : clean_address A = A).
  { unfold clean_address. rewrite (replace_absent _ _ _ Hmark).
    assert (Hstrip : strip_by (fun c => (c =? ch " ") || (c =? ch ","))%N A
                     = A).
    { destruct (join_segments_ends segs Hne Hall) as (_ & Hhd & Hlast).
      fold A in Hhd, Hlast.
      assert (Hfirst : segment (hd [] segs)).
      { destruct segs as [|Sg rest]; [contradiction Hne; reflexivity|].
        apply Forall_cons in Hall. apply Hall. }
      assert (Hfinal : segment (List.last segs [])).
      { rewrite List.Forall_forall in Hall. apply Hall.
        destruct (exists_last Hne) as (l & x & ->).
        rewrite List.last_last. apply in_or_app. right. left. reflexivity. }
      destruct Hfirst as (F1 & F2 & _ & F4).
      destruct Hfinal as (L1 & _ & L3 & L4).
      unfold strip_by. rewrite lstrip_by_fixed.
      - apply rstrip_by_fixed. rewrite Hlast.
        rewrite (not_space_not_blank _ L3), (has_char_last _ _ L1 L4).
        reflexivity.
      - rewrite Hhd.
        rewrite (not_space_not_blank _ F2), (has_char_hd _ _ F1 F4).
        reflexivity. }
    rewrite Hstrip. unfold sub_parens.
    apply sub_parens_fuel_absent. exact Hparen. }
  assert (Hparts : address_parts A = segs).
  { unfold address_parts, A. rewrite join_pieces.
    rewrite split_join_pieces.
    - apply strip_pieces. exact Hall.
    - destruct segs; [contradiction Hne; reflexivity|discriminate].
    - apply pieces_no_comma. exact Hall. }
  split; [rewrite Hclean; exact Hparts|].
  assert (Hjoin : forall kept, kept <> [] ->
            match kept with
            | _ :: _ => join (u8 ", ") kept
            | [] => A
            end = join (u8 ", ") kept).
  { intros [|k kept] Hk; [contradiction Hk|]; reflexivity. }
  split.
  - intros Hkeep. cbn [normalize_address_for_geocoding].
    unfold normalize_address_text. rewrite Hclean, Hparts, Hkeep.
    destruct segs as [|Sg rest]; [contradiction Hne|]; reflexivity.
  - intros Hkeep c Hc. cbn [normalize_address_for_geocoding].
    unfold normalize_address_text. rewrite Hclean, Hparts, Hkeep.
    assert (Hnc : nonempty c = true)
      by (destruct c; [contradiction Hc|]; reflexivity).
    rewrite Hnc. cbn [andb].
    destruct (forallb _ segs).
    + destruct segs as [|Sg rest]; [contradiction Hne|]; reflexivity.
    + destruct segs as [|Sg rest]; [contradiction Hne|]; reflexivity.
Qed.

End SegmentProps.

(** ** Durations *)

Section DurationProps.
Import Utils.

Variable repr_float : float -> list N.

Lemma str_of_Z_inj (z z' : Z) : str_of_Z z = str_of_Z z' -> z = z'.
Proof.
  unfold str_of_Z. intros H.
  apply (f_equal (map ascii_of_N)) in H.
  rewrite !map_map in H.
  rewrite !(map_ext _ (fun a => a) ascii_N_embedding), !map_id in H.
  apply (f_equal string_of_list_ascii) in H.
  rewrite !string_of_list_ascii_of_string in H.
  apply (f_equal DecimalString.NilZero.int_of_string) in H.
  assert (Hnn : forall n, Z.to_int n <> Decimal.Pos Decimal.Nil
                          /\ Z.to_int n <> Decimal.Neg Decimal.Nil).
  { intros [|q|q]; simpl; split; try discriminate;
      intros [= Hq]; exact (DecimalPos.Unsigned.to_uint_nonnil q Hq). }
  rewrite !DecimalString.NilZero.isi in H by apply Hnn.
  injection H as H. apply DecimalZ.to_int_inj. exact H.
Qed.

Lemma uint_digits (u : Decimal.uint) :
  forallb is_digit
    (map N_of_ascii
       (list_ascii_of_string (DecimalString.NilEmpty.string_of_uint u)))
  = true.
Proof.
  induction u;
    cbn [DecimalString.NilEmpty.string_of_uint list_ascii_of_string map
         forallb];
    rewrite ?IHu; reflexivity.
Qed.

Lemma str_of_Z_digits (z : Z) :
  (0 <= z)%Z -> forallb is_digit (str_of_Z z) = true.
Proof.
  intros Hz. unfold str_of_Z. destruct z as [|q|q]; [reflexivity| |lia].
  cbn [Z.to_int DecimalString.NilZero.string_of_int].
  unfold DecimalString.NilZero.string_of_uint.
  destruct (Pos.to_uint q) eqn:Hq; try (rewrite <- Hq; apply uint_digits).
  reflexivity.
Qed.

Lemma pad2_digits (z : Z) : (0 <= z)%Z -> forallb is_digit (pad2 z) = true.
Proof.
  intros Hz. unfold pad2, zfill2. pose proof (str_of_Z_digits z Hz) as Hd.
  destruct (length (str_of_Z z) <? 2); [|exact Hd].
  cbn [forallb]. rewrite Hd. reflexivity.
Qed.

Lemma pad2_inj (m m' : Z) :
  (0 <= m < 60)%Z -> (0 <= m' < 60)%Z -> pad2 m = pad2 m' -> m = m'.
Proof.
  intros Hm Hm' H.
  assert (Htable :
            forallb (fun a =>
              forallb (fun b =>
                implb (str_eqb (pad2 (Z.of_nat a)) (pad2 (Z.of_nat b)))
                      (a =? b))
                (seq 0 60)) (seq 0 60) = true) by (vm_compute; reflexivity).
  rewrite forallb_forall in Htable.
  specialize (Htable (Z.to_nat m)).
  rewrite forallb_forall in Htable.
  assert (Ha : In (Z.to_nat m) (seq 0 60)) by (apply in_seq; lia).
  assert (Hb : In (Z.to_nat m') (seq 0 60)) by (apply in_seq; lia).
  specialize (Htable Ha (Z.to_nat m') Hb).
  rewrite !Z2Nat.id in Htable by lia.
  rewrite H, str_eqb_refl in Htable. cbn [implb] in Htable.
  apply Nat.eqb_eq in Htable. lia.
Qed.

(** Two texts cut at the first occurrence of the same character. *)
Lemma split_at_char (c : N) (A A' R R' : list N) :
  has_char c A = false -> has_char c A' = false ->
  A ++ c :: R = A' ++ c :: R' -> A = A' /\ R = R'.
Proof.
  intros HA HA' H.
  pose proof (cut_char c A R HA) as H1.
  pose proof (cut_char c A' R' HA') as H2.
  rewrite H, H2 in H1. injection H1 as -> ->. split; reflexivity.
Qed.

Lemma digits_lack (c : N) (s : list N) :
  is_digit c = false -> forallb is_digit s = true -> has_char c s = false.
Proof. apply has_char_forallb. Qed.

(** The text for a whole number of seconds, a minute or more. *)
Definition hms_text (h m s : Z) : list N :=
  if (0 <? h)%Z
  then str_of_Z h ++ u8 "h:" ++ pad2 m ++ u8 "m:" ++ pad2 s ++ u8 "sec"
  else str_of_Z m ++ u8 "m:" ++ pad2 s ++ u8 "sec".

Lemma hms_text_inj (h m s h' m' s' : Z) :
  (0 <= h)%Z -> (0 <= m < 60)%Z -> (0 <= s < 60)%Z ->
  (0 <= h')%Z -> (0 <= m' < 60)%Z -> (0 <= s' < 60)%Z ->
  hms_text h m s = hms_text h' m' s' -> h = h' /\ m = m' /\ s = s'.
Proof.
  intros Hh Hm Hs Hh' Hm' Hs' H.
  assert (Hno_h : forall x, (0 <= x)%Z -> has_char (ch "h") (str_of_Z x) = false)
    by (intros x Hx; apply digits_lack; [reflexivity|apply str_of_Z_digits, Hx]).
  assert (Hno_m : forall x, (0 <= x)%Z -> has_char (ch "m") (str_of_Z x) = false)
    by (intros x Hx; apply digits_lack; [reflexivity|apply str_of_Z_digits, Hx]).
  assert (Hpad_h : forall x, (0 <= x)%Z -> has_char (ch "h") (pad2 x) = false)
    by (intros x Hx; apply digits_lack; [reflexivity|apply pad2_digits, Hx]).
  assert (Hpad_m : forall x, (0 <= x)%Z -> has_char (ch "m") (pad2 x) = false)
    by (intros x Hx; apply digits_lack; [reflexivity|apply pad2_digits, Hx]).
  assert (Htail : forall a b, (0 <= a < 60)%Z -> (0 <= b < 60)%Z ->
            pad2 a ++ u8 "sec" = pad2 b ++ u8 "sec" -> a = b).
  { intros a b Ha Hb E. apply app_inv_tail in E. apply pad2_inj; assumption. }
  assert (Hshort : forall x y, (0 <= x)%Z -> (0 <= y)%Z ->
            has_char (ch "h")
              (str_of_Z x ++ u8 "m:" ++ pad2 y ++ u8 "sec") = false).
  { intros x y Hx Hy. unfold has_char. rewrite !existsb_app.
    fold (has_char (ch "h") (str_of_Z x)). fold (has_char (ch "h") (pad2 y)).
    rewrite (Hno_h x Hx), (Hpad_h y Hy). reflexivity. }
  assert (Hlong : forall x rest,
            has_char (ch "h") (str_of_Z x ++ u8 "h:" ++ rest) = true).
  { intros x rest. unfold has_char. rewrite existsb_app.
    apply orb_true_iff. right. reflexivity. }
  unfold hms_text in H.
  destruct (Z.ltb_spec 0 h) as [Hpos|Hzero];
    destruct (Z.ltb_spec 0 h') as [Hpos'|Hzero'].
  - change (u8 "h:" ++ pad2 m ++ u8 "m:" ++ pad2 s ++ u8 "sec")
      with (ch "h" :: (ch ":" :: pad2 m) ++ ch "m" :: ch ":" :: pad2 s
                      ++ u8 "sec") in H.
    change (u8 "h:" ++ pad2 m' ++ u8 "m:" ++ pad2 s' ++ u8 "sec")
      with (ch "h" :: (ch ":" :: pad2 m') ++ ch "m" :: ch ":" :: pad2 s'
                      ++ u8 "sec") in H.
    apply split_at_char in H; [|apply Hno_h, Hh|apply Hno_h, Hh'].
    destruct H as [H1 H2]. apply str_of_Z_inj in H1.
    apply split_at_char in H2.
    + destruct H2 as [H2 H3]. injection H2 as H2. injection H3 as H3.
      split; [exact H1|]. split; [apply pad2_inj; assumption|].
      apply Htail; assumption.
    + unfold has_char. cbn [existsb]. apply (Hpad_m m). lia.
    + unfold has_char. cbn [existsb]. apply (Hpad_m m'). lia.
  - exfalso. apply (f_equal (has_char (ch "h"))) in H.
    rewrite Hlong, Hshort in H by lia. discriminate H.
  - exfalso. apply (f_equal (has_char (ch "h"))) in H.
    rewrite Hlong, Hshort in H by lia. discriminate H.
  - change (u8 "m:" ++ pad2 s ++ u8 "sec")
      with (ch "m" :: ch ":" :: pad2 s ++ u8 "sec") in H.
    change (u8 "m:" ++ pad2 s' ++ u8 "sec")
      with (ch "m" :: ch ":" :: pad2 s' ++ u8 "sec") in H.
    apply split_at_char in H; [|apply Hno_m; lia|apply Hno_m; lia].
    destruct H as [H1 H2]. apply str_of_Z_inj in H1. injection H2 as H2.
    split; [lia|]. split; [exact H1|]. apply Htail; assumption.
Qed.

(** For a duration of a minute or more in whole seconds the text shows
    hours, minutes and seconds that add up to the duration, with minutes and
    seconds below 60 and the hours left out when there are none; a float
    is rendered as its integer part; and no two such durations are rendered
    alike. *)
Theorem seconds_to_hms_duration (z : Z) :
  (60 <= z)%Z ->
  (exists h m s,
     z = (3600 * h + 60 * m + s)%Z
     /\ (0 <= h)%Z /\ (0 <= m < 60)%Z /\ (0 <= s < 60)%Z
     /\ seconds_to_hms repr_float (NumInt z) = Ok (hms_text h m s))
  /\ (forall f,
        below_minute (NumFloat f) = false -> py_int f = Ok z ->
        seconds_to_hms repr_float (NumFloat f)
        = seconds_to_hms repr_float (NumInt z))
  /\ (forall z',
        (60 <= z')%Z ->
        seconds_to_hms repr_float (NumInt z')
        = seconds_to_hms repr_float (NumInt z) ->
        z' = z).
Proof.
  intros Hz.
  assert (Hfields : forall k, (60 <= k)%Z ->
            seconds_to_hms repr_float (NumInt k)
            = Ok (hms_text (k / 3600) ((k mod 3600) / 60)
                           ((k mod 3600) mod 60))).
  { intros k Hk. unfold seconds_to_hms, hms_text. cbn [below_minute to_int].
    assert (Hlt : (k <? 60)%Z = false) by (apply Z.ltb_ge; exact Hk).
    rewrite Hlt. cbn [mbind exc_bind].
    destruct (0 <? k / 3600)%Z; reflexivity. }
  assert (Hrange : forall k, (60 <= k)%Z ->
            k = (3600 * (k / 3600) + 60 * ((k mod 3600) / 60)
                 + (k mod 3600) mod 60)%Z
            /\ (0 <= k / 3600)%Z
            /\ (0 <= (k mod 3600) / 60 < 60)%Z
            /\ (0 <= (k mod 3600) mod 60 < 60)%Z).
  { intros k Hk.
    pose proof (Z.div_mod k 3600 ltac:(lia)) as D1.
    pose proof (Z.mod_pos_bound k 3600 ltac:(lia)) as B1.
    pose proof (Z.div_mod (k mod 3600) 60 ltac:(lia)) as D2.
    pose proof (Z.mod_pos_bound (k mod 3600) 60 ltac:(lia)) as B2.
    pose proof (Z.div_pos k 3600 ltac:(lia) ltac:(lia)) as P1.
    pose proof (Z.div_pos (k mod 3600) 60 ltac:(lia) ltac:(lia)) as P2.
    assert (U2 : ((k mod 3600) / 60 < 60)%Z)
      by (apply Z.div_lt_upper_bound; lia).
    repeat split; lia. }
  split; [|split].
  - exists (z / 3600)%Z, ((z mod 3600) / 60)%Z, ((z mod 3600) mod 60)%Z.
    destruct (Hrange z Hz) as (R1 & R2 & R3 & R4).
    split; [exact R1|]. split; [exact R2|]. split; [exact R3|].
    split; [exact R4|]. apply Hfields. exact Hz.
  - intros f Hf Hint. unfold seconds_to_hms. rewrite Hf.
    cbn [below_minute to_int].
    assert (Hlt : (z <? 60)%Z = false) by (apply Z.ltb_ge; exact Hz).
    rewrite Hlt, Hint. reflexivity.
  - intros z' Hz' H. rewrite (Hfields z Hz), (Hfields z' Hz') in H.
    injection H as H.
    destruct (Hrange z Hz) as (R1 & R2 & R3 & R4).
    destruct (Hrange z' Hz') as (R1' & R2' & R3' & R4').
    apply hms_text_inj in H; try assumption.
    destruct H as (E1 & E2 & E3). rewrite R1, R1', E1, E2, E3. reflexivity.
Qed.

End DurationProps.

(** One hour, one minute and one second, as an [int] and as a [float]. *)
Lemma seconds_to_hms_duration_witness :
  Utils.seconds_to_hms (fun _ => []) (Utils.NumInt 3661) = Ok (u8 "1h:01m:01sec")
  /\ Utils.seconds_to_hms (fun _ => []) (Utils.NumFloat 3661.5)
     = Ok (u8 "1h:01m:01sec").
Proof.
  destruct (seconds_to_hms_duration (fun _ => []) 3661 ltac:(lia))
    as (_ & Hfloat & _).
  rewrite (Hfloat 3661.5%float);
    [|vm_compute; reflexivity|vm_compute; reflexivity].
  split; vm_compute; reflexivity.
Defined.

(** The address "Тверская улица, 7" for the city "Москва": two segments,
    no district among them, the city not mentioned. *)
Lemma normalize_address_segments_witness :
  Main.address_parts (Main.clean_address (u8 "Тверская улица, 7"))
  = [u8 "Тверская улица"; u8 "7"]
  /\ Main.normalize_address_for_geocoding (fun _ => [])
       (PStr (u8 "Тверская улица, 7")) (Some (u8 "Москва"))
     = u8 "Москва, Тверская улица, 7".
Proof.
  destruct (normalize_address_segments (fun _ => [])
              [u8 "Тверская улица"; u8 "7"]) as (Hparts & _ & Hcity).
  - discriminate.
  - apply Forall_cons. split; [|apply Forall_cons; split; [|constructor]].
    + split; [discriminate|].
      split; [vm_compute; reflexivity|].
      split; vm_compute; reflexivity.
    + split; [discriminate|].
      split; [vm_compute; reflexivity|].
      split; vm_compute; reflexivity.
  - vm_compute. reflexivity.
  - vm_compute. reflexivity.
  - split; [exact Hparts|].
    assert (Hkeep : Main.drop_district_parts [u8 "Тверская улица"; u8 "7"]
                    = [u8 "Тверская улица"; u8 "7"])
      by (vm_compute; reflexivity).
    specialize (Hcity Hkeep (u8 "Москва") ltac:(discriminate)).
    exact Hcity.
Defined.

(** ** The table that is saved *)

Section SaveProps.
Import Main Store.

Variable repr_float : float -> list N.
Variable geocode_address : list N -> option (list N) -> option (float * float).

Lemma keep_first_length (rows : list row) :
  forall earlier : list row, length (keep_first earlier rows) <= length rows.
Proof.
  induction rows as [|r rest IH]; intros earlier; simpl; [lia|].
  specialize (IH (earlier ++ [r])).
  destruct (existsb _ earlier); simpl; lia.
Qed.

Lemma ensured_keys (df df' : list row) :
  Forall2 ensured df df' -> map dedup_key df' = map dedup_key df.
Proof.
  induction 1 as [|r r' df df' Hr _ IH]; [reflexivity|].
  cbn [map]. rewrite IH. f_equal.
  apply dedup_key_same_listing.
  destruct Hr as [(H1 & H2 & H3 & _) _]. unfold same_listing. auto.
Qed.

(** The frame that [save_and_check] writes: no two rows with the same key,
    no more rows than records; every row with coordinates carries the note
    for the zone classifier; the formatted address of every row is the
    normalized raw address (or title) of that row; and no request went to
    the listing sites. *)
Theorem saved_table (records : list row) (limit : option nat) (st : run) :
  NoDup (map dedup_key
           (fst (save_and_check repr_float geocode_address records limit st)))
  /\ length (fst (save_and_check repr_float geocode_address records limit st))
     <= length records
  /\ Forall (fun r => has_coords r = true -> noted r)
       (fst (save_and_check repr_float geocode_address records limit st))
  /\ Forall (fun r =>
               address_formatted r
               = Some (normalize_address_for_geocoding repr_float
                         (as_pyval (py_or (address_raw r) (title r)))
                         (city r)))
       (fst (save_and_check repr_float geocode_address records limit st))
  /\ sent (snd (save_and_check repr_float geocode_address records limit st))
     = sent st.
Proof.
  unfold save_and_check.
  assert (Hd : match records with
               | [] => []
               | _ :: _ => deduplicate records
               end = deduplicate records) by (destruct records; reflexivity).
  rewrite Hd. unfold _ensure_coords_and_notes.
  destruct (ensure_loop_inv repr_float geocode_address limit
              (deduplicate records) 0 st) as (I1 & I2 & _ & _ & I5).
  destruct (ensure_loop repr_float geocode_address limit
              (deduplicate records) 0 st) as [[df n] st1].
  cbn [fst snd] in *.
  assert (Hkeys : map dedup_key (format_addresses repr_float df)
                  = map dedup_key (deduplicate records)).
  { rewrite <- (ensured_keys _ _ I1). unfold format_addresses.
    rewrite map_map. apply map_ext. intros r. reflexivity. }
  split; [|split; [|split; [|split]]].
  - rewrite Hkeys, deduplicate_keep_first.
    destruct (keep_first_inv (normalized records) []) as (_ & B & _).
    exact B.
  - unfold format_addresses. rewrite length_map.
    rewrite <- (Forall2_length _ _ _ I1), deduplicate_keep_first.
    pose proof (keep_first_length (normalized records) []) as Hlen.
    unfold normalized in Hlen at 2. rewrite length_map in Hlen. exact Hlen.
  - unfold format_addresses. apply Forall_map.
    eapply Forall_impl; [exact I2|]. intros r Hr. exact Hr.
  - unfold format_addresses. apply Forall_map.
    apply Forall_forall. intros r _. reflexivity.
  - exact I5.
Qed.

End SaveProps.

(** ** The geocoder and its cache *)

Section GeocoderProps.
Import Geocoder.

Variable repr_float : float -> list N.
Variable capitalize : list N -> list N.
Variable nominatim : nat -> list N -> option (list N) -> exc json.

(** The outcome of the n-th request: the coordinates read from the answer,
    [None] for an empty answer, an exception for a failed request or an
    answer that cannot be read. *)
Definition outcome (n : nat) (q : list N) (vb : option (list N))
  : exc (option (float * float)) :=
  data ← nominatim n q vb; read_answer data.

Lemma geocode_tries_inv (q : list N) (vb : option (list N)) (key : cache_key)
    (attempts : list nat) :
  forall st : geo,
    asked (fst (geocode_tries nominatim q vb key attempts st))
    <= asked st + length attempts
    /\ match snd (geocode_tries nominatim q vb key attempts st) with
       | Some r =>
           cache (fst (geocode_tries nominatim q vb key attempts st))
           = <[key := r]> (cache st)
       | None =>
           cache (fst (geocode_tries nominatim q vb key attempts st))
           = cache st
       end.
Proof.
  induction attempts as [|attempt rest IH]; intros st.
  - simpl. split; [lia|reflexivity].
  - cbn [geocode_tries length]. cbv zeta. fold (outcome (asked st) q vb).
    destruct (outcome (asked st) q vb) as [[r|]|e].
    + cbn [fst snd asked cache]. split; [lia|reflexivity].
    + cbn [fst snd asked cache]. split; [lia|reflexivity].
    + cbn [asked cache trace].
      match goal with
      | |- context [geocode_tries nominatim q vb key rest ?s] =>
          destruct (IH s) as [I1 I2]
      end.
      cbn [asked cache] in I1, I2. split; [lia|exact I2].
Qed.

(** The discipline of the cache.  A lookup sends at most three requests;
    what the cache holds is never changed or dropped; a query that the cache
    holds is answered from it, with no request; a lookup without result
    leaves the cache as it was; and a result is remembered under the key of
    the query, so that the same lookup, made again, gives the same result
    and sends nothing. *)
Theorem geocode_cache_discipline (address : list N) (city : option (list N))
    (st : geo) :
  let key : cache_key := (address, city, viewbox_of repr_float capitalize city) in
  let out := geocode_address repr_float capitalize nominatim address city st in
  asked (fst out) <= asked st + 3
  /\ (forall k v, cache st !! k = Some v -> cache (fst out) !! k = Some v)
  /\ (forall r, cache st !! key = Some r -> out = (st, Some r))
  /\ (snd out = None -> cache (fst out) = cache st)
  /\ (forall r, snd out = Some r ->
        cache (fst out) !! key = Some r
        /\ geocode_address repr_float capitalize nominatim address city
             (fst out) = (fst out, Some r)).
Proof.
  intros key out. subst out. unfold geocode_address. fold key.
  destruct (cache st !! key) as [hit|] eqn:Hkey.
  - cbn [fst snd]. split; [lia|]. split; [tauto|].
    split; [intros r [= ->]; reflexivity|]. split; [discriminate|].
    intros r [= ->]. split; [exact Hkey|]. rewrite Hkey. reflexivity.
  - destruct (geocode_tries_inv address
                (viewbox_of repr_float capitalize city) key (seq 1 3) st)
      as [I1 I2].
    destruct (geocode_tries nominatim address _ key (seq 1 3) st)
      as [st' res].
    cbn [fst snd length seq] in *.
    split; [exact I1|]. split; [|split; [discriminate|split]].
    + intros k v Hk. destruct res as [r|]; rewrite I2; [|exact Hk].
      rewrite lookup_insert_ne; [exact Hk|].
      intros ->. rewrite Hkey in Hk. discriminate Hk.
    + intros ->. exact I2.
    + intros r ->. rewrite I2. rewrite lookup_insert_eq.
      split; reflexivity.
Qed.

Lemma geocode_tries_all_fail (q : list N) (vb : option (list N))
    (key : cache_key) (attempts : list nat) :
  forall st : geo,
    (forall k, k < length attempts ->
       exists e, outcome (asked st + k) q vb = Raise e) ->
    geocode_tries nominatim q vb key attempts st
    = ({| cache := cache st; asked := asked st + length attempts;
          trace := trace st
                   ++ flat_map (fun a => [GeoGet q vb;
                                          GeoBackoff (backoff_base a)])
                               attempts |}, None).
Proof.
  induction attempts as [|attempt rest IH]; intros st Hall.
  - simpl. rewrite Nat.add_0_r, app_nil_r. destruct st; reflexivity.
  - destruct (Hall 0) as [e He]; [simpl; lia|].
    rewrite Nat.add_0_r in He.
    cbn [geocode_tries]. cbv zeta. fold (outcome (asked st) q vb).
    rewrite He. cbn [asked cache trace].
    rewrite IH.
    + cbn [asked cache trace length flat_map app].
      apply (f_equal (fun s => (s, None))).
      rewrite <- !app_assoc. cbn [app].
      replace (S (asked st) + length rest) with (asked st + S (length rest))
        by lia.
      reflexivity.
    + intros k Hk. cbn [asked].
      destruct (Hall (S k)) as [e' He']; [simpl; lia|].
      exists e'. rewrite <- He'. f_equal. lia.
Qed.

(** A query that is not in the cache and whose three requests all fail (or
    are answered unreadably) is given up: three requests, each followed by a
    pause of 2, 4 and 6 seconds (plus a random fraction), no result, and
    nothing remembered. *)
Theorem geocode_gives_up (address : list N) (city : option (list N))
    (st : geo) :
  let vb := viewbox_of repr_float capitalize city in
  cache st !! ((address, city, vb) : cache_key) = None ->
  (forall k, k < 3 -> exists e, outcome (asked st + k) address vb = Raise e) ->
  geocode_address repr_float capitalize nominatim address city st
  = ({| cache := cache st; asked := asked st + 3;
        trace := trace st ++ [GeoGet address vb; GeoBackoff 2;
                              GeoGet address vb; GeoBackoff 4;
                              GeoGet address vb; GeoBackoff 6] |}, None).
Proof.
  intros vb Hmiss Hall. unfold geocode_address. fold vb. rewrite Hmiss.
  rewrite geocode_tries_all_fail; [reflexivity|exact Hall].
Qed.

End GeocoderProps.

(** A geocoding service that is down. *)
Definition service_down (n : nat) (q : list N) (vb : option (list N))
  : exc json := Raise RequestError.

Lemma geocode_gives_up_witness :
  let st := {| Geocoder.cache := ∅; Geocoder.asked := 0;
               Geocoder.trace := [] |} in
  let q := u8 "Тверская улица, 7" in
  Geocoder.geocode_address (fun _ => []) (fun s => s) service_down q None st
  = ({| Geocoder.cache := ∅; Geocoder.asked := 3;
        Geocoder.trace :=
          [Geocoder.GeoGet q None; Geocoder.GeoBackoff 2;
           Geocoder.GeoGet q None; Geocoder.GeoBackoff 4;
           Geocoder.GeoGet q None; Geocoder.GeoBackoff 6] |}, None).
Proof.
  intros st q.
  apply (geocode_gives_up (fun _ => []) (fun s => s) service_down q None st).
  - reflexivity.
  - intros k Hk. exists RequestError. reflexivity.
Defined.

(** ** The zone classifier: the fill of a row *)

Section FillProps.
Import Wb.

Lemma str_eqb_eq (a b : list N) : str_eqb a b = true -> a = b.
Proof.
  revert b. induction a as [|x a IH]; intros [|y b] H; simpl in H;
    try discriminate H; [reflexivity|].
  apply andb_true_iff in H. destruct H as [Hxy Hab].
  apply N.eqb_eq in Hxy. subst y. f_equal. apply IH. exact Hab.
Qed.

Lemma set_value_fill (v : list N) (r c r' c' : nat)
    (w : gmap (nat * nat) cell) :
  fill (ws_cell (set_value v r c w) r' c') = fill (ws_cell w r' c').
Proof.
  unfold set_value, ws_cell at 1.
  destruct (decide ((r, c) = (r', c'))) as [[= <- <-]|Hne].
  - rewrite lookup_insert_eq. reflexivity.
  - rewrite lookup_insert_ne by exact Hne. reflexivity.
Qed.

Lemma fill_row_fill (f : pattern_fill) (r r' c' : nat) (cols : list nat) :
  forall w : gmap (nat * nat) cell,
    fill (ws_cell (fold_left (fun w col => set_fill f r col w) cols w) r' c')
    = if bool_decide (r' = r /\ c' ∈ cols) then Some f
      else fill (ws_cell w r' c').
Proof.
  induction cols as [|col cols IH]; intros w.
  - simpl. rewrite bool_decide_eq_false_2; [reflexivity|].
    intros [_ H]. exact (not_elem_of_nil c' H).
  - cbn [fold_left]. rewrite IH.
    destruct (decide (r' = r /\ c' ∈ cols)) as [Hin|Hnin].
    + rewrite !bool_decide_eq_true_2; [reflexivity| |exact Hin].
      split; [apply Hin|apply elem_of_cons; right; apply Hin].
    + rewrite (bool_decide_eq_false_2 _ Hnin).
      unfold set_fill, ws_cell at 1.
      destruct (decide ((r, col) = (r', c'))) as [[= <- <-]|Hne].
      * rewrite lookup_insert_eq.
        rewrite bool_decide_eq_true_2; [reflexivity|].
        split; [reflexivity|apply elem_of_cons; left; reflexivity].
      * rewrite lookup_insert_ne by exact Hne.
        rewrite bool_decide_eq_false_2; [reflexivity|].
        intros [-> Hc]. apply elem_of_cons in Hc.
        destruct Hc as [->|Hc]; [apply Hne; reflexivity|].
        apply Hnin. split; [reflexivity|exact Hc].
Qed.

(** Writing a classification saves the workbook once, never touches the
    fill of another row, paints the cells of the row in columns 1 to
    [max_column] purple or pink when the text is the purple or the pink
    zone, and changes no fill at all for any other text. *)
Theorem set_status_fills (row_num : nat) (color : list N) (st : state) :
  events (set_status_to_table row_num color st) = events st ++ [WbSave]
  /\ (forall r c, r <> row_num ->
        fill (ws_cell (ws (set_status_to_table row_num color st)) r c)
        = fill (ws_cell (ws st) r c))
  /\ (forall c, 1 <= c <= max_column (ws st) ->
        (color = PURPLE ->
         fill (ws_cell (ws (set_status_to_table row_num color st)) row_num c)
         = Some PURPLE_FILL)
        /\ (color = PINK ->
            fill (ws_cell (ws (set_status_to_table row_num color st))
                          row_num c)
            = Some PINK_FILL))
  /\ (color <> PURPLE -> color <> PINK ->
      forall r c,
        fill (ws_cell (ws (set_status_to_table row_num color st)) r c)
        = fill (ws_cell (ws st) r c)).
Proof.
  unfold set_status_to_table. cbn [ws events log_event with_ws].
  split; [reflexivity|]. split; [|split].
  - intros r c Hr. rewrite set_value_fill.
    destruct (str_eqb color PURPLE);
      [|destruct (str_eqb color PINK); [|reflexivity]];
      rewrite fill_row_fill; (rewrite bool_decide_eq_false_2; [reflexivity|tauto]).
  - intros c Hc. split; intros ->; rewrite set_value_fill.
    + rewrite str_eqb_refl, fill_row_fill.
      rewrite bool_decide_eq_true_2; [reflexivity|].
      split; [reflexivity|apply list_elem_of_In, in_seq; lia].
    + change (str_eqb PINK PURPLE) with false. rewrite str_eqb_refl.
      rewrite fill_row_fill.
      rewrite bool_decide_eq_true_2; [reflexivity|].
      split; [reflexivity|apply list_elem_of_In, in_seq; lia].
  - intros Hp Hk r c. rewrite set_value_fill.
    destruct (str_eqb color PURPLE) eqn:E1;
      [exfalso; apply Hp, str_eqb_eq, E1|].
    destruct (str_eqb color PINK) eqn:E2;
      [exfalso; apply Hk, str_eqb_eq, E2|]. reflexivity.
Qed.

End FillProps.
